(** * goup: toolchain provisioning and workspace assembly

    A shallow embedding of the goup builder (the [Goup] type and its methods)
    and of the configuration types of goupyaml.go, with the properties of the
    design document proved or refuted on it.

    The Go program works on the file system, spawns processes and logs; the
    embedding threads an explicit [World] through a small state-and-error
    monad.  Collaborators whose code is not part of the builder (archive
    unpacking, the vendor-manifest parser, the version order, the spawned
    processes) enter through the [Collaborators] class. *)

From Stdlib Require Import ZArith Lia Ascii.
From stdpp Require Import base option list strings gmap fin_maps.

Set Warnings "-register-all".

(* ===================================================================== *)
(** * Paths *)
(* ===================================================================== *)

Module Paths.

(** Modelled from the spec: the [Path] type of the builder (a Go string
    type whose declaration is outside the sources at hand) is a slash
    separated location; it is kept here as the list of its segments,
    outermost first.  [Child] appends one segment, [Add] joins a relative
    path, [Parent] drops the last segment. *)
Definition Path : Type := list string.

Definition Child (p : Path) (name : string) : Path := p ++ [name].

Definition Add (p q : Path) : Path := p ++ q.

Definition Parent (p : Path) : Path := removelast p.

(** [Path(p.String() + suffix)]: the text is appended to the last segment. *)
Fixpoint Suffix (p : Path) (suffix : string) : Path :=
  match p with
  | [] => [suffix]
  | [x] => [x +:+ suffix]
  | x :: p' => x :: Suffix p' suffix
  end.

(** [strings.Split(s, sep)] for a separator of one character. *)
Fixpoint Split (s : string) (sep : ascii) : list string :=
  match s with
  | EmptyString => [EmptyString]
  | String c s' =>
      if decide (c = sep) then EmptyString :: Split s' sep
      else match Split s' sep with
           | [] => [String c EmptyString]
           | l :: ls => String c l :: ls
           end
  end.

(** [strings.Join(ls, sep)]. *)
Fixpoint Join (ls : list string) (sep : ascii) : string :=
  match ls with
  | [] => EmptyString
  | [l] => l
  | l :: ls' => l +:+ String sep (Join ls' sep)
  end.

Definition slash : ascii := "/"%char.

(** [Path(s)] for a slash separated text: its non-empty segments. *)
Definition ofString (s : string) : Path :=
  filter (λ x, x ≠ EmptyString) (Split s slash).

(** [p.String()]. *)
Definition String_ (p : Path) : string := String slash (Join p slash).

(** Two locations neither of which lies inside the other. *)
Definition apart (p q : Path) : Prop :=
  ¬ p `prefix_of` q ∧ ¬ q `prefix_of` p.

End Paths.
Export Paths.

(* ===================================================================== *)
(** * The file system *)
(* ===================================================================== *)

Module FS.

(** A file-system tree: a file with its content, or a directory with its
    entries by name. *)
Inductive node : Type :=
  | File (data : string)
  | Dir (entries : gmap string node).

Definition IsDir (n : node) : bool :=
  match n with Dir _ => true | File _ => false end.

Fixpoint lookupPath (p : Path) (n : node) : option node :=
  match p with
  | [] => Some n
  | s :: p' =>
      match n with
      | Dir es => es !! s ≫= lookupPath p'
      | File _ => None
      end
  end.

(** [os.Stat(p)] succeeds. *)
Definition Exists (p : Path) (fs : node) : bool :=
  match lookupPath p fs with Some _ => true | None => false end.

(** [os.RemoveAll]: removes the entry and everything below it; a missing
    entry is no error; an ancestor that is a file is one (ENOTDIR).  The
    empty path is left alone. *)
Fixpoint removeAll (p : Path) (n : node) : option node :=
  match p with
  | [] => Some n
  | s :: p' =>
      match n with
      | File _ => None
      | Dir es =>
          match es !! s with
          | None => Some n
          | Some c =>
              match p' with
              | [] => Some (Dir (delete s es))
              | _ => c' ← removeAll p' c; Some (Dir (<[s := c']> es))
              end
          end
      end
  end.

(** [os.MkdirAll]: creates the directory and its missing ancestors; fails
    when a component is a file. *)
Fixpoint mkdirAll (p : Path) (n : node) : option node :=
  match n with
  | File _ => None
  | Dir es =>
      match p with
      | [] => Some n
      | s :: p' =>
          c' ← mkdirAll p' (default (Dir ∅) (es !! s));
          Some (Dir (<[s := c']> es))
      end
  end.

(** Puts [x] at [p]; the parent of [p] has to be a directory. *)
Fixpoint place (p : Path) (x : node) (n : node) : option node :=
  match p with
  | [] => None
  | s :: p' =>
      match n with
      | File _ => None
      | Dir es =>
          match p' with
          | [] => Some (Dir (<[s := x]> es))
          | _ => c ← es !! s; c' ← place p' x c; Some (Dir (<[s := c']> es))
          end
      end
  end.

(** What [os.Rename] accepts at the destination: nothing there, an empty
    directory for a directory, a file for a file. *)
Definition destOk (src : node) (dst : option node) : bool :=
  match dst with
  | None => true
  | Some (Dir es) =>
      match src with Dir _ => bool_decide (es = ∅) | File _ => false end
  | Some (File _) =>
      match src with File _ => true | Dir _ => false end
  end.

(** [os.Rename(old, new)]: moves the whole subtree in one step. *)
Definition rename (old new : Path) (fs : node) : option node :=
  src ← lookupPath old fs;
  if decide (old = new) then Some fs
  else if decide (old `prefix_of` new) then None
  else if destOk src (lookupPath new fs)
       then fs1 ← removeAll old fs; place new src fs1
       else None.

(** [ioutil.ReadDir]: the entries of a directory.  Go sorts them by name;
    the builder only uses their number and, when there is one, that one. *)
Definition readDir (p : Path) (fs : node) : option (list (string * node)) :=
  match lookupPath p fs with
  | Some (Dir es) => Some (map_to_list es)
  | _ => None
  end.

(** Reading a file. *)
Definition readFile (p : Path) (fs : node) : option string :=
  match lookupPath p fs with
  | Some (File d) => Some d
  | _ => None
  end.

End FS.
Export FS.

(* ===================================================================== *)
(** * Configuration (goupyaml.go) and program arguments *)
(* ===================================================================== *)

Module Config.

(** The ios section. *)
Record Ios : Type := {
  Ios_Prefix : string;
  Ios_Out : Path;
  Ios_Bundleid : string;
  Ios_Ldflags : string;
  Ios_Disabled : bool
}.

(** The android section. *)
Record Android : Type := {
  Android_Javapkg : string;
  Android_Out : Path;
  Android_Ldflags : string
}.

Record BuildGomobileToolchain : Type := {
  Toolchain_Go : string;
  Toolchain_Ndk : string;
  Toolchain_Sdk : string
}.

(** The gomobile build; [*Ios] and [*Android] are pointers, nil when the
    section is missing. *)
Record BuildGomobile : Type := {
  Gomobile_Toolchain : BuildGomobileToolchain;
  Gomobile_Ios : option Ios;
  Gomobile_Android : option Android;
  Gomobile_Modules : list string;
  Gomobile_Export : list string
}.

Record Build : Type := {
  Build_Gomobile : option BuildGomobile
}.

Record GoUpConfiguration : Type := {
  Config_Name : string;
  Config_Build : option Build
}.

(** Modelled from the spec: the [Args] type (declared outside the sources
    at hand), with the fields the builder reads. *)
Record Args : Type := {
  Args_BuildFile : Path;
  Args_BaseDir : Path;
  Args_HomeDir : Path;
  Args_ResourcesUrl : string;
  Args_Targets : list string;
  Args_ClearWorkspace : bool
}.

End Config.
Export Config.

(* ===================================================================== *)
(** * Resources and vendored modules *)
(* ===================================================================== *)

Module Catalogue.

(** Modelled from the spec: a [Resource] is the descriptor
    {name, version, url} of a downloadable artifact. *)
Record Resource : Type := {
  Resource_Name : string;
  Resource_Version : string;
  Resource_Url : string
}.

(** Modelled from the spec: the catalog maps a name to its list of
    resources; [Get] returns the matching one or fails. *)
Definition Resources : Type := gmap string (list Resource).

Definition Get (rs : Resources) (name version : string)
  : Resource + string :=
  match
    find (λ r, bool_decide (Resource_Version r = version))
         (default [] (rs !! name))
  with
  | Some r => inl r
  | None => inr ("resource not found: " +:+ name +:+ "-" +:+ version)
  end.

(** Modelled from the spec: a record of the vendor manifest is
    (dependency name, version, local vendor path); the version type is the
    collaborator's. *)
Record VendoredModule (V : Type) : Type := {
  ModuleName : string;
  Version_ : V;
Local : Path
}.
Arguments ModuleName {V} _.
Arguments Version_ {V} _.
Arguments Local {V} _.

(** Modelled from the spec: [IsEmpty] holds of the empty text. *)
Definition IsEmpty (s : string) : bool := bool_decide (s = EmptyString).

End Catalogue.
Export Catalogue.

(* ===================================================================== *)
(** * Results, the world and the monad *)
(* ===================================================================== *)

Module Effects.

(** What a Go call comes to: a value, a returned error, or a panic. *)
Inductive result (A : Type) : Type :=
  | Ok (a : A)
  | Err (msg : string)
  | Panic (msg : string).
Arguments Ok {A} _.
Arguments Err {A} _.
Arguments Panic {A} _.

Global Instance result_ret : MRet result := λ A a, Ok a.
Global Instance result_bind : MBind result := λ A B f m,
  match m with
  | Ok a => f a
  | Err e => Err e
  | Panic e => Panic e
  end.

(** Reading a field through a pointer. *)
Definition deref {A : Type} (what : string) (p : option A) : result A :=
  match p with
  | Some a => Ok a
  | None => Panic ("nil pointer dereference: " +:+ what)
  end.

(** Go's [||] and [&&] evaluate the right operand only when needed. *)
Definition orElse (a b : result bool) : result bool :=
  x ← a; if x : bool then Ok true else b.

Definition andAlso (a b : result bool) : result bool :=
  x ← a; if x : bool then b else Ok false.

Inductive Level : Type := Debug | Error.

(** [Fields{...}] of the logger, values printed. *)
Definition Fields : Type := list (string * string).

(** System calls and collaborator calls, in the order they are made. *)
Inductive Event : Type :=
  | EvRemoveAll (p : Path)
  | EvMkdirAll (p : Path)
  | EvRename (old new : Path)
  | EvDownload (url : string) (dir : Path)
  | EvCopyDir (src dst : Path)
  | EvExec (name : string) (args : list string) (env : list string)
           (dir : Path).

(** The [Goup] struct. *)
Record Goup : Type := {
  args : Args;
  config : GoUpConfiguration;
  buildDir : Path;
  resources : Resources;
  env : gmap string string;
  cwd : Path
}.

Record World : Type := {
  goup : Goup;
  fs : node;
  log : list (Level * Fields);
  trace : list Event
}.

Definition M (A : Type) : Type := World → result A * World.

Global Instance M_ret : MRet M := λ A a w, (Ok a, w).
Global Instance M_bind : MBind M := λ A B f m w,
  match m w with
  | (Ok a, w') => f a w'
  | (Err e, w') => (Err e, w')
  | (Panic e, w') => (Panic e, w')
  end.

Definition fail {A : Type} (msg : string) : M A := λ w, (Err msg, w).
Definition panic {A : Type} (msg : string) : M A := λ w, (Panic msg, w).
Definition liftR {A : Type} (r : result A) : M A := λ w, (r, w).

Definition getGoup : M Goup := λ w, (Ok (goup w), w).
Definition getFs : M node := λ w, (Ok (fs w), w).

Definition withGoup (f : Goup → Goup) : M unit := λ w,
  (Ok tt, {| goup := f (goup w); fs := fs w; log := log w;
             trace := trace w |}).
Definition putFs (n : node) : M unit := λ w,
  (Ok tt, {| goup := goup w; fs := n; log := log w; trace := trace w |}).
Definition emit (e : Event) : M unit := λ w,
  (Ok tt, {| goup := goup w; fs := fs w; log := log w;
             trace := trace w ++ [e] |}).
Definition logger (l : Level) (f : Fields) : M unit := λ w,
  (Ok tt, {| goup := goup w; fs := fs w; log := log w ++ [(l, f)];
             trace := trace w |}).

(** [if err != nil { return wrap(err) }]. *)
Definition check (err : option string) (wrap : string → string) : M unit :=
  match err with
  | None => mret tt
  | Some e => fail (wrap e)
  end.

(** [must(err)] panics on an error. *)
Definition must (err : option string) : M unit :=
  match err with
  | None => mret tt
  | Some e => panic e
  end.

Fixpoint forEach {A : Type} (f : A → M unit) (l : list A) : M unit :=
  match l with
  | [] => mret tt
  | x :: l' => f x;; forEach f l'
  end.

Fixpoint foldM {A B : Type} (f : B → A → M B) (b : B) (l : list A) : M B :=
  match l with
  | [] => mret b
  | x :: l' => b' ← f b x; foldM f b' l'
  end.

(** The os calls; each is recorded and returns Go's [error]. *)
Definition os_RemoveAll (p : Path) : M (option string) :=
  emit (EvRemoveAll p);;
  n ← getFs;
  match removeAll p n with
  | Some n' => putFs n';; mret None
  | None => mret (Some ("unlinkat " +:+ String_ p +:+ ": not a directory"))
  end.

Definition os_MkdirAll (p : Path) : M (option string) :=
  emit (EvMkdirAll p);;
  n ← getFs;
  match mkdirAll p n with
  | Some n' => putFs n';; mret None
  | None => mret (Some ("mkdir " +:+ String_ p +:+ ": not a directory"))
  end.

Definition os_Rename (old new : Path) : M (option string) :=
  emit (EvRename old new);;
  n ← getFs;
  match rename old new n with
  | Some n' => putFs n';; mret None
  | None =>
      mret (Some ("rename " +:+ String_ old +:+ " " +:+ String_ new
                  +:+ ": failed"))
  end.

Definition ioutil_ReadDir (p : Path) : M (list (string * node) + string) :=
  n ← getFs;
  match readDir p n with
  | Some files => mret (inl files)
  | None => mret (inr ("open " +:+ String_ p +:+ ": not a directory"))
  end.

Definition pathExists (p : Path) : M bool :=
  n ← getFs; mret (Exists p n).

End Effects.
Export Effects.

(* ===================================================================== *)
(** * Collaborators *)
(* ===================================================================== *)

(** The parts of the program that are not the builder's own: the version
    type of vendored modules with its order, text renderings, the archive
    behind a URL, spawned processes, the directory copy, the parsers of the
    vendor manifest and of go.mod, path resolution, and the order in which
    Go ranges over a map. *)
Class Collaborators : Type := {
  Version : Type;
(** [v.IsNewer(w)] *)
IsNewer : Version → Version → bool;
VersionString : Version → string;
ResourceString : Resource → string;
(** What unpacking the archive at a URL adds to the target directory, and
    the error it ends with, if any. *)
fetchArchive : string → gmap string node * option string;
(** A spawned process: from the binary, its arguments, its environment and
    directory and the file system, to the combined output, the error and
    the file system it leaves. *)
spawn : string → list string → list string → Path → node
        → string * option string * node;
(** [CopyDir(src, dst)] *)
copyDir : Path → Path → node → option string * node;
(** [ParseModulesTxT(file)] *)
parseModulesTxT : Path → node → list (VendoredModule Version) + string;
(** The module line of a go.mod file. *)
parseGoMod : string → option string;
(** [Path(spec).Resolve(base)] *)
resolve : string → Path → Path;
(** The order of [for _, v := range m]. *)
rangeOrder : gmap string (VendoredModule Version)
             → list (VendoredModule Version)
}.

(* ===================================================================== *)
(** * The builder *)
(* ===================================================================== *)

Module Builder.
Section Builder.
Context `{Collaborators}.

Definition newline : ascii := "010"%char.

Definition logger_Debug (f : Fields) : M unit := logger Debug f.
Definition logger_Error (f : Fields) : M unit := logger Error f.

(** setEnv set a key/value environment variable *)
Definition setEnv (key val : string) : M unit :=
  withGoup (λ g, {| args := args g; config := config g;
                    buildDir := buildDir g; resources := resources g;
                    env := <[key := val]> (env g); cwd := cwd g |});;
  logger_Debug [("$export", "env"); (key, val)].

(** goPath returns the artificial goPath *)
Definition goPath (g : Goup) : Path := Child (buildDir g) "go".

(** chdir changes the working directory of the builder *)
Definition chdir (path : Path) : M unit :=
  withGoup (λ g, {| args := args g; config := config g;
                    buildDir := buildDir g; resources := resources g;
                    env := env g; cwd := path |});;
  logger_Debug [("cd", String_ path)].

(** [Run]: the environment map becomes the process environment, the
    command is spawned in [cwd], its combined output is split into lines,
    each line is logged, and lines and error are returned. *)
Definition Run (name : string) (arguments : list string)
  : M (list string * option string) :=
  g ← getGoup;
  let fields := map_to_list (env g) in
  let cmdEnv := (λ kv, kv.1 +:+ "=" +:+ kv.2) <$> fields in
  logger_Debug fields;;
  let tmpCmd := foldl (λ acc a, acc +:+ a +:+ " ") (name +:+ " ") arguments in
  logger_Debug [("exec", tmpCmd)];;
  emit (EvExec name arguments cmdEnv (cwd g));;
  n ← getFs;
  let '(stdoutStderr, err, n') := spawn name arguments cmdEnv (cwd g) n in
  putFs n';;
  let lines := Split stdoutStderr newline in
  forEach (λ line,
             match err with
             | Some _ => logger_Error [("", line)]
             | None => logger_Debug [("", line)]
             end) lines;;
  mret (lines, err).

(** The level at which [Run] logs a captured line: [logger.Error] when
    the invocation returned an error, [logger.Debug] otherwise. *)
Definition severity (err : option string) : Level :=
  match err with Some _ => Error | None => Debug end.

(** hasTargets checks if the target is defined *)
Fixpoint hasTarget_loop (targets : list string) (target : string) : bool :=
  match targets with
  | [] => false
  | s :: rest =>
      if bool_decide (s = target) || bool_decide (s = "all") then true
      else hasTarget_loop rest target
  end.

Definition hasTarget (g : Goup) (target : string) : bool :=
  hasTarget_loop (Args_Targets (args g)) target.

(** [g.config.Build.Gomobile], read through the [Build] pointer. *)
Definition gomobile (g : Goup) : result (option BuildGomobile) :=
  b ← deref "config.Build" (Config_Build (config g));
  Ok (Build_Gomobile b).

Definition notNil {A : Type} (p : option A) : bool :=
  match p with Some _ => true | None => false end.

(** hasAndroidBuild: [Gomobile != nil || Gomobile.Android != nil &&
    hasTarget("gomobile/android")] *)
Definition hasAndroidBuild (g : Goup) : result bool :=
  orElse (p ← gomobile g; Ok (notNil p))
         (andAlso (p ← gomobile g;
                   gm ← deref "config.Build.Gomobile" p;
                   Ok (notNil (Gomobile_Android gm)))
                  (Ok (hasTarget g "gomobile/android"))).

(** hasIosBuild: [Gomobile != nil || Gomobile.Ios != nil &&
    hasTarget("gomobile/ios")] *)
Definition hasIosBuild (g : Goup) : result bool :=
  orElse (p ← gomobile g; Ok (notNil p))
         (andAlso (p ← gomobile g;
                   gm ← deref "config.Build.Gomobile" p;
                   Ok (notNil (Gomobile_Ios gm)))
                  (Ok (hasTarget g "gomobile/ios"))).

(** Modelled from the spec: the archive collaborator downloads and
    extracts into the given directory, and nowhere else. *)
Definition downloadAndUnpack (url : string) (dir : Path) : M (option string) :=
  emit (EvDownload url dir);;
  n ← getFs;
  let '(content, err) := fetchArchive url in
  match lookupPath dir n with
  | Some (Dir es) =>
      match place dir (Dir (content ∪ es)) n with
      | Some n' => putFs n';; mret err
      | None => mret (Some "cannot unpack at the root")
      end
  | _ => mret (Some ("cannot unpack into " +:+ String_ dir))
  end.

(** The toolchain directory of a resource. *)
Definition toolchainDir (g : Goup) (res : Resource) : Path :=
  Child (Child (Args_HomeDir (args g)) "toolchains")
        (Resource_Name res +:+ "-" +:+ Resource_Version res).

(** The body of the loop over the resources in prepareGomobileToolchain. *)
Definition ensureToolchain (res : Resource) : M unit :=
  g ← getGoup;
  let targetFolder := toolchainDir g res in
  present ← pathExists targetFolder;
  if present : bool then
    logger_Debug [("toolchain", ResourceString res); ("status", "exists")]
  else
    let tmpTargetFolder := Suffix targetFolder ".tmp" in
    os_RemoveAll tmpTargetFolder;;
    e ← os_MkdirAll tmpTargetFolder; must e;;
    err ← downloadAndUnpack (Resource_Url res) tmpTargetFolder;
    check err (λ e, "failed to provide resource: " +:+ ResourceString res
                      +:+ ": " +:+ e);;
    r ← ioutil_ReadDir tmpTargetFolder;
    match r with
    | inr e => fail e
    | inl files =>
        if bool_decide (length files = 0) then
          fail ("no files in resource: " +:+ ResourceString res)
        else
          e ← match files with
              | [(name, entry)] =>
                  if IsDir entry
                  then os_Rename (Child tmpTargetFolder name) targetFolder
                  else os_Rename tmpTargetFolder targetFolder
              | _ => os_Rename tmpTargetFolder targetFolder
              end;
          check e id;;
          os_RemoveAll tmpTargetFolder;;
          mret tt
    end.

Definition orDefault (v d : string) : string :=
  if IsEmpty v then d else v.

(** prepareGomobileToolchain downloads go, ndk and sdk *)
Definition prepareGomobileToolchain : M unit :=
  g ← getGoup;
  p ← liftR (gomobile g);
  gm ← liftR (deref "config.Build.Gomobile" p);
  let wrap := λ e, "cannot prepare android build: " +:+ e in
  let goVersion := orDefault (Toolchain_Go (Gomobile_Toolchain gm)) "1.12.4" in
  match Get (resources g) "go" goVersion with
  | inr e => fail (wrap e)
  | inl goRes =>
  let ndkVersion := orDefault (Toolchain_Ndk (Gomobile_Toolchain gm)) "r19c" in
  match Get (resources g) "ndk" ndkVersion with
  | inr e => fail (wrap e)
  | inl ndkRes =>
  android ← liftR (hasAndroidBuild g);
  let sdkVersion := orDefault (Toolchain_Sdk (Gomobile_Toolchain gm)) "433796" in
  match Get (resources g) "sdk" sdkVersion with
  | inr e => fail (wrap e)
  | inl sdkRes =>
  android' ← liftR (hasAndroidBuild g);
  let needed := [goRes] ++ (if android : bool then [ndkRes] else [])
                        ++ (if android' : bool then [sdkRes] else []) in
  forEach ensureToolchain needed;;
  let toolchains := Child (Args_HomeDir (args g)) "toolchains" in
  let goRoot := Child toolchains ("go-" +:+ goVersion) in
  setEnv "GOROOT" (String_ goRoot);;
  setEnv "GOPATH" (String_ (goPath g));;
  g1 ← getGoup;
  setEnv "PATH" (String_ (Child goRoot "bin") +:+ ":"
                 +:+ String_ (Child (goPath g) "bin") +:+ ":"
                 +:+ default "" (env g1 !! "PATH"));;
  e ← os_MkdirAll (goPath g); check e id;;
  Run "which" ["go"];;
  setEnv "ANDROID_NDK_HOME" (String_ (Child toolchains ("ndk-" +:+ ndkVersion)));;
  g2 ← getGoup;
  setEnv "NDK_PATH" (default "" (env g2 !! "ANDROID_NDK_HOME"));;
  setEnv "ANDROID_HOME" (String_ (Child toolchains ("sdk-" +:+ sdkVersion)))
  end end end.

(** [getModuleName(file)]: the module name of a go.mod file. *)
Definition getModuleName (file : Path) : M (string + string) :=
  n ← getFs;
  match readFile file n with
  | None => mret (inr ("open " +:+ String_ file +:+ ": no such file"))
  | Some text =>
      match parseGoMod text with
      | Some name => mret (inl name)
      | None => mret (inr ("no module name in " +:+ String_ file))
      end
  end.

Definition CopyDir (src dst : Path) : M (option string) :=
  emit (EvCopyDir src dst);;
  n ← getFs;
  let '(err, n') := copyDir src dst n in
  putFs n';; mret err.

Definition ParseModulesTxT (file : Path)
  : M (list (VendoredModule Version) + string) :=
  n ← getFs; mret (parseModulesTxT file n).

(** [!ok || mod.Version.IsNewer(dep.Version)] *)
Definition replaces (dependencies : gmap string (VendoredModule Version))
           (mod_ : VendoredModule Version) : bool :=
  match dependencies !! ModuleName mod_ with
  | None => true
  | Some dep => IsNewer (Version_ mod_) (Version_ dep)
  end.

(** One step of the scan over the records of a vendor manifest: upgrade to
    the largest declared version. *)
Definition upgrade (dependencies : gmap string (VendoredModule Version))
           (mod_ : VendoredModule Version)
  : gmap string (VendoredModule Version) :=
  if replaces dependencies mod_
  then <[ModuleName mod_ := mod_]> dependencies
  else dependencies.

(** The order on versions is a strict total order. *)
Definition totalVersionOrder : Prop :=
  (∀ v, IsNewer v v = false)
  ∧ (∀ a b c, IsNewer a b = true → IsNewer b c = true → IsNewer a c = true)
  ∧ (∀ a b, a = b ∨ IsNewer a b = true ∨ IsNewer b a = true).

(** The DependencySet after all records have been scanned, and the version
    it retains for a name. *)
Definition dependencySet (records : list (VendoredModule Version))
  : gmap string (VendoredModule Version) :=
  foldl upgrade ∅ records.

Definition retainedVersion (records : list (VendoredModule Version))
           (name : string) : option Version :=
  Version_ <$> dependencySet records !! name.

Definition collect (dependencies : gmap string (VendoredModule Version))
           (mod_ : VendoredModule Version)
  : M (gmap string (VendoredModule Version)) :=
  logger_Debug [("action", "found"); ("module", ModuleName mod_);
                ("version", VersionString (Version_ mod_))];;
  if replaces dependencies mod_ then
    logger_Debug [("action", "upgrade"); ("module", ModuleName mod_);
                  ("version", VersionString (Version_ mod_))];;
    mret (<[ModuleName mod_ := mod_]> dependencies)
  else mret dependencies.

(** The location of a module or dependency in the workspace source root. *)
Definition workspaceDir (g : Goup) (name : string) : Path :=
  Add (Child (goPath g) "src") (ofString name).

(** The body of the loop over the configured modules. *)
Definition resolveModule
           (acc : gmap string (VendoredModule Version) * list Path)
           (modPath : string)
  : M (gmap string (VendoredModule Version) * list Path) :=
  g ← getGoup;
  let local := resolve modPath (Args_BaseDir (args g)) in
  present ← pathExists local;
  resolvedPath ←
    (if present : bool then mret local
     else
       r ← Run "go" ["get"; modPath];
       check r.2 id;;
       mret (Add (Child (Child (goPath g) "pkg") "mod") (ofString modPath)));
  logger_Debug [("action", "processing"); ("path", String_ resolvedPath)];;
  let resolvedLocalModulePaths := acc.2 ++ [resolvedPath] in
  nm ← getModuleName (Child resolvedPath "go.mod");
  match nm with
  | inr e =>
      fail ("expected '" +:+ String_ resolvedPath
            +:+ "' to have a go.mod file. This is not a go module: " +:+ e)
  | inl modName =>
      logger_Debug [("name", modName)];;
      let targetDir := workspaceDir g modName in
      logger_Debug [("action", "removing"); ("path", String_ targetDir)];;
      e ← os_RemoveAll targetDir;
      check e (λ e, "failed to clear directory " +:+ String_ targetDir
                      +:+ ": " +:+ e);;
      logger_Debug [("action", "copying"); ("path", String_ targetDir)];;
      e ← CopyDir resolvedPath targetDir;
      check e (λ e, "failed to copy directory " +:+ String_ targetDir
                      +:+ ": " +:+ e);;
      chdir targetDir;;
      r ← Run "go" ["mod"; "vendor"];
      check r.2 (λ e, "failed to vendor module dependencies: " +:+ e);;
      ms ← ParseModulesTxT (Child (Child targetDir "vendor") "modules.txt");
      match ms with
      | inr e => fail ("failed to parse vendor module information: " +:+ e)
      | inl modules =>
          dependencies ← foldM collect acc.1 modules;
          mret (dependencies, resolvedLocalModulePaths)
      end
  end.

(** The body of the promote loop: the dependency is moved from the vendor
    tree to the workspace. *)
Definition promote (dep : VendoredModule Version) : M unit :=
  g ← getGoup;
  let targetDir := workspaceDir g (ModuleName dep) in
  e ← os_RemoveAll (Parent targetDir);
  check e (λ e, "failed to remove module target directory: " +:+ e);;
  e ← os_MkdirAll (Parent targetDir);
  check e (λ e, "failed to create module target directory: " +:+ e);;
  logger_Debug [("action", "move"); ("from", String_ (Local dep));
                ("to", String_ targetDir)];;
  e ← os_Rename (Local dep) targetDir;
  check e (λ e, "failed to move: " +:+ String_ (Local dep) +:+ "->"
                  +:+ String_ targetDir +:+ ": " +:+ e).

(** The vendor directory of a promoted module. *)
Definition vendorDir (g : Goup) (modName : string) : Path :=
  Add (workspaceDir g modName) ["vendor"].

(** The body of the cleanup loop: the vendor directory of a copied module
    is removed. *)
Definition clearVendor (resolvedPath : Path) : M unit :=
  g ← getGoup;
  nm ← getModuleName (Child resolvedPath "go.mod");
  match nm with
  | inr e => panic e
  | inl modName =>
      let targetDir := vendorDir g modName in
      logger_Debug [("action", "remove"); ("file", String_ targetDir)];;
      e ← os_RemoveAll targetDir;
      check e (λ e, "failed to remove: " +:+ String_ targetDir
                      +:+ ": " +:+ e)
  end.

(** The first loop of copyModulesToWorkspace, with what precedes it. *)
Definition resolveModules
  : M (gmap string (VendoredModule Version) * list Path) :=
  g ← getGoup;
  chdir (goPath g);;
  setEnv "GO111MODULE" "on";;
  p ← liftR (gomobile g);
  gm ← liftR (deref "config.Build.Gomobile" p);
  foldM resolveModule (∅, []) (Gomobile_Modules gm).

(** copyModulesToWorkspace: evaluates all module dependencies, collects
    them and moves the maximum resolved version into the workspace. *)
Definition copyModulesToWorkspace : M unit :=
  r ← resolveModules;
  forEach promote (rangeOrder r.1);;
  forEach clearVendor r.2.

End Builder.
End Builder.
Export Builder.

(* ===================================================================== *)
(** * The catalog snapshot and its refresh *)
(* ===================================================================== *)

Module Snapshot.

(** Times are nanoseconds on the wall clock; a [time.Duration] is a signed
    64-bit count of nanoseconds. *)
Definition Hour : Z := (3600 * 1000000000)%Z.
Definition minDuration : Z := (- 2 ^ 63)%Z.
Definition maxDuration : Z := (2 ^ 63 - 1)%Z.

(** [t.Sub(u)]: the difference, saturated to the range of a duration. *)
Definition Sub (t u : Z) : Z :=
  Z.max minDuration (Z.min maxDuration (t - u)%Z).

(** [d.Hours() > 24].  [Hours] is the float64
    [float64(d / Hour) + float64(d % Hour) / 3.6e12]; both summands are
    exact or correctly rounded and far from the spacing of float64 near 24,
    so the comparison holds exactly when [d] exceeds 24 hours in
    nanoseconds. *)
Definition moreThan24Hours (d : Z) : bool := (24 * Hour <? d)%Z.

(** The snapshot file ~/.goup/resources.xml. *)
Record FileState : Type := {
  ModTime : Z;
  Content : string
}.

(** What the refresh does to the outside, in order. *)
Inductive Call : Type :=
  | OsRemove
  | HttpGet (url : string)
  | WriteFile (data : string).

(** The answer of the network: [http.Get] fails, reading the body fails,
    or the body arrives. *)
Inductive Response : Type :=
  | GetError (e : string)
  | BodyError (e : string)
  | Body (data : string).

(** A write either succeeds or fails, leaving whatever it leaves. *)
Inductive WriteOutcome : Type :=
  | Written
  | WriteFailed (e : string) (leftover : option FileState).

Record Disk : Type := {
  snapshot : option FileState;
  calls : list Call;
  messages : list (Level * Fields)
}.

Section Refresh.
(** The clock, the network, the disk's answer to a write, and
    [Resources.Load] on the content of the file. *)
Variable now : Z.
Variable httpGet : string → Response.
Variable diskWrite : string → WriteOutcome.
Variable parseResources : string → Resources + string.

Definition say (f : Fields) (d : Disk) : Disk :=
  {| snapshot := snapshot d; calls := calls d;
     messages := messages d ++ [(Debug, f)] |}.

Definition call (c : Call) (s : option FileState) (d : Disk) : Disk :=
  {| snapshot := s; calls := calls d ++ [c]; messages := messages d |}.

(** [err != nil || time.Now().Sub(stat.ModTime()).Hours() > 24] *)
Definition needsRefresh (d : Disk) : bool :=
  match snapshot d with
  | None => true
  | Some st => moreThan24Hours (Sub now (ModTime st))
  end.

(** [res.Load(file)] *)
Definition Load (file : string) (d : Disk) : (Resources + string) * Disk :=
  let d := say [("action", "parsing"); ("file", file)] d in
  match snapshot d with
  | None => (inr ("failed to load resources: open " +:+ file), d)
  | Some st =>
      match parseResources (Content st) with
      | inl rs => (inl rs, d)
      | inr e => (inr ("failed to load resources: " +:+ e), d)
      end
  end.

(** loadResources only updates once a day or if the snapshot is missing *)
Definition loadResources (a : Args) (d : Disk) : (Resources + string) * Disk :=
  let file := String_ (Child (Args_HomeDir a) "resources.xml") in
  if needsRefresh d then
    let d := say [("action", "downloading"); ("url", Args_ResourcesUrl a)] d in
    let d := call OsRemove None d in
    let d := call (HttpGet (Args_ResourcesUrl a)) (snapshot d) d in
    match httpGet (Args_ResourcesUrl a) with
    | GetError e => (inr ("failed to get resource list: " +:+ e), d)
    | BodyError e => (inr ("failed to download resource list: " +:+ e), d)
    | Body data =>
        match diskWrite data with
        | WriteFailed e leftover =>
            (inr ("failed to save resource list: " +:+ e),
             call (WriteFile data) leftover d)
        | Written =>
            let d := call (WriteFile data)
                          (Some {| ModTime := now; Content := data |}) d in
            let d := say [("action", "updated"); ("file", file)] d in
            Load file d
        end
    end
  else Load file d.

End Refresh.

(** The number of network fetches among the calls. *)
Fixpoint fetches (cs : list Call) : nat :=
  match cs with
  | [] => 0
  | HttpGet _ :: rest => S (fetches rest)
  | _ :: rest => fetches rest
  end.

End Snapshot.

(* ===================================================================== *)
(** * A sample project *)
(* ===================================================================== *)

(** Concrete collaborators and a concrete project, on which the program is
    run: a dependency [pkg/x] declared at 1.0.0 by module [a] and at 1.2.0
    by module [b], a module [c] with two dependencies in one parent
    directory, and three archives (one directory at the top, several
    entries at the top, nothing at all). *)
Module Sample.

(** Versions major.minor.patch, compared in that order. *)
Definition semver : Type := nat * nat * nat.

Definition newer (a b : semver) : bool :=
  let '(a1, a2, a3) := a in
  let '(b1, b2, b3) := b in
  (b1 <? a1)
  || ((a1 =? b1) && ((b2 <? a2) || ((a2 =? b2) && (b3 <? a3)))).

Definition goTree : gmap string node :=
  {[ "VERSION" := File "go1.12.4";
     "bin" := Dir {[ "go" := File "ELF" ]} ]}.

Definition sdkTree : gmap string node :=
  {[ "tools" := Dir ∅; "licenses" := File "accepted" ]}.

Definition archive (url : string) : gmap string node * option string :=
  if bool_decide (url = "https://dl.example.org/go1.12.4.tar.gz")
  then ({[ "go" := Dir goTree ]}, None)
  else if bool_decide (url = "https://dl.example.org/sdk-433796.zip")
  then (sdkTree, None)
  else if bool_decide (url = "https://dl.example.org/ndk-r19c.zip")
  then (∅, None)
  else (∅, Some "404 Not Found").

Fixpoint stripPrefix (pre s : string) : option string :=
  match pre with
  | EmptyString => Some s
  | String c pre' =>
      match s with
      | String d s' => if decide (c = d) then stripPrefix pre' s' else None
      | EmptyString => None
      end
  end.

Definition goMod (text : string) : option string :=
  stripPrefix "module " text.

Definition xTree (v : string) : node :=
  Dir {[ "x.go" := File ("package x // " +:+ v) ]}.

(** What [go mod vendor] leaves in the module at the working directory. *)
Definition vendorOf (manifest : string) : option node :=
  if bool_decide (manifest = "module example.com/a")
  then Some (Dir {[ "modules.txt" := File "# pkg/x v1.0.0";
                    "pkg" := Dir {[ "x" := xTree "v1.0.0" ]} ]})
  else if bool_decide (manifest = "module example.com/b")
  then Some (Dir {[ "modules.txt" := File "# pkg/x v1.2.0";
                    "pkg" := Dir {[ "x" := xTree "v1.2.0" ]} ]})
  else if bool_decide (manifest = "module example.com/c")
  then Some (Dir {[ "modules.txt" := File "# golang.org/x/sys v0.1.0 # golang.org/x/text v0.3.0";
                    "golang.org" := Dir {[ "x" := Dir
                      {[ "sys" := Dir {[ "unix.go" := File "package unix" ]};
                         "text" := Dir {[ "doc.go" := File "package text" ]}
                      ]} ]} ]})
  else None.

Definition process (name : string) (arguments : list string)
           (environment : list string) (dir : Path) (n : node)
  : string * option string * node :=
  if bool_decide (name = "go" ∧ arguments = ["mod"; "vendor"]) then
    match readFile (Child dir "go.mod") n ≫= vendorOf with
    | Some tree =>
        match place (Child dir "vendor") tree n with
        | Some n' => ("go: vendoring", None, n')
        | None => ("go: cannot write vendor", Some "exit status 1", n)
        end
    | None => ("go: cannot find main module", Some "exit status 1", n)
    end
  else (EmptyString, None, n).

Definition copyTree (src dst : Path) (n : node) : option string * node :=
  match lookupPath src n with
  | Some tree =>
      match mkdirAll (Parent dst) n ≫= place dst tree with
      | Some n' => (None, n')
      | None => (Some "cannot create the destination", n)
      end
  | None => (Some "no such directory", n)
  end.

Definition manifestRecords (file : Path) (n : node)
  : list (VendoredModule semver) + string :=
  match readFile file n with
  | Some text =>
      if bool_decide (text = "# pkg/x v1.0.0") then
        inl [{| ModuleName := "pkg/x"; Version_ := (1, 0, 0);
                Local := Add (Parent file) ["pkg"; "x"] |}]
      else if bool_decide (text = "# pkg/x v1.2.0") then
        inl [{| ModuleName := "pkg/x"; Version_ := (1, 2, 0);
                Local := Add (Parent file) ["pkg"; "x"] |}]
      else if bool_decide
                (text = "# golang.org/x/sys v0.1.0 # golang.org/x/text v0.3.0")
      then
        inl [{| ModuleName := "golang.org/x/sys"; Version_ := (0, 1, 0);
                Local := Add (Parent file) ["golang.org"; "x"; "sys"] |};
             {| ModuleName := "golang.org/x/text"; Version_ := (0, 3, 0);
                Local := Add (Parent file) ["golang.org"; "x"; "text"] |}]
      else inr "malformed line"
  | None => inr "no such file"
  end.

Global Instance collaborators : Collaborators := {|
  Version := semver;
  IsNewer := newer;
  VersionString := λ _, "v";
  ResourceString := λ r, Resource_Name r +:+ "-" +:+ Resource_Version r;
  fetchArchive := archive;
  spawn := process;
  copyDir := copyTree;
  parseModulesTxT := manifestRecords;
  parseGoMod := goMod;
  resolve := λ spec base, Add base (ofString spec);
  rangeOrder := λ m, (map_to_list m).*2
|}.

Definition goRes : Resource :=
  {| Resource_Name := "go"; Resource_Version := "1.12.4";
     Resource_Url := "https://dl.example.org/go1.12.4.tar.gz" |}.
Definition ndkRes : Resource :=
  {| Resource_Name := "ndk"; Resource_Version := "r19c";
     Resource_Url := "https://dl.example.org/ndk-r19c.zip" |}.
Definition sdkRes : Resource :=
  {| Resource_Name := "sdk"; Resource_Version := "433796";
     Resource_Url := "https://dl.example.org/sdk-433796.zip" |}.

Definition catalog : Resources :=
  {[ "go" := [goRes]; "ndk" := [ndkRes]; "sdk" := [sdkRes] ]}.

Definition arguments : Args :=
  {| Args_BuildFile := ["work"; "goup.yaml"];
     Args_BaseDir := ["work"];
     Args_HomeDir := ["home"; ".goup"];
     Args_ResourcesUrl := "https://dl.example.org/resources.xml";
     Args_Targets := ["gomobile/android"];
     Args_ClearWorkspace := false |}.

Definition sectionOf (modules : list string) : BuildGomobile :=
  {| Gomobile_Toolchain :=
       {| Toolchain_Go := ""; Toolchain_Ndk := ""; Toolchain_Sdk := "" |};
     Gomobile_Ios := None;
     Gomobile_Android := None;
     Gomobile_Modules := modules;
     Gomobile_Export := ["example.com/a"] |}.

Definition section : BuildGomobile := sectionOf ["a"; "b"].

Definition withSection (s : option BuildGomobile) : Goup :=
  {| args := arguments;
     config := {| Config_Name := "demo";
                  Config_Build := Some {| Build_Gomobile := s |} |};
     buildDir := ["home"; ".goup"; "demo"];
     resources := catalog;
     env := {[ "PATH" := "/usr/bin" ]};
     cwd := ["work"] |}.

Definition builder : Goup := withSection (Some section).

Definition moduleTree (name : string) : node :=
  Dir {[ "go.mod" := File ("module example.com/" +:+ name);
         "main.go" := File ("package " +:+ name) ]}.

Definition disk : node :=
  Dir {[ "home" := Dir {[ ".goup" := Dir {[ "demo" := Dir ∅ ]} ]};
         "work" := Dir {[ "a" := moduleTree "a"; "b" := moduleTree "b";
                          "c" := moduleTree "c" ]} ]}.

Definition world : World :=
  {| goup := builder; fs := disk; log := []; trace := [] |}.

(** The same project with the one module [c], which declares two
    dependencies that share their parent directory. *)
Definition siblings : World :=
  {| goup := withSection (Some (sectionOf ["c"])); fs := disk; log := [];
     trace := [] |}.

(** The world after the go toolchain has been provisioned. *)
Definition provisioned : World := (ensureToolchain goRes world).2.

(** Two dependencies that share their parent directory, in the vendor
    tree of a copied module. *)
Definition sys : VendoredModule semver :=
  {| ModuleName := "golang.org/x/sys"; Version_ := (0, 1, 0);
     Local := ["home"; ".goup"; "demo"; "go"; "src"; "example.com"; "a";
               "vendor"; "golang.org"; "x"; "sys"] |}.
Definition text : VendoredModule semver :=
  {| ModuleName := "golang.org/x/text"; Version_ := (0, 3, 0);
     Local := ["home"; ".goup"; "demo"; "go"; "src"; "example.com"; "a";
               "vendor"; "golang.org"; "x"; "text"] |}.

Definition vendored : node :=
  Dir {[ "home" := Dir {[ ".goup" := Dir {[ "demo" := Dir {[ "go" :=
    Dir {[ "src" := Dir {[ "example.com" := Dir {[ "a" :=
      Dir {[ "go.mod" := File "module example.com/a";
             "vendor" := Dir {[ "golang.org" := Dir {[ "x" :=
               Dir {[ "sys" := Dir {[ "unix.go" := File "package unix" ]};
                      "text" := Dir {[ "doc.go" := File "package text" ]}
                   ]} ]} ]} ]} ]} ]} ]} ]} ]} ]} ]}.

Definition assembling : World :=
  {| goup := builder; fs := vendored; log := []; trace := [] |}.

Definition workspace (name : list string) : Path :=
  ["home"; ".goup"; "demo"; "go"; "src"] ++ name.

(** The snapshot file, three days old, one hour old. *)
Definition day : Z := (24 * Snapshot.Hour)%Z.
Definition clock : Z := (1000 * day)%Z.

Definition staleDisk : Snapshot.Disk :=
  {| Snapshot.snapshot :=
       Some {| Snapshot.ModTime := (clock - 3 * day)%Z;
               Snapshot.Content := "old" |};
     Snapshot.calls := []; Snapshot.messages := [] |}.

Definition freshDisk : Snapshot.Disk :=
  {| Snapshot.snapshot :=
       Some {| Snapshot.ModTime := (clock - Snapshot.Hour)%Z;
               Snapshot.Content := "recent" |};
     Snapshot.calls := []; Snapshot.messages := [] |}.

Definition reachable (url : string) : Snapshot.Response :=
  Snapshot.Body "new".
Definition unreachable (url : string) : Snapshot.Response :=
  Snapshot.GetError "dial tcp: no route to host".

Definition noCatalog (text : string) : Resources + string := inl catalog.

End Sample.

(* ===================================================================== *)
(** * The rest of the builder *)
(* ===================================================================== *)

Module Pipeline.
Section Pipeline.
Context `{Collaborators}.

Definition equals : ascii := "="%char.

(** The loop of NewGoup over [os.Environ()]: the map starts empty, each
    entry is split at every "=", and the first two pieces are the key and
    the value ([pair[1]] panics when there is no second piece). *)
Definition NewGoup_environ (environ : list string) : M unit :=
  withGoup (λ g, {| args := args g; config := config g;
                    buildDir := buildDir g; resources := resources g;
                    env := ∅; cwd := cwd g |});;
  forEach (λ e,
             match Split e equals with
             | key :: val :: _ => setEnv key val
             | _ => panic "index out of range [1] with length 1"
             end) environ.

(** The directories of NewGoup: the build directory is the child of the
    home directory named after the project; it is removed first when the
    workspace is to be cleared; then the base, home and build directories
    are made, each under [must]. *)
Definition NewGoup_directories : M unit :=
  g ← getGoup;
  let dir := Child (Args_HomeDir (args g)) (Config_Name (config g)) in
  withGoup (λ g, {| args := args g; config := config g;
                    buildDir := dir; resources := resources g;
                    env := env g; cwd := cwd g |});;
  logger_Debug [("buildDir", String_ dir)];;
  (if Args_ClearWorkspace (args g) then
     logger_Debug [("action", "delete"); ("path", String_ dir)];;
     e ← os_RemoveAll dir; check e id
   else mret tt);;
  e ← os_MkdirAll (Args_BaseDir (args g)); must e;;
  e ← os_MkdirAll (Args_HomeDir (args g)); must e;;
  e ← os_MkdirAll dir; must e.

(** chmodX invokes chmod +x *)
Definition chmodX (path : Path) : M unit :=
  r ← Run "chmod" ["+x"; String_ path];
  check r.2 id.

(** prepareGomobile installs gomobile into the gopath, if required *)
Definition prepareGomobile : M unit :=
  g ← getGoup;
  present ← pathExists (Child (Child (goPath g) "bin") "gomobile");
  if present : bool then mret tt
  else
    chdir (goPath g);;
    setEnv "GO111MODULE" "off";;
    logger_Debug [("action", "installing gomobile")];;
    r ← Run "go" ["get"; "-u"; "golang.org/x/mobile/cmd/gomobile"];
    check r.2 (λ e, "failed to install gomobile: " +:+ e);;
    r ← Run "bin/gomobile" ["version"];
    check r.2 (λ e, "failed to invoke gomobile: " +:+ e);;
    r ← Run "bin/gomobile" ["init"];
    check r.2 (λ e, "failed to init gomobile: " +:+ e).

(** [p.Resolve(base)] for a path that is held as its segments: the
    collaborator is given the text of the path. *)
Definition resolvePath (p base : Path) : Path := resolve (Join p slash) base.

(** The section [g.config.Build.Gomobile], read through both pointers. *)
Definition section (g : Goup) : result BuildGomobile :=
  p ← gomobile g; deref "config.Build.Gomobile" p.

(** The arguments of [gomobile bind] for android. *)
Definition androidArguments (g : Goup) (gm : BuildGomobile) (a : Android)
  : list string :=
  ["bind"; "-v"]
    ++ ["-o"; String_ (resolvePath (Android_Out a) (Args_BaseDir (args g)))]
    ++ (if 0 <? String.length (Android_Javapkg a)
        then ["-javapkg"; Android_Javapkg a] else [])
    ++ ["-target=android"]
    ++ Gomobile_Export gm.

(** [Ios.Out], with its default when it is empty. *)
Definition iosOut (g : Goup) (i : Ios) : Path :=
  if bool_decide (Ios_Out i = [])
  then ofString ("./" +:+ Config_Name (config g) +:+ ".framework")
  else Ios_Out i.

(** The arguments of [gomobile bind] for ios. *)
Definition iosArguments (g : Goup) (gm : BuildGomobile) (i : Ios)
  : list string :=
  ["bind"; "-v"]
    ++ ["-o"; String_ (resolvePath (iosOut g i) (Args_BaseDir (args g)))]
    ++ (if 0 <? String.length (Ios_Prefix i)
        then ["-prefix"; Ios_Prefix i] else [])
    ++ ["-target=ios"]
    ++ Gomobile_Export gm.

(** [g.config.Build.Gomobile.Ios.Out = out]: the configuration is reached
    through pointers, so the assignment stays. *)
Definition setIosOut (out : Path) (g : Goup) : Goup :=
  {| args := args g;
     config :=
       {| Config_Name := Config_Name (config g);
          Config_Build :=
            (λ b, {| Build_Gomobile :=
                       (λ gm, {| Gomobile_Toolchain := Gomobile_Toolchain gm;
                                 Gomobile_Ios :=
                                   (λ i, {| Ios_Prefix := Ios_Prefix i;
                                            Ios_Out := out;
                                            Ios_Bundleid := Ios_Bundleid i;
                                            Ios_Ldflags := Ios_Ldflags i;
                                            Ios_Disabled := Ios_Disabled i |})
                                     <$> Gomobile_Ios gm;
                                 Gomobile_Android := Gomobile_Android gm;
                                 Gomobile_Modules := Gomobile_Modules gm;
                                 Gomobile_Export := Gomobile_Export gm |})
                         <$> Build_Gomobile b |})
              <$> Config_Build (config g) |};
     buildDir := buildDir g; resources := resources g;
     env := env g; cwd := cwd g |}.

(** compileGomobile: the android build, then the ios build, each when its
    predicate holds. *)
Definition compileGomobile : M unit :=
  logger_Debug [("action", "compiling gomobile")];;
  g0 ← getGoup;
  chdir (goPath g0);;
  setEnv "GO111MODULE" "off";;
  g ← getGoup;
  android ← liftR (hasAndroidBuild g);
  (if android : bool then
     gm ← liftR (section g);
     a ← liftR (deref "config.Build.Gomobile.Android" (Gomobile_Android gm));
     r ← Run "bin/gomobile" (androidArguments g gm a);
     check r.2 id
   else mret tt);;
  g ← getGoup;
  ios ← liftR (hasIosBuild g);
  if ios : bool then
    gm ← liftR (section g);
    i ← liftR (deref "config.Build.Gomobile.Ios" (Gomobile_Ios gm));
    (if bool_decide (Ios_Out i = [])
     then withGoup (setIosOut (iosOut g i))
     else mret tt);;
    r ← Run "bin/gomobile" (iosArguments g gm i);
    check r.2 id
  else mret tt.

(** [if err != nil { return wrap(err) }] around a whole stage. *)
Definition wrapping {A : Type} (wrap : string → string) (m : M A) : M A :=
  λ w, match m w with
       | (Err e, w') => (Err (wrap e), w')
       | other => other
       end.

(** Build performs the actual build process *)
Definition Goup_Build : M unit :=
  wrapping (λ e, "failed to prepare gomobile build: " +:+ e)
           prepareGomobileToolchain;;
  prepareGomobile;;
  copyModulesToWorkspace;;
  compileGomobile.

(** ** Relations between the world before and after a computation *)

(** Every run of [m] relates the world it starts in to the world it ends
    in by [R], whatever the result. *)
Definition respects {A : Type} (R : World → World → Prop) (m : M A) : Prop :=
  ∀ w r w', m w = (r, w') → R w w'.

(** The [Goup] struct is as it was. *)
Definition sameGoup (w w' : World) : Prop := goup w' = goup w.

(** The arguments, the configuration, the build directory and the
    resources are as they were. *)
Definition sameSetup (w w' : World) : Prop :=
  args (goup w') = args (goup w)
  ∧ config (goup w') = config (goup w)
  ∧ buildDir (goup w') = buildDir (goup w)
  ∧ resources (goup w') = resources (goup w).

(** The process environment that [Run] makes of an environment map. *)
Definition processEnv (e : gmap string string) : list string :=
  (λ kv, kv.1 +:+ "=" +:+ kv.2) <$> map_to_list e.

Definition isExec (e : Event) : bool :=
  match e with EvExec _ _ _ _ => true | _ => false end.

Definition isRename (e : Event) : bool :=
  match e with EvRename _ _ => true | _ => false end.

(** The processes spawned, in order, with their environment and
    directory. *)
Definition spawned (t : list Event) : list Event :=
  filter (λ e, isExec e = true) t.

(** The renames made, in order. *)
Definition renamed (t : list Event) : list Event :=
  filter (λ e, isRename e = true) t.

(** The trace has only grown. *)
Definition traceGrows (w w' : World) : Prop :=
  ∃ more, trace w' = trace w ++ more.

(** The trace has grown, and by no rename. *)
Definition noRename (w w' : World) : Prop :=
  ∃ more, trace w' = trace w ++ more ∧ renamed more = [].

(** The environment map is as it was, the trace has grown, and every
    process spawned meanwhile had that map as its environment. *)
Definition spawnsUnder (w w' : World) : Prop :=
  env (goup w') = env (goup w)
  ∧ ∃ more, trace w' = trace w ++ more
            ∧ ∀ name arguments e dir,
                EvExec name arguments e dir ∈ more →
                e = processEnv (env (goup w)).

(** What is at [q] is as it was. *)
Definition keeps (q : Path) (w w' : World) : Prop :=
  lookupPath q (fs w') = lookupPath q (fs w).

(** The move of a dependency that promote makes. *)
Definition promotion (g : Goup) (dep : VendoredModule Version) : Event :=
  EvRename (Local dep) (workspaceDir g (ModuleName dep)).

End Pipeline.
End Pipeline.
Export Pipeline.

(* ===================================================================== *)
(** * The sample project, with both builds *)
(* ===================================================================== *)

Module Sample2.

Definition androidSection : Android :=
  {| Android_Javapkg := "org.example";
     Android_Out := ["build"; "demo.aar"];
     Android_Ldflags := "" |}.

Definition iosSection : Ios :=
  {| Ios_Prefix := "";
     Ios_Out := [];
     Ios_Bundleid := "";
     Ios_Ldflags := "";
     Ios_Disabled := false |}.

(** The gomobile section of the sample project, with an android and an
    ios section; the output of the ios build is left to its default. *)
Definition both : BuildGomobile :=
  {| Gomobile_Toolchain :=
       {| Toolchain_Go := ""; Toolchain_Ndk := ""; Toolchain_Sdk := "" |};
     Gomobile_Ios := Some iosSection;
     Gomobile_Android := Some androidSection;
     Gomobile_Modules := ["a"; "b"];
     Gomobile_Export := ["example.com/a"] |}.

(** The same with the android section alone. *)
Definition androidOnly : BuildGomobile :=
  {| Gomobile_Toolchain := Gomobile_Toolchain both;
     Gomobile_Ios := None;
     Gomobile_Android := Some androidSection;
     Gomobile_Modules := ["a"; "b"];
     Gomobile_Export := ["example.com/a"] |}.

(** The disk of the sample project with the ndk toolchain in place (its
    archive in the sample unpacks to nothing). *)
Definition readyDisk : node :=
  default Sample.disk
          (mkdirAll ["home"; ".goup"; "toolchains"; "ndk-r19c"] Sample.disk).

Definition ready : World :=
  {| goup := Sample.withSection (Some both); fs := readyDisk; log := [];
     trace := [] |}.

Definition readyAndroidOnly : World :=
  {| goup := Sample.withSection (Some androidOnly); fs := readyDisk;
     log := []; trace := [] |}.

(** The sample project on its disk, without an ios and android section. *)
Definition bare : World :=
  {| goup := Sample.builder; fs := readyDisk; log := []; trace := [] |}.

(** An environment as [os.Environ()] gives it. *)
Definition environ : list string :=
  ["HOME=/home/dev"; "OPTS=-x=1"; "PATH=/usr/bin:/bin"; "HOME=/root"].

(** The sample project asking for a go version that the catalog does not
    have. *)
Definition unknownGo : World :=
  {| goup :=
       Sample.withSection
         (Some {| Gomobile_Toolchain :=
                    {| Toolchain_Go := "1.13"; Toolchain_Ndk := "";
                       Toolchain_Sdk := "" |};
                  Gomobile_Ios := Some iosSection;
                  Gomobile_Android := Some androidSection;
                  Gomobile_Modules := ["a"; "b"];
                  Gomobile_Export := [] |});
     fs := readyDisk; log := []; trace := [] |}.

(** The sample project without a gomobile section. *)
Definition sectionless : World :=
  {| goup := Sample.withSection None; fs := readyDisk; log := [];
     trace := [] |}.

(** A catalog that does not parse. *)
Definition noParse (text : string) : Resources + string :=
  inr "unexpected end of input".

(** A project that is to start from a cleared workspace. *)
Definition clearing : World :=
  {| goup :=
       {| args := {| Args_BuildFile := ["work"; "goup.yaml"];
                     Args_BaseDir := ["work"];
                     Args_HomeDir := ["home"; ".goup"];
                     Args_ResourcesUrl := "";
                     Args_Targets := [];
                     Args_ClearWorkspace := true |};
          config := config Sample.builder;
          buildDir := [];
          resources := ∅;
          env := ∅;
          cwd := [] |};
     fs := (copyModulesToWorkspace Sample.world).2.(fs);
     log := []; trace := [] |}.

End Sample2.

(* ===================================================================== *)
(** * Facts about lines and paths *)
(* ===================================================================== *)

Module TextFacts.

Lemma Split_nonempty s sep : Split s sep ≠ [].
Proof.
  destruct s as [|c s]; simpl; [done|].
  case_decide; [done|]. by destruct (Split s sep).
Qed.

(** Joining the lines of a text gives the text back. *)
Lemma Join_Split s sep : Join (Split s sep) sep = s.
Proof.
  induction s as [|c s IH]; simpl; [done|].
  case_decide as Hc.
  - subst c. pose proof (Split_nonempty s sep) as Hne.
    destruct (Split s sep) as [|l ls] eqn:E; [done|].
    change (String sep (Join (l :: ls) sep) = String sep s).
    by rewrite IH.
  - pose proof (Split_nonempty s sep) as Hne.
    destruct (Split s sep) as [|l ls] eqn:E; [done|].
    destruct ls as [|l' ls].
    + simpl in *. by rewrite IH.
    + change (String c (l +:+ String sep (Join (l' :: ls) sep)) = String c s).
      f_equal. exact IH.
Qed.

Lemma append_empty_r s : s +:+ "" = s.
Proof.
  induction s as [|c s IH]; [done|].
  change (String c (s +:+ "") = String c s). by rewrite IH.
Qed.

(** A name and the name with a suffix differ. *)
Lemma append_neq s t : t ≠ "" → s +:+ t ≠ s.
Proof.
  intros Ht Heq. apply Ht.
  rewrite <- (append_empty_r s) in Heq at 2.
  by apply (inj (String.append s)) in Heq.
Qed.

End TextFacts.

(* ===================================================================== *)
(** * The build predicates *)
(* ===================================================================== *)

Module PredicateFacts.
Section Facts.
Context `{Collaborators}.

(** C3. Whenever the gomobile build section is present, hasAndroidBuild and
    hasIosBuild return true, whatever the android and ios sub-sections and
    the selected targets are: the left operand of [||] decides. *)
Theorem hasBuild_section_present (g : Goup) (b : Build) (gm : BuildGomobile) :
  Config_Build (config g) = Some b →
  Build_Gomobile b = Some gm →
  hasAndroidBuild g = Ok true ∧ hasIosBuild g = Ok true.
Proof.
  intros Hb Hgm. unfold hasAndroidBuild, hasIosBuild, gomobile.
  rewrite Hb. cbn. rewrite Hgm. by cbn.
Qed.

(** C4. hasAndroidBuild and hasIosBuild return a value exactly when the
    gomobile section is present; when it is nil the right operand of [||]
    is evaluated and its read of [Gomobile.Android] / [Gomobile.Ios]
    dereferences the nil pointer, so both panic instead of returning
    false. *)
Theorem hasBuild_section_nil (g : Goup) :
  ((∃ v, hasAndroidBuild g = Ok v) ↔
     ∃ b gm, Config_Build (config g) = Some b ∧ Build_Gomobile b = Some gm)
  ∧ ((∃ v, hasIosBuild g = Ok v) ↔
     ∃ b gm, Config_Build (config g) = Some b ∧ Build_Gomobile b = Some gm)
  ∧ (∀ b, Config_Build (config g) = Some b → Build_Gomobile b = None →
       hasAndroidBuild g
         = Panic "nil pointer dereference: config.Build.Gomobile"
       ∧ hasIosBuild g
         = Panic "nil pointer dereference: config.Build.Gomobile")
  ∧ (Config_Build (config g) = None →
       hasAndroidBuild g = Panic "nil pointer dereference: config.Build"
       ∧ hasIosBuild g = Panic "nil pointer dereference: config.Build").
Proof.
  unfold hasAndroidBuild, hasIosBuild, gomobile.
  destruct (Config_Build (config g)) as [b|] eqn:Hb; cbn;
    [destruct (Build_Gomobile b) as [gm|] eqn:Hgm; cbn|];
    repeat split; intros; repeat match goal with
      | E : ∃ _, _ |- _ => destruct E
      | E : _ ∧ _ |- _ => destruct E
      end; simplify_eq; eauto.
Qed.

End Facts.
End PredicateFacts.

(* ===================================================================== *)
(** * Running a process *)
(* ===================================================================== *)

Module RunFacts.
Section Facts.
Context `{Collaborators}.

Lemma forEach_logger (lvl : Level) (lines : list string) (w : World) :
  forEach (λ line, logger lvl [("", line)]) lines w
  = (Ok tt, {| goup := goup w; fs := fs w;
               log := log w ++ ((λ l, (lvl, [("", l)])) <$> lines);
               trace := trace w |}).
Proof.
  revert w. induction lines as [|l ls IH]; intros w.
  - cbn. rewrite app_nil_r. by destruct w.
  - cbn. unfold mbind, M_bind. cbn. rewrite IH. cbn.
    by rewrite <- app_assoc.
Qed.


End Facts.
End RunFacts.

(* ===================================================================== *)
(** * The refresh of the catalog snapshot *)
(* ===================================================================== *)

Module SnapshotFacts.
Import Snapshot.

Lemma fetches_app (l l' : list Call) :
  fetches (l ++ l') = fetches l + fetches l'.
Proof.
  induction l as [|c l IH]; [done|].
  destruct c; cbn; rewrite IH; lia.
Qed.

(** Saturation does not change on which side of 24 hours an age lies. *)
Lemma moreThan24Hours_Sub (now mt : Z) :
  moreThan24Hours (Sub now mt) = true ↔ (24 * Hour < now - mt)%Z.
Proof.
  unfold moreThan24Hours, Sub, minDuration, maxDuration, Hour.
  rewrite Z.ltb_lt.
  change (2 ^ 63)%Z with 9223372036854775808%Z. lia.
Qed.

Lemma needsRefresh_fresh (now : Z) (d : Disk) (st : FileState) :
  snapshot d = Some st → (now - ModTime st ≤ 24 * Hour)%Z →
  needsRefresh now d = false.
Proof.
  intros Hs Hage. unfold needsRefresh. rewrite Hs.
  destruct (moreThan24Hours (Sub now (ModTime st))) eqn:E; [|done].
  apply moreThan24Hours_Sub in E. lia.
Qed.

Lemma needsRefresh_stale (now : Z) (d : Disk) :
  snapshot d = None
  ∨ (∃ st, snapshot d = Some st ∧ (24 * Hour < now - ModTime st)%Z) →
  needsRefresh now d = true.
Proof.
  intros [Hs|(st & Hs & Hage)]; unfold needsRefresh; rewrite Hs; [done|].
  by apply moreThan24Hours_Sub.
Qed.

Lemma Load_disk parse file d :
  calls (Load parse file d).2 = calls d
  ∧ snapshot (Load parse file d).2 = snapshot d.
Proof.
  unfold Load, say. cbn.
  destruct (snapshot d) as [st|]; [destruct (parse (Content st))|]; done.
Qed.

(** C5. [loadResources] makes no network fetch when the snapshot exists
    and is not older than 24 hours; when it is missing or older it makes
    exactly one: the old file is deleted first, then the content is
    downloaded and written, replacing what was there; when the network
    fails an error is returned and no snapshot file is left. *)
Theorem loadResources_refresh_policy
        (now : Z) (httpGet : string → Response)
        (diskWrite : string → WriteOutcome)
        (parse : string → Resources + string) (a : Args) (d : Disk) :
  let url := Args_ResourcesUrl a in
  let r := loadResources now httpGet diskWrite parse a d in
  (∀ st, snapshot d = Some st → (now - ModTime st ≤ 24 * Hour)%Z →
     calls r.2 = calls d ∧ fetches (calls r.2) = fetches (calls d)
     ∧ snapshot r.2 = snapshot d)
  ∧ (snapshot d = None
     ∨ (∃ st, snapshot d = Some st ∧ (24 * Hour < now - ModTime st)%Z) →
     fetches (calls r.2) = S (fetches (calls d))
     ∧ (∃ rest, calls r.2 = calls d ++ OsRemove :: HttpGet url :: rest
                ∧ (rest = [] ∨ ∃ data, rest = [WriteFile data]))
     ∧ (∀ data, httpGet url = Body data → diskWrite data = Written →
          calls r.2 = calls d ++ [OsRemove; HttpGet url; WriteFile data]
          ∧ snapshot r.2 = Some {| ModTime := now; Content := data |})
     ∧ (∀ e, httpGet url = GetError e ∨ httpGet url = BodyError e →
          (∃ msg, r.1 = inr msg) ∧ snapshot r.2 = None
          ∧ calls r.2 = calls d ++ [OsRemove; HttpGet url])).
Proof.
  intros url r. split.
  - intros st Hs Hage. subst r. unfold loadResources.
    rewrite (needsRefresh_fresh now d st Hs Hage).
    destruct (Load_disk parse
                (String_ (Child (Args_HomeDir a) "resources.xml")) d)
      as [Hc Hsn].
    by rewrite Hc, Hsn.
  - intros Hstale. subst r. unfold loadResources.
    rewrite (needsRefresh_stale now d Hstale). fold url.
    assert (Hcalls : ∀ (cs : list Call) rest,
               fetches ((cs ++ [OsRemove]) ++ HttpGet url :: rest)
               = S (fetches cs + fetches rest)).
    { intros cs rest. rewrite !fetches_app. cbn. lia. }
    destruct (httpGet url) as [e|e|data] eqn:Hget; cbn.
    1, 2: split; [by rewrite (Hcalls _ []), Nat.add_0_r|];
      split; [exists []; rewrite <- app_assoc; eauto|];
      split; [intros data' Hd; discriminate|];
      intros e' _; rewrite <- app_assoc; eauto.
    destruct (diskWrite data) as [|e leftover] eqn:Hw.
    + unfold Load, say, call. cbn.
      destruct (parse data); cbn; rewrite <- !app_assoc; cbn.
      all: split; [rewrite fetches_app; cbn; lia|].
      all: split; [exists [WriteFile data]; eauto|].
      all: split; [intros data' Hd _; by injection Hd as <-|].
      all: intros e' [He|He]; discriminate.
    + cbn. rewrite <- !app_assoc. cbn.
      split; [rewrite fetches_app; cbn; lia|].
      split; [exists [WriteFile data]; eauto|].
      split; [intros data' Hd Hw'; injection Hd as <-; congruence|].
      intros e' [He|He]; discriminate.
Qed.

End SnapshotFacts.

(* ===================================================================== *)
(** * The merge of the vendor manifests *)
(* ===================================================================== *)

Module MergeFacts.
Section Facts.
Context `{Collaborators}.

Implicit Types (deps : gmap string (VendoredModule Version)).
Implicit Types (m r e : VendoredModule Version).
Implicit Types (records : list (VendoredModule Version)).

Lemma upgrade_lookup_ne deps m (n : string) :
  n ≠ ModuleName m → upgrade deps m !! n = deps !! n.
Proof.
  intros Hn. unfold upgrade. destruct (replaces deps m); [|done].
  by rewrite lookup_insert_ne.
Qed.

(** What the scan leaves at the name of the scanned record. *)
Lemma upgrade_lookup_eq deps m :
  (upgrade deps m !! ModuleName m = Some m ∧ replaces deps m = true)
  ∨ (∃ dep, deps !! ModuleName m = Some dep
            ∧ upgrade deps m !! ModuleName m = Some dep
            ∧ IsNewer (Version_ m) (Version_ dep) = false).
Proof.
  unfold upgrade, replaces.
  destruct (deps !! ModuleName m) as [dep|] eqn:E.
  - destruct (IsNewer (Version_ m) (Version_ dep)) eqn:En.
    + left. by rewrite lookup_insert_eq.
    + right. eauto.
  - left. by rewrite lookup_insert_eq.
Qed.

(** The log apart, the scan of the program is the fold of [upgrade]. *)
Lemma collect_upgrade deps m (w : World) :
  ∃ w', collect deps m w = (Ok (upgrade deps m), w')
        ∧ goup w' = goup w ∧ fs w' = fs w ∧ trace w' = trace w.
Proof.
  unfold collect, upgrade, logger_Debug, logger, mbind, M_bind, mret, M_ret.
  cbn. destruct (replaces deps m); cbn; eauto.
Qed.

Lemma foldM_collect records deps (w : World) :
  ∃ w', foldM collect deps records w = (Ok (foldl upgrade deps records), w')
        ∧ goup w' = goup w ∧ fs w' = fs w ∧ trace w' = trace w.
Proof.
  revert deps w. induction records as [|m ms IH]; intros deps w.
  - cbn. eauto.
  - cbn. unfold mbind, M_bind.
    destruct (collect_upgrade deps m w) as (w1 & -> & Hg & Hf & Ht).
    destruct (IH (upgrade deps m) w1) as (w2 & -> & Hg2 & Hf2 & Ht2).
    exists w2. repeat split; congruence.
Qed.

(** An entry of the result was in the map before or is a scanned record. *)
Lemma fold_origin records deps (n : string) e :
  foldl upgrade deps records !! n = Some e →
  deps !! n = Some e ∨ (e ∈ records ∧ ModuleName e = n).
Proof.
  revert deps. induction records as [|m ms IH]; intros deps Hl.
  - by left.
  - cbn in Hl. apply IH in Hl as [Hl|[Hin Hn]].
    + destruct (decide (n = ModuleName m)) as [->|Hne].
      * destruct (upgrade_lookup_eq deps m) as [[Hm _]|(dep & Hd & Hu & _)].
        -- right. rewrite Hm in Hl. injection Hl as <-.
           split; [apply list_elem_of_here|done].
        -- left. congruence.
      * left. by rewrite upgrade_lookup_ne in Hl.
    + right. split; [by apply list_elem_of_further|done].
Qed.

Section Ordered.
Hypothesis order : totalVersionOrder.

Lemma not_newer_trans (a b c : Version) :
  IsNewer a b = false → IsNewer b c = false → IsNewer a c = false.
Proof.
  destruct order as (Hirr & Htr & Htot). intros Hab Hbc.
  destruct (IsNewer a c) eqn:Hac; [|done].
  destruct (Htot a b) as [->|[Hn|Hn]]; [congruence|congruence|].
  rewrite (Htr b a c Hn Hac) in Hbc. discriminate.
Qed.

(** Nothing that was in the map or was scanned is newer than the entry
    the scan ends with. *)
Lemma fold_bound records deps :
  (∀ (n : string) a, deps !! n = Some a →
     ∃ e, foldl upgrade deps records !! n = Some e
          ∧ IsNewer (Version_ a) (Version_ e) = false)
  ∧ (∀ r, r ∈ records →
       ∃ e, foldl upgrade deps records !! ModuleName r = Some e
            ∧ IsNewer (Version_ r) (Version_ e) = false).
Proof.
  pose proof order as (Hirr & Htr & Htot).
  revert deps. induction records as [|m ms IH]; intros deps.
  - split; [|intros r Hr; by apply elem_of_nil in Hr].
    intros n a Ha. exists a. by rewrite Hirr.
  - cbn. destruct (IH (upgrade deps m)) as [IH1 IH2]. split.
    + intros n a Ha.
      destruct (decide (n = ModuleName m)) as [->|Hne].
      * destruct (upgrade_lookup_eq deps m)
          as [[Hm Hrep]|(dep & Hd & Hu & Hnn)].
        -- destruct (IH1 _ _ Hm) as (e & He & Hme).
           exists e. split; [done|].
           unfold replaces in Hrep. rewrite Ha in Hrep.
           destruct (IsNewer (Version_ a) (Version_ e)) eqn:Hae; [|done].
           rewrite (Htr _ _ _ Hrep Hae) in Hme. discriminate.
        -- apply IH1. congruence.
      * apply IH1. by rewrite upgrade_lookup_ne.
    + intros r Hr. apply elem_of_cons in Hr as [->|Hr]; [|by apply IH2].
      destruct (upgrade_lookup_eq deps m)
        as [[Hm _]|(dep & Hd & Hu & Hnn)].
      * by apply IH1.
      * destruct (IH1 _ _ Hu) as (e & He & Hde).
        exists e. split; [done|]. by eapply not_newer_trans.
Qed.

(** The retained entry of a declared name: a declared record of that
    name than which no declared record of the name is newer. *)
Lemma dependencySet_max records r :
  r ∈ records →
  ∃ e, dependencySet records !! ModuleName r = Some e
       ∧ e ∈ records ∧ ModuleName e = ModuleName r
       ∧ ∀ r', r' ∈ records → ModuleName r' = ModuleName r →
               IsNewer (Version_ r') (Version_ e) = false.
Proof.
  intros Hr. unfold dependencySet.
  destruct (fold_bound records ∅) as [_ Hb].
  destruct (Hb r Hr) as (e & He & Hre).
  exists e. split; [done|].
  destruct (fold_origin _ _ _ _ He) as [Hemp|[Hin Hn]];
    [by rewrite lookup_empty in Hemp|].
  repeat split; try done.
  intros r' Hr' Hn'. destruct (Hb r' Hr') as (e' & He' & Hre').
  rewrite Hn' in He'. congruence.
Qed.

Lemma retainedVersion_perm records records' (n : string) :
  records ≡ₚ records' →
  retainedVersion records n = retainedVersion records' n.
Proof.
  pose proof order as (Hirr & Htr & Htot).
  assert (Hone : ∀ l l' e, l ≡ₚ l' → dependencySet l !! n = Some e →
            ∃ e', dependencySet l' !! n = Some e'
                  ∧ Version_ e' = Version_ e).
  { intros l l' e Hp He.
    destruct (fold_origin _ _ _ _ He) as [Hemp|[Hin Hn]];
      [by rewrite lookup_empty in Hemp|].
    assert (Hin' : e ∈ l') by by rewrite <- Hp.
    destruct (dependencySet_max l' e Hin') as (e' & He' & Hein & Hen & Hmax).
    rewrite Hn in He'. exists e'. split; [done|].
    assert (Hein' : e' ∈ l) by by rewrite Hp.
    destruct (dependencySet_max l e' Hein') as (e2 & He2 & _ & _ & Hmax2).
    rewrite Hen, Hn in He2. assert (e2 = e) as -> by congruence.
    pose proof (Hmax e Hin' eq_refl) as H1.
    pose proof (Hmax2 e' Hein' eq_refl) as H2.
    destruct (Htot (Version_ e') (Version_ e)) as [?|[?|?]]; congruence. }
  intros Hp. unfold retainedVersion.
  destruct (dependencySet records !! n) as [e|] eqn:E.
  - destruct (Hone _ _ _ Hp E) as (e' & -> & Hv). cbn. by rewrite Hv.
  - destruct (dependencySet records' !! n) as [e'|] eqn:E'; [|done].
    symmetry in Hp. destruct (Hone _ _ _ Hp E') as (e & He & _).
    congruence.
Qed.

End Ordered.


End Facts.
End MergeFacts.

(* ===================================================================== *)
(** * Facts about the file system *)
(* ===================================================================== *)

Module FSFacts.

Lemma apart_sym (p q : Path) : apart p q → apart q p.
Proof. intros [? ?]. by split. Qed.

Lemma apart_nil_l (q : Path) : ¬ apart [] q.
Proof. intros [Hp _]. apply Hp, prefix_nil. Qed.

Lemma apart_nil_r (p : Path) : ¬ apart p [].
Proof. intros [_ Hq]. apply Hq, prefix_nil. Qed.

Lemma apart_cons_inv (s : string) (p q : Path) :
  apart (s :: p) (s :: q) → apart p q.
Proof. intros [Hp Hq]. split; intros Hpre; [apply Hp|apply Hq]; by apply prefix_cons. Qed.

Lemma apart_cons_ne (s t : string) (p q : Path) :
  s ≠ t → apart (s :: p) (t :: q).
Proof.
  intros Hne. split; intros Hpre; apply prefix_cons_inv_1 in Hpre; congruence.
Qed.

Lemma apart_app (base p q : Path) : apart p q → apart (base ++ p) (base ++ q).
Proof.
  intros [Hp Hq]. split; intros Hpre; [apply Hp|apply Hq];
    by apply prefix_app_inv in Hpre.
Qed.

Lemma lookupPath_app (p q : Path) (n : node) :
  lookupPath (p ++ q) n = lookupPath p n ≫= lookupPath q.
Proof.
  revert n. induction p as [|s p IH]; intros n; [done|].
  cbn. destruct n as [d|es]; [done|].
  destruct (es !! s) as [c|]; cbn; [apply IH|done].
Qed.

Lemma lookupPath_File (q : Path) (d : string) (x : node) :
  lookupPath q (File d) = Some x → q = [] ∧ x = File d.
Proof. destruct q; cbn; [|done]. intros [= <-]. done. Qed.

(** ** RemoveAll *)

Lemma removeAll_apart (p q : Path) (n n' : node) :
  removeAll p n = Some n' → apart p q → lookupPath q n' = lookupPath q n.
Proof.
  revert q n n'. induction p as [|s p IH]; intros q n n' Hr Hap.
  { by apply apart_nil_l in Hap. }
  destruct q as [|t q]; [by apply apart_nil_r in Hap|].
  cbn in Hr. destruct n as [d|es]; [done|].
  destruct (es !! s) as [c|] eqn:Es; [|by injection Hr as <-].
  destruct p as [|s' p].
  - injection Hr as <-. cbn.
    destruct (decide (s = t)) as [->|Hne].
    + destruct Hap as [Hp _]. exfalso. apply Hp. by apply prefix_cons, prefix_nil.
    + by rewrite lookup_delete_ne.
  - destruct (removeAll (s' :: p) c) as [c'|] eqn:Ec; [|done].
    injection Hr as <-. cbn.
    destruct (decide (s = t)) as [->|Hne].
    + rewrite lookup_insert_eq, Es. cbn.
      apply (IH _ _ _ Ec). by eapply apart_cons_inv.
    + by rewrite lookup_insert_ne.
Qed.

Lemma removeAll_under (p q : Path) (n n' : node) :
  removeAll p n = Some n' → p ≠ [] → p `prefix_of` q →
  lookupPath q n' = None.
Proof.
  revert q n n'. induction p as [|s p IH]; intros q n n' Hr Hne Hpre; [done|].
  destruct q as [|t q]; [by apply prefix_nil_not in Hpre|].
  pose proof (prefix_cons_inv_1 _ _ _ _ Hpre) as <-.
  apply prefix_cons_inv_2 in Hpre.
  cbn in Hr. destruct n as [d|es]; [done|].
  destruct (es !! s) as [c|] eqn:Es.
  - destruct p as [|s' p].
    + injection Hr as <-. cbn. by rewrite lookup_delete_eq.
    + destruct (removeAll (s' :: p) c) as [c'|] eqn:Ec; [|done].
      injection Hr as <-. cbn. rewrite lookup_insert_eq. cbn.
      by apply (IH _ _ _ Ec).
  - injection Hr as <-. cbn. by rewrite Es.
Qed.

(** RemoveAll creates nothing. *)
Lemma removeAll_None (p q : Path) (n n' : node) :
  removeAll p n = Some n' → lookupPath q n = None → lookupPath q n' = None.
Proof.
  revert q n n'. induction p as [|s p IH]; intros q n n' Hr Hq.
  { cbn in Hr. congruence. }
  cbn in Hr. destruct n as [d|es]; [done|].
  destruct (es !! s) as [c|] eqn:Es; [|congruence].
  destruct q as [|t q]; [done|]. cbn in Hq.
  destruct p as [|s' p].
  - injection Hr as <-. cbn.
    destruct (decide (s = t)) as [->|Hne].
    + by rewrite lookup_delete_eq.
    + by rewrite lookup_delete_ne.
  - destruct (removeAll (s' :: p) c) as [c'|] eqn:Ec; [|done].
    injection Hr as <-. cbn.
    destruct (decide (s = t)) as [->|Hne].
    + rewrite lookup_insert_eq. cbn. rewrite Es in Hq. cbn in Hq.
      by apply (IH _ _ _ Ec).
    + by rewrite lookup_insert_ne.
Qed.

(** A file that is there after RemoveAll was there before. *)
Lemma removeAll_File (p q : Path) (n n' : node) (d : string) :
  removeAll p n = Some n' → lookupPath q n' = Some (File d) →
  lookupPath q n = Some (File d).
Proof.
  revert q n n'. induction p as [|s p IH]; intros q n n' Hr Hq.
  { cbn in Hr. congruence. }
  cbn in Hr. destruct n as [d0|es]; [done|].
  destruct (es !! s) as [c|] eqn:Es; [|congruence].
  destruct q as [|t q].
  { cbn in Hq. destruct p; [|destruct (removeAll _ c)]; simplify_eq. }
  destruct p as [|s' p].
  - injection Hr as <-. cbn in *.
    destruct (decide (s = t)) as [->|Hne].
    + by rewrite lookup_delete_eq in Hq.
    + by rewrite lookup_delete_ne in Hq.
  - destruct (removeAll (s' :: p) c) as [c'|] eqn:Ec; [|done].
    injection Hr as <-. cbn in *.
    destruct (decide (s = t)) as [->|Hne].
    + rewrite lookup_insert_eq in Hq. cbn in Hq. rewrite Es. cbn.
      by apply (IH _ _ _ Ec).
    + by rewrite lookup_insert_ne in Hq.
Qed.

Lemma mkdirAll_unfold (s : string) (p : Path) (es : gmap string node) :
  mkdirAll (s :: p) (Dir es)
  = c' ← mkdirAll p (default (Dir ∅) (es !! s)); Some (Dir (<[s := c']> es)).
Proof. done. Qed.

Lemma removeAll_fails_mkdirAll (p : Path) (n : node) :
  removeAll p n = None → mkdirAll p n = None.
Proof.
  revert n. induction p as [|s p IH]; intros n Hr; [done|].
  cbn in Hr. destruct n as [d|es]; [done|].
  destruct (es !! s) as [c|] eqn:Es; [|done].
  destruct p as [|s' p]; [done|].
  destruct (removeAll (s' :: p) c) as [c'|] eqn:Ec; [done|].
  rewrite mkdirAll_unfold, Es. cbn -[mkdirAll]. by rewrite (IH _ Ec).
Qed.

(** ** MkdirAll *)

Lemma mkdirAll_apart (p q : Path) (n n' : node) :
  mkdirAll p n = Some n' → apart p q → lookupPath q n' = lookupPath q n.
Proof.
  revert q n n'. induction p as [|s p IH]; intros q n n' Hm Hap.
  { by apply apart_nil_l in Hap. }
  destruct q as [|t q]; [by apply apart_nil_r in Hap|].
  destruct n as [d|es]; [done|]. rewrite mkdirAll_unfold in Hm.
  destruct (mkdirAll p (default (Dir ∅) (es !! s))) as [c'|] eqn:Ec; [|done].
  injection Hm as <-. cbn.
  destruct (decide (s = t)) as [->|Hne]; [|by rewrite lookup_insert_ne].
  rewrite lookup_insert_eq. cbn.
  apply apart_cons_inv in Hap. rewrite (IH _ _ _ Ec Hap).
  destruct (es !! t) as [c|]; [done|]. cbn.
  destruct q as [|u q]; [by apply apart_nil_r in Hap|]. done.
Qed.

Lemma mkdirAll_fresh (p : Path) (n n' : node) :
  mkdirAll p n = Some n' → lookupPath p n = None →
  lookupPath p n' = Some (Dir ∅).
Proof.
  revert n n'. induction p as [|s p IH]; intros n n' Hm Hl; [done|].
  destruct n as [d|es]; [done|]. rewrite mkdirAll_unfold in Hm.
  destruct (mkdirAll p (default (Dir ∅) (es !! s))) as [c'|] eqn:Ec; [|done].
  injection Hm as <-. cbn. rewrite lookup_insert_eq. cbn.
  cbn in Hl. destruct (es !! s) as [c|]; cbn in *.
  - by apply (IH _ _ Ec).
  - destruct p as [|u p]; [cbn in Ec; by injection Ec as <-|].
    by apply (IH _ _ Ec).
Qed.

(** ** Placing a subtree *)

Lemma place_unfold (s s' : string) (p : Path) (x : node)
      (es : gmap string node) :
  place (s :: s' :: p) x (Dir es)
  = c ← es !! s; c' ← place (s' :: p) x c; Some (Dir (<[s := c']> es)).
Proof. done. Qed.

Lemma place_eq (p : Path) (x n n' : node) :
  place p x n = Some n' → lookupPath p n' = Some x.
Proof.
  revert n n'. induction p as [|s p IH]; intros n n' Hp; [done|].
  destruct n as [d|es]; [done|].
  destruct p as [|s' p].
  - injection Hp as <-. cbn. by rewrite lookup_insert_eq.
  - rewrite place_unfold in Hp.
    destruct (es !! s) as [c|]; [|done]. cbn -[place] in Hp.
    destruct (place (s' :: p) x c) as [c'|] eqn:Ec; [|done].
    injection Hp as <-.
    change (<[s:=c']> es !! s ≫= lookupPath (s' :: p) = Some x).
    rewrite lookup_insert_eq. cbn -[lookupPath]. by apply (IH _ _ Ec).
Qed.

Lemma place_apart (p q : Path) (x n n' : node) :
  place p x n = Some n' → apart p q → lookupPath q n' = lookupPath q n.
Proof.
  revert q n n'. induction p as [|s p IH]; intros q n n' Hp Hap; [done|].
  destruct q as [|t q]; [by apply apart_nil_r in Hap|].
  destruct n as [d|es]; [done|].
  destruct p as [|s' p].
  - injection Hp as <-. cbn.
    destruct (decide (s = t)) as [->|Hne]; [|by rewrite lookup_insert_ne].
    destruct Hap as [Hpre _]. exfalso. apply Hpre.
    by apply prefix_cons, prefix_nil.
  - rewrite place_unfold in Hp.
    destruct (es !! s) as [c|] eqn:Es; [|done]. cbn -[place] in Hp.
    destruct (place (s' :: p) x c) as [c'|] eqn:Ec; [|done].
    injection Hp as <-. cbn.
    destruct (decide (s = t)) as [->|Hne]; [|by rewrite lookup_insert_ne].
    rewrite lookup_insert_eq, Es. cbn.
    apply (IH _ _ _ Ec). by eapply apart_cons_inv.
Qed.

(** ** Rename *)

Lemma destOk_inside (src d x : node) (k : Path) :
  k ≠ [] → lookupPath k d = Some x → destOk src (Some d) = false.
Proof.
  intros Hk Hl. destruct k as [|s k]; [done|].
  destruct d as [?|es]; [done|]. cbn in Hl.
  destruct (es !! s) as [c|] eqn:Es; [|done].
  cbn. destruct src; [done|].
  apply bool_decide_eq_false. intros ->. by rewrite lookup_empty in Es.
Qed.

(** A rename that succeeds between different places: the places are apart,
    the subtree is at the new place and no longer at the old, and nothing
    apart from both has changed. *)
Lemma rename_moves (old new : Path) (n n' : node) :
  rename old new n = Some n' → old ≠ new →
  apart old new
  ∧ (∃ src, lookupPath old n = Some src ∧ lookupPath new n' = Some src)
  ∧ lookupPath old n' = None
  ∧ (∀ q, apart old q → apart new q → lookupPath q n' = lookupPath q n).
Proof.
  unfold rename. intros Hr Hne.
  destruct (lookupPath old n) as [src|] eqn:Eo; [|done]. cbn in Hr.
  destruct (decide (old = new)); [done|].
  destruct (decide (old `prefix_of` new)) as [|Hnp]; [done|].
  destruct (destOk src (lookupPath new n)) eqn:Ed; [|done].
  destruct (removeAll old n) as [n1|] eqn:E1; [|done]. cbn in Hr.
  assert (Hap : apart old new).
  { split; [done|]. intros [k ->].
    rewrite lookupPath_app in Eo.
    destruct (lookupPath new n) as [d|] eqn:En; [|done]. cbn in Eo.
    assert (k ≠ []) by (intros ->; by rewrite app_nil_r in Hne).
    by rewrite (destOk_inside src d src k) in Ed. }
  assert (Hold : old ≠ []).
  { intros ->. apply Hnp, prefix_nil. }
  split; [done|]. split; [|split].
  - exists src. split; [done|]. by eapply place_eq.
  - rewrite (place_apart _ _ _ _ _ Hr (apart_sym _ _ Hap)).
    by apply (removeAll_under _ _ _ _ E1).
  - intros q Hq1 Hq2. rewrite (place_apart _ _ _ _ _ Hr Hq2).
    by apply (removeAll_apart _ _ _ _ E1).
Qed.

Lemma Suffix_Child (base : Path) (name suffix : string) :
  Suffix (Child base name) suffix = Child base (name +:+ suffix).
Proof.
  unfold Child. induction base as [|s base IH]; [done|].
  cbn. rewrite IH. by destruct base.
Qed.

Lemma apart_Child (base : Path) (a b : string) (rest : Path) :
  a ≠ b → apart (Child base a) (base ++ b :: rest).
Proof. intros Hne. unfold Child. by apply apart_app, apart_cons_ne. Qed.

Lemma place_exists (p : Path) (x y n : node) :
  p ≠ [] → lookupPath p n = Some y → is_Some (place p x n).
Proof.
  revert n. induction p as [|s p IH]; intros n Hne Hl; [done|].
  destruct n as [d|es]; [done|]. cbn in Hl.
  destruct (es !! s) as [c|] eqn:Es; [|done]. cbn in Hl.
  destruct p as [|s' p]; [by eexists|].
  rewrite place_unfold, Es. cbn -[place].
  destruct (IH c) as [c' Hc']; [done|done|]. rewrite Hc'. by eexists.
Qed.

Lemma mkdirAll_after_removeAll (p : Path) (n n1 : node) :
  is_Some (mkdirAll p n) → removeAll p n = Some n1 →
  is_Some (mkdirAll p n1).
Proof.
  revert n n1. induction p as [|s p IH]; intros n n1 Hm Hr.
  { cbn in Hr. by injection Hr as <-. }
  destruct n as [d|es]; [done|].
  rewrite mkdirAll_unfold in Hm. cbn in Hr.
  destruct (es !! s) as [c|] eqn:Es.
  - destruct p as [|s' p].
    + injection Hr as <-. rewrite mkdirAll_unfold, lookup_delete_eq.
      by eexists.
    + destruct (removeAll (s' :: p) c) as [c1|] eqn:Ec; [|done].
      injection Hr as <-. rewrite mkdirAll_unfold, lookup_insert_eq.
      cbn -[mkdirAll] in *.
      destruct (mkdirAll (s' :: p) c) as [c2|] eqn:E2;
        [|by destruct Hm].
      destruct (IH c c1) as [c3 Hc3]; [by rewrite E2|done|].
      rewrite Hc3. by eexists.
  - injection Hr as <-. by rewrite mkdirAll_unfold, Es.
Qed.

Lemma map_to_list_single (es : gmap string node) (k : string) (v : node) :
  map_to_list es = [(k, v)] → es = {[k := v]}.
Proof.
  intros Hl. rewrite <- (list_to_map_to_list es), Hl. cbn.
  by rewrite insert_empty.
Qed.

Lemma map_to_list_nil (es : gmap string node) :
  map_to_list es = [] → es = ∅.
Proof. apply map_to_list_empty_iff. Qed.

End FSFacts.

(* ===================================================================== *)
(** * Facts about the calls of the builder *)
(* ===================================================================== *)

Module MonadFacts.

Lemma bind_run {A B : Type} (m : M A) (f : A → M B) (w : World) :
  (m ≫= f) w
  = match m w with
    | (Ok a, w') => f a w'
    | (Err e, w') => (Err e, w')
    | (Panic e, w') => (Panic e, w')
    end.
Proof. done. Qed.

Lemma os_RemoveAll_run (p : Path) (w : World) :
  ∃ err n',
    os_RemoveAll p w
    = (Ok err, {| goup := goup w; fs := n'; log := log w;
                  trace := trace w ++ [EvRemoveAll p] |})
    ∧ ((removeAll p (fs w) = Some n' ∧ err = None)
       ∨ (removeAll p (fs w) = None ∧ n' = fs w ∧ err ≠ None)).
Proof.
  unfold os_RemoveAll, mbind, M_bind, emit, getFs, putFs, mret, M_ret. cbn.
  destruct (removeAll p (fs w)) as [n'|] eqn:E; cbn; eauto 10.
Qed.

Lemma os_MkdirAll_run (p : Path) (w : World) :
  ∃ err n',
    os_MkdirAll p w
    = (Ok err, {| goup := goup w; fs := n'; log := log w;
                  trace := trace w ++ [EvMkdirAll p] |})
    ∧ ((mkdirAll p (fs w) = Some n' ∧ err = None)
       ∨ (mkdirAll p (fs w) = None ∧ n' = fs w ∧ err ≠ None)).
Proof.
  unfold os_MkdirAll, mbind, M_bind, emit, getFs, putFs, mret, M_ret. cbn.
  destruct (mkdirAll p (fs w)) as [n'|] eqn:E; cbn; eauto 10.
Qed.

Lemma os_Rename_run (old new : Path) (w : World) :
  ∃ err n',
    os_Rename old new w
    = (Ok err, {| goup := goup w; fs := n'; log := log w;
                  trace := trace w ++ [EvRename old new] |})
    ∧ ((rename old new (fs w) = Some n' ∧ err = None)
       ∨ (rename old new (fs w) = None ∧ n' = fs w ∧ err ≠ None)).
Proof.
  unfold os_Rename, mbind, M_bind, emit, getFs, putFs, mret, M_ret. cbn.
  destruct (rename old new (fs w)) as [n'|] eqn:E; cbn; eauto 10.
Qed.

Lemma ioutil_ReadDir_run (p : Path) (w : World) :
  ioutil_ReadDir p w
  = (Ok match readDir p (fs w) with
        | Some files => inl files
        | None => inr ("open " +:+ String_ p +:+ ": not a directory")
        end, w).
Proof.
  unfold ioutil_ReadDir, mbind, M_bind, getFs, mret, M_ret. cbn.
  by destruct (readDir p (fs w)).
Qed.

Section Download.
Context `{Collaborators}.

Lemma downloadAndUnpack_run (url : string) (dir : Path) (w : World) :
  ∃ err n',
    downloadAndUnpack url dir w
    = (Ok err, {| goup := goup w; fs := n'; log := log w;
                  trace := trace w ++ [EvDownload url dir] |})
    ∧ ((∃ es, lookupPath dir (fs w) = Some (Dir es)
              ∧ place dir (Dir ((fetchArchive url).1 ∪ es)) (fs w)
                = Some n'
              ∧ err = (fetchArchive url).2)
       ∨ (n' = fs w ∧ err ≠ None
          ∧ ∀ es, lookupPath dir (fs w) = Some (Dir es) →
                  place dir (Dir ((fetchArchive url).1 ∪ es)) (fs w)
                  = None)).
Proof.
  unfold downloadAndUnpack, mbind, M_bind, emit, getFs, putFs, mret, M_ret.
  cbn. destruct (fetchArchive url) as [content err] eqn:Ef. cbn.
  destruct (lookupPath dir (fs w)) as [[d|es]|] eqn:El; cbn.
  - eexists _, _. split; [done|]. right. by repeat split.
  - destruct (place dir (Dir (content ∪ es)) (fs w)) as [n'|] eqn:Ep; cbn.
    + eexists _, _. split; [done|]. left. eauto.
    + eexists _, _. split; [done|]. right. repeat split; try done.
      intros es' [= <-]. done.
  - eexists _, _. split; [done|]. right. by repeat split.
Qed.
End Download.

End MonadFacts.

(* ===================================================================== *)
(** * Provisioning a toolchain *)
(* ===================================================================== *)

Module ToolchainFacts.
Import FSFacts MonadFacts.
Section Facts.
Context `{Collaborators}.

Lemma staging_apart (g : Goup) (res : Resource) :
  apart (Suffix (toolchainDir g res) ".tmp") (toolchainDir g res).
Proof.
  unfold toolchainDir. rewrite Suffix_Child.
  apply (apart_Child _ _ _ []). by apply TextFacts.append_neq.
Qed.

Lemma staging_entry_apart (g : Goup) (res : Resource) (name : string) :
  apart (Child (Suffix (toolchainDir g res) ".tmp") name) (toolchainDir g res).
Proof.
  unfold toolchainDir. rewrite Suffix_Child. unfold Child.
  rewrite <- !app_assoc. apply apart_app.
  apply (apart_app ["toolchains"] (_ :: [name]) [_]).
  by apply apart_cons_ne, TextFacts.append_neq.
Qed.

Lemma staging_not_root (g : Goup) (res : Resource) :
  Suffix (toolchainDir g res) ".tmp" ≠ [].
Proof.
  unfold toolchainDir. rewrite Suffix_Child. unfold Child.
  intros Heq. by apply app_nil in Heq as [_ ?].
Qed.

(** The end of a provisioning: the rename to the final place and the
    removal of what is left of the staging directory. *)
Lemma install_staged (src tmp target : Path) (x : node) (w3 w' : World)
      (r : result unit) :
  apart tmp target → apart src target →
  lookupPath src (fs w3) = Some x →
  (os_Rename src target
   ≫= λ e, check e id
   ≫= λ _, os_RemoveAll tmp ≫= λ _, mret tt) w3 = (r, w') →
  lookupPath target (fs w3) = None →
  goup w' = goup w3
  ∧ (r ≠ Ok tt → lookupPath target (fs w') = None)
  ∧ (r = Ok tt →
       trace w' = trace w3 ++ [EvRename src target; EvRemoveAll tmp]
       ∧ lookupPath target (fs w') = Some x).
Proof.
  intros Hap Hsrc Hx Hrun Habs.
  rewrite bind_run in Hrun.
  destruct (os_Rename_run src target w3) as (e & n4 & E & Hcase).
  rewrite E in Hrun. clear E. cbv iota beta in Hrun.
  rewrite bind_run in Hrun.
  destruct Hcase as [[Hren ->]|(Hren & -> & He)].
  2: { destruct e as [e|]; [|done]. cbn in Hrun. injection Hrun as <- <-.
       cbn. by repeat split. }
  unfold check at 1 in Hrun. unfold mret at 1, M_ret at 1 in Hrun.
  cbv iota beta in Hrun. rewrite bind_run in Hrun.
  match type of Hrun with context [os_RemoveAll tmp ?w4] =>
    destruct (os_RemoveAll_run tmp w4) as (e5 & n5 & E5 & H5) end.
  rewrite E5 in Hrun. clear E5. cbn [goup fs log trace] in *.
  unfold mret, M_ret in Hrun. cbv iota beta in Hrun.
  injection Hrun as <- <-. cbn.
  split; [done|]. split; [done|]. intros _.
  split; [by rewrite <- app_assoc|].
  assert (Hne : src ≠ target).
  { intros ->. destruct Hsrc as [Hp _]. by apply Hp. }
  destruct (rename_moves _ _ _ _ Hren Hne)
    as (_ & (y & Hy & Hnew) & _ & _).
  assert (y = x) as -> by congruence.
  destruct H5 as [[Hr _]|(_ & -> & _)]; [|done].
  by rewrite (removeAll_apart _ _ _ _ Hr Hap).
Qed.

(** The outcomes of provisioning a resource whose directory is absent. *)
Lemma ensureToolchain_absent (res : Resource) (w : World) :
  let target := toolchainDir (goup w) res in
  let tmp := Suffix target ".tmp" in
  let url := Resource_Url res in
  lookupPath target (fs w) = None →
  ∀ r w', ensureToolchain res w = (r, w') →
    goup w' = goup w
    ∧ (r ≠ Ok tt → lookupPath target (fs w') = None)
    ∧ (r = Ok tt →
         ∃ content src,
           fetchArchive url = (content, None) ∧ content ≠ ∅
           ∧ trace w' = trace w ++ [EvRemoveAll tmp; EvMkdirAll tmp;
                                    EvDownload url tmp;
                                    EvRename src target; EvRemoveAll tmp]
           ∧ ((∃ name inner, content = {[name := Dir inner]}
                             ∧ src = Child tmp name
                             ∧ lookupPath target (fs w') = Some (Dir inner))
              ∨ ((∀ name inner, content ≠ {[name := Dir inner]})
                 ∧ src = tmp
                 ∧ lookupPath target (fs w') = Some (Dir content))))
    ∧ (is_Some (mkdirAll tmp (fs w)) → fetchArchive url = (∅, None) →
         r = Err ("no files in resource: " +:+ ResourceString res)
         ∧ trace w' = trace w ++ [EvRemoveAll tmp; EvMkdirAll tmp;
                                  EvDownload url tmp]).
Proof.
  intros target tmp url Habs r w' Hrun.
  pose proof (staging_apart (goup w) res) as Hap. fold target tmp in Hap.
  pose proof (staging_not_root (goup w) res) as Hnr. fold target tmp in Hnr.
  unfold ensureToolchain in Hrun.
  rewrite bind_run in Hrun. unfold getGoup at 1 in Hrun.
  cbv iota beta zeta in Hrun.
  fold target in Hrun. fold tmp in Hrun. fold url in Hrun.
  rewrite bind_run in Hrun. unfold pathExists at 1 in Hrun.
  rewrite bind_run in Hrun. unfold getFs at 1 in Hrun.
  cbv iota beta in Hrun.
  unfold Exists in Hrun. rewrite Habs in Hrun. unfold mret, M_ret in Hrun.
  cbv iota beta in Hrun.
  (* RemoveAll of the staging directory *)
  rewrite bind_run in Hrun.
  destruct (os_RemoveAll_run tmp w) as (e1 & n1 & E1 & H1).
  rewrite E1 in Hrun. clear E1. cbv iota beta in Hrun.
  assert (Habs1 : lookupPath target n1 = None).
  { destruct H1 as [[Hr _]|(_ & -> & _)]; [|done].
    by apply (removeAll_None _ _ _ _ Hr). }
  (* MkdirAll of the staging directory *)
  rewrite bind_run in Hrun.
  match type of Hrun with context [os_MkdirAll tmp ?w1] =>
    destruct (os_MkdirAll_run tmp w1) as (e2 & n2 & E2 & H2) end.
  rewrite E2 in Hrun. clear E2. cbn [goup fs log trace] in *.
  cbv iota beta in Hrun. rewrite bind_run in Hrun.
  destruct H2 as [[Hm ->]|(Hm & -> & He2)].
  2: { destruct e2 as [e2|]; [|done]. cbn in Hrun.
       injection Hrun as <- <-. cbn.
       split; [done|]. split; [done|]. split; [done|].
       intros Hcan _. exfalso.
       destruct H1 as [[Hr _]|(Hr & _ & _)].
       - destruct (mkdirAll_after_removeAll _ _ _ Hcan Hr) as [? ?].
         congruence.
       - apply removeAll_fails_mkdirAll in Hr. rewrite Hr in Hcan.
         by destruct Hcan. }
  unfold must at 1 in Hrun. unfold mret, M_ret in Hrun.
  cbv iota beta in Hrun.
  assert (Hfresh : lookupPath tmp n2 = Some (Dir ∅)).
  { apply (mkdirAll_fresh _ _ _ Hm).
    destruct H1 as [[Hr _]|(Hr & -> & _)].
    - by apply (removeAll_under _ _ _ _ Hr).
    - apply removeAll_fails_mkdirAll in Hr. congruence. }
  assert (Habs2 : lookupPath target n2 = None).
  { by rewrite (mkdirAll_apart _ _ _ _ Hm Hap). }
  (* download and unpack *)
  rewrite bind_run in Hrun.
  match type of Hrun with context [downloadAndUnpack url tmp ?w2] =>
    destruct (downloadAndUnpack_run url tmp w2) as (e3 & n3 & E3 & H3) end.
  rewrite E3 in Hrun. clear E3. cbn [goup fs log trace] in *.
  cbv iota beta in Hrun. rewrite bind_run in Hrun.
  destruct (fetchArchive url) as [content err] eqn:Ef. cbn [fst snd] in H3.
  destruct H3 as [(es & Hes & Hp & ->)|(-> & He3 & Hnp)].
  2: { destruct e3 as [e3|]; [|done]. cbn in Hrun.
       injection Hrun as <- <-. cbn.
       split; [done|]. split; [done|]. split; [done|].
       intros _ _. exfalso.
       destruct (place_exists tmp (Dir (content ∪ ∅)) _ _ Hnr Hfresh)
         as [? Hpl].
       rewrite (Hnp ∅ Hfresh) in Hpl. done. }
  rewrite Hfresh in Hes. injection Hes as <-.
  rewrite (right_id_L ∅ (∪)) in Hp.
  assert (Hstaged : lookupPath tmp n3 = Some (Dir content))
    by by eapply place_eq.
  assert (Habs3 : lookupPath target n3 = None)
    by by rewrite (place_apart _ _ _ _ _ Hp Hap).
  destruct err as [e|].
  { cbn in Hrun. injection Hrun as <- <-. cbn.
    split; [done|]. split; [done|]. split; [done|]. by intros _ [= _]. }
  unfold check at 1 in Hrun. unfold mret, M_ret in Hrun.
  cbv iota beta in Hrun.
  (* the entries of the staging directory *)
  rewrite bind_run, ioutil_ReadDir_run in Hrun.
  cbn [goup fs log trace] in Hrun. unfold readDir in Hrun.
  rewrite Hstaged in Hrun. cbv iota beta in Hrun.
  assert (Htrace : ∀ (t : list Event) a b c more,
            (((t ++ [a]) ++ [b]) ++ [c]) ++ more = t ++ a :: b :: c :: more).
  { intros. by rewrite <- !app_assoc. }
  destruct (map_to_list content) as [|[name entry] rest] eqn:El.
  { (* nothing was unpacked *)
    apply map_to_list_nil in El as ->.
    cbn in Hrun. injection Hrun as <- <-. cbn.
    split; [done|]. split; [done|]. split; [done|]. intros _ _.
    split; [done|]. by rewrite <- (Htrace _ _ _ _ []), app_nil_r. }
  assert (Hne : content ≠ ∅).
  { intros ->. by rewrite map_to_list_empty in El. }
  rewrite bool_decide_eq_false_2 in Hrun by done.
  assert (Hdone : ∀ src x,
            apart src target → lookupPath src n3 = Some x →
            (os_Rename src target
             ≫= λ e, check e id
             ≫= λ _, os_RemoveAll tmp ≫= λ _, mret tt)
              {| goup := goup w; fs := n3; log := log w;
                 trace := ((trace w ++ [EvRemoveAll tmp])
                           ++ [EvMkdirAll tmp]) ++ [EvDownload url tmp] |}
            = (r, w') →
            goup w' = goup w
            ∧ (r ≠ Ok tt → lookupPath target (fs w') = None)
            ∧ (r = Ok tt →
                 trace w' = trace w ++ [EvRemoveAll tmp; EvMkdirAll tmp;
                                        EvDownload url tmp;
                                        EvRename src target;
                                        EvRemoveAll tmp]
                 ∧ lookupPath target (fs w') = Some x)).
  { intros src x Hsrc Hx Hr.
    match type of Hr with _ ?w3 = _ =>
      destruct (install_staged src tmp target x w3 w' r Hap Hsrc Hx Hr Habs3)
        as (Hg & Hfail & Hok) end.
    split; [done|]. split; [done|]. intros Hr'.
    destruct (Hok Hr') as [Ht Hl]. split; [|done].
    rewrite Ht. cbn. apply Htrace. }
  assert (Hwhole : ∀ src,
            apart src target → lookupPath src n3 = Some (Dir content) →
            src = tmp →
            (∀ name inner, content ≠ {[name := Dir inner]}) →
            (os_Rename src target
             ≫= λ e, check e id
             ≫= λ _, os_RemoveAll tmp ≫= λ _, mret tt)
              {| goup := goup w; fs := n3; log := log w;
                 trace := ((trace w ++ [EvRemoveAll tmp])
                           ++ [EvMkdirAll tmp]) ++ [EvDownload url tmp] |}
            = (r, w') →
            goup w' = goup w
            ∧ (r ≠ Ok tt → lookupPath target (fs w') = None)
            ∧ (r = Ok tt →
               ∃ content0 src0,
                 (content, @None string) = (content0, None)
                 ∧ content0 ≠ ∅
                 ∧ trace w' = trace w ++ [EvRemoveAll tmp; EvMkdirAll tmp;
                                          EvDownload url tmp;
                                          EvRename src0 target;
                                          EvRemoveAll tmp]
                 ∧ ((∃ name inner, content0 = {[name := Dir inner]}
                                   ∧ src0 = Child tmp name
                                   ∧ lookupPath target (fs w')
                                     = Some (Dir inner))
                    ∨ ((∀ name inner, content0 ≠ {[name := Dir inner]})
                       ∧ src0 = tmp
                       ∧ lookupPath target (fs w') = Some (Dir content0))))
            ∧ (is_Some (mkdirAll tmp (fs w)) →
               (content, @None string) = (∅, None) →
               r = Err ("no files in resource: " +:+ ResourceString res)
               ∧ trace w' = trace w ++ [EvRemoveAll tmp; EvMkdirAll tmp;
                                        EvDownload url tmp])).
  { intros src Hsrc Hx -> Hns Hr.
    destruct (Hdone _ _ Hsrc Hx Hr) as (Hg & Hfail & Hok).
    split; [done|]. split; [done|]. split.
    - intros Hr'. destruct (Hok Hr') as [Ht Hl].
      exists content, tmp. split; [done|]. split; [done|]. split; [done|].
      right. by repeat split.
    - intros _ [= ->]. done. }
  destruct rest as [|second rest].
  - (* one entry *)
    apply map_to_list_single in El. subst content.
    destruct entry as [d|inner]; cbn [IsDir] in Hrun.
    + apply (Hwhole tmp); try done.
      all: intros name' inner Heq.
      all: assert (Hl : ({[name := File d]} : gmap string node) !! name'
                        = Some (Dir inner))
        by by rewrite Heq, lookup_singleton_eq.
      all: apply lookup_singleton_Some in Hl as [_ ?]; done.
    + assert (Hx : lookupPath (Child tmp name) n3 = Some (Dir inner)).
      { unfold Child. rewrite lookupPath_app, Hstaged. cbn.
        by rewrite lookup_singleton_eq. }
      pose proof (staging_entry_apart (goup w) res name) as Hsrc.
      fold target tmp in Hsrc.
      destruct (Hdone _ _ Hsrc Hx Hrun) as (Hg & Hfail & Hok).
      split; [done|]. split; [done|]. split.
      * intros Hr'. destruct (Hok Hr') as [Ht Hl].
        exists {[name := Dir inner]}, (Child tmp name).
        split; [done|]. split; [done|]. split; [done|].
        left. eauto.
      * intros _ Heq. exfalso. apply Hne. congruence.
  - (* several entries *)
    apply (Hwhole tmp); try done.
    all: intros name' inner ->; rewrite map_to_list_singleton in El; done.
Qed.

(** C6. Provisioning is idempotent by presence check: when the directory
    of the resource exists, the step makes no call at all (no download, no
    extraction, no change of the file system) and the directory it
    resolves to is the same; and a step that has provisioned the resource
    leaves the directory in place, so that a second step is of that kind. *)
Theorem ensureToolchain_idempotent (res : Resource) (w : World) :
  (Exists (toolchainDir (goup w) res) (fs w) = true →
     ∃ w', ensureToolchain res w = (Ok tt, w')
           ∧ goup w' = goup w ∧ fs w' = fs w ∧ trace w' = trace w
           ∧ toolchainDir (goup w') res = toolchainDir (goup w) res)
  ∧ (∀ w1, ensureToolchain res w = (Ok tt, w1) →
       toolchainDir (goup w1) res = toolchainDir (goup w) res
       ∧ Exists (toolchainDir (goup w1) res) (fs w1) = true
       ∧ ∃ w2, ensureToolchain res w1 = (Ok tt, w2)
               ∧ goup w2 = goup w1 ∧ fs w2 = fs w1 ∧ trace w2 = trace w1).
Proof.
  assert (Hpresent : ∀ v : World,
            Exists (toolchainDir (goup v) res) (fs v) = true →
            ∃ v', ensureToolchain res v = (Ok tt, v')
                  ∧ goup v' = goup v ∧ fs v' = fs v ∧ trace v' = trace v).
  { intros v Hex. unfold ensureToolchain.
    rewrite bind_run. unfold getGoup at 1. cbv iota beta zeta.
    rewrite bind_run. unfold pathExists at 1.
    rewrite bind_run. unfold getFs at 1. cbv iota beta.
    rewrite Hex. unfold mret, M_ret. cbv iota beta.
    unfold logger_Debug, logger. eauto. }
  split.
  - intros Hex. destruct (Hpresent w Hex) as (w' & Hrun & Hg & Hf & Ht).
    exists w'. repeat split; try done. by rewrite Hg.
  - intros w1 Hrun.
    assert (Hg : goup w1 = goup w ∧
                 Exists (toolchainDir (goup w1) res) (fs w1) = true).
    { destruct (Exists (toolchainDir (goup w) res) (fs w)) eqn:Hex.
      - destruct (Hpresent w Hex) as (w' & Hrun' & Hg & Hf & Ht).
        assert (w' = w1) as -> by congruence.
        split; [done|]. by rewrite Hg, Hf.
      - assert (Habs : lookupPath (toolchainDir (goup w) res) (fs w) = None).
        { unfold Exists in Hex. by destruct (lookupPath _ (fs w)). }
        destruct (ensureToolchain_absent res w Habs _ _ Hrun)
          as (Hg & _ & Hok & _).
        destruct (Hok eq_refl) as (content & src & _ & _ & _ & Hcase).
        split; [done|]. rewrite Hg. unfold Exists.
        destruct Hcase as [(? & ? & _ & _ & ->)|(_ & _ & ->)]; done. }
    destruct Hg as [Hg Hnow].
    split; [by rewrite Hg|]. split; [done|]. by apply Hpresent.
Qed.

(** C7, as amended.  When the directory of the resource is absent and the
    step succeeds, the archive was unpacked without error and was not
    empty; the directory then holds the content of the one top-level
    directory of the archive when there is exactly one top-level entry and
    it is a directory, and the content of the staging directory otherwise;
    it has come into existence by the one rename of the step, which moves
    that inner directory in the first case and the staging directory in
    the second; and when the step does not succeed the directory is still
    absent. *)
Theorem ensureToolchain_installs_by_one_rename
        (res : Resource) (w w' : World) (r : result unit) :
  let target := toolchainDir (goup w) res in
  let tmp := Suffix target ".tmp" in
  let url := Resource_Url res in
  lookupPath target (fs w) = None →
  ensureToolchain res w = (r, w') →
  (r = Ok tt →
     ∃ content src,
       fetchArchive url = (content, None) ∧ content ≠ ∅
       ∧ trace w' = trace w ++ [EvRemoveAll tmp; EvMkdirAll tmp;
                                EvDownload url tmp;
                                EvRename src target; EvRemoveAll tmp]
       ∧ ((∃ name inner, content = {[name := Dir inner]}
                         ∧ src = Child tmp name
                         ∧ lookupPath target (fs w') = Some (Dir inner))
          ∨ ((∀ name inner, content ≠ {[name := Dir inner]})
             ∧ src = tmp
             ∧ lookupPath target (fs w') = Some (Dir content))))
  ∧ (r ≠ Ok tt → lookupPath target (fs w') = None).
Proof.
  intros target tmp url Habs Hrun.
  destruct (ensureToolchain_absent res w Habs _ _ Hrun)
    as (_ & Hfail & Hok & _).
  by split.
Qed.

(** C8. When the directory of the resource is absent, the staging
    directory can be created and unpacking the archive yields no file, the
    step fails with the error "no files in resource" that names the
    resource; no rename is made and the directory of the resource is still
    absent afterwards, so a later run finds nothing to take for a
    provisioned toolchain. *)
Theorem ensureToolchain_empty_archive (res : Resource) (w : World) :
  let target := toolchainDir (goup w) res in
  let tmp := Suffix target ".tmp" in
  let url := Resource_Url res in
  lookupPath target (fs w) = None →
  is_Some (mkdirAll tmp (fs w)) →
  fetchArchive url = (∅, None) →
  ∃ w', ensureToolchain res w
        = (Err ("no files in resource: " +:+ ResourceString res), w')
        ∧ trace w' = trace w ++ [EvRemoveAll tmp; EvMkdirAll tmp;
                                 EvDownload url tmp]
        ∧ lookupPath target (fs w') = None
        ∧ Exists (toolchainDir (goup w') res) (fs w') = false.
Proof.
  intros target tmp url Habs Hcan Hempty.
  destruct (ensureToolchain res w) as [r w'] eqn:Hrun.
  destruct (ensureToolchain_absent res w Habs _ _ Hrun)
    as (Hg & Hfail & _ & Hnone).
  destruct (Hnone Hcan Hempty) as [-> Ht].
  assert (Hl : lookupPath target (fs w') = None) by by apply Hfail.
  exists w'. repeat split; try done.
  rewrite Hg. fold target. unfold Exists. by rewrite Hl.
Qed.

End Facts.

Lemma ensureToolchain_idempotent_witness :
  Exists (toolchainDir (goup Sample.provisioned) Sample.goRes)
         (fs Sample.provisioned) = true
  ∧ ∃ w', ensureToolchain Sample.goRes Sample.provisioned = (Ok tt, w')
          ∧ goup w' = goup Sample.provisioned
          ∧ fs w' = fs Sample.provisioned
          ∧ trace w' = trace Sample.provisioned
          ∧ toolchainDir (goup w') Sample.goRes
            = toolchainDir (goup Sample.provisioned) Sample.goRes.
Proof.
  split; [vm_compute; reflexivity|].
  apply (proj1 (ensureToolchain_idempotent Sample.goRes Sample.provisioned)).
  vm_compute. reflexivity.
Defined.

(** C7 as stated has the directory of the resource come into existence by
    a rename of the staging directory in both cases.  For an archive with
    one directory at the top the step renames that inner directory
    instead, and never the staging directory. *)
Lemma unwrap_renames_inner_directory :
  ¬ (∀ (C : Collaborators) (res : Resource) (w w' : World),
       lookupPath (toolchainDir (goup w) res) (fs w) = None →
       ensureToolchain res w = (Ok tt, w') →
       EvRename (Suffix (toolchainDir (goup w) res) ".tmp")
                (toolchainDir (goup w) res) ∈ trace w').
Proof.
  intros Hclaim.
  specialize (Hclaim Sample.collaborators Sample.goRes Sample.world
                     Sample.provisioned).
  assert (Hin : EvRename
                  (Suffix (toolchainDir (goup Sample.world) Sample.goRes)
                          ".tmp")
                  (toolchainDir (goup Sample.world) Sample.goRes)
                ∈ trace Sample.provisioned).
  { apply Hclaim; vm_compute; reflexivity. }
  vm_compute in Hin.
  repeat (apply elem_of_cons in Hin as [Hin|Hin]; [discriminate Hin|]).
  by apply elem_of_nil in Hin.
Qed.

Lemma ensureToolchain_installs_by_one_rename_witness :
  lookupPath (toolchainDir (goup Sample.world) Sample.goRes)
             (fs Sample.world) = None
  ∧ ensureToolchain Sample.goRes Sample.world = (Ok tt, Sample.provisioned)
  ∧ lookupPath (toolchainDir (goup Sample.world) Sample.goRes)
               (fs Sample.provisioned) = Some (Dir Sample.goTree).
Proof.
  assert (Habs : lookupPath (toolchainDir (goup Sample.world) Sample.goRes)
                            (fs Sample.world) = None)
    by (vm_compute; reflexivity).
  assert (Hrun : ensureToolchain Sample.goRes Sample.world
                 = (Ok tt, Sample.provisioned))
    by (vm_compute; reflexivity).
  split; [exact Habs|]. split; [exact Hrun|].
  destruct (ensureToolchain_installs_by_one_rename
              Sample.goRes Sample.world Sample.provisioned (Ok tt)
              Habs Hrun) as [Hok _].
  destruct (Hok eq_refl) as (content & src & Hfetch & _ & _ & Hcase).
  assert (content = {[ "go" := Dir Sample.goTree ]}) as ->.
  { vm_compute in Hfetch. by injection Hfetch as <-. }
  destruct Hcase as [(name & inner & Heq & _ & Hl)|(Hno & _ & _)].
  - assert (Hg : ({[name := Dir inner]} : gmap string node) !! "go"
                  = Some (Dir Sample.goTree))
      by by rewrite <- Heq, lookup_singleton_eq.
    apply lookup_singleton_Some in Hg as [_ Hg]. by rewrite <- Hg.
  - by destruct (Hno "go" Sample.goTree).
Defined.

Lemma ensureToolchain_empty_archive_witness :
  ∃ w', ensureToolchain Sample.ndkRes Sample.world
        = (Err "no files in resource: ndk-r19c", w')
        ∧ lookupPath (toolchainDir (goup Sample.world) Sample.ndkRes)
                     (fs w') = None.
Proof.
  destruct (ensureToolchain_empty_archive Sample.ndkRes Sample.world)
    as (w' & Hrun & _ & Hl & _).
  - vm_compute. reflexivity.
  - vm_compute. eexists. reflexivity.
  - vm_compute. reflexivity.
  - exists w'. split; [exact Hrun|exact Hl].
Defined.

End ToolchainFacts.

(* ===================================================================== *)
(** * Assembling the workspace *)
(* ===================================================================== *)

Module WorkspaceFacts.
Import FSFacts MonadFacts.
Section Facts.
Context `{Collaborators}.

(** Inverts a successful bind. *)
Lemma bind_Ok {A B : Type} (m : M A) (f : A → M B) (w w' : World) (b : B) :
  (m ≫= f) w = (Ok b, w') →
  ∃ a w1, m w = (Ok a, w1) ∧ f a w1 = (Ok b, w').
Proof.
  rewrite bind_run. destruct (m w) as [[a|e|e] w1]; [eauto|done|done].
Qed.

Lemma check_Ok (err : option string) (wrap : string → string) (w w' : World) :
  check err wrap w = (Ok tt, w') → err = None ∧ w' = w.
Proof. destruct err; cbn; [done|]. by intros [= <-]. Qed.

Lemma logger_Debug_run (f : Fields) (w : World) :
  logger_Debug f w
  = (Ok tt, {| goup := goup w; fs := fs w; log := log w ++ [(Debug, f)];
               trace := trace w |}).
Proof. done. Qed.

Lemma getModuleName_run (file : Path) (w : World) :
  ∃ r, getModuleName file w = (Ok r, w)
       ∧ r = match readFile file (fs w) with
             | None => inr ("open " +:+ String_ file +:+ ": no such file")
             | Some text =>
                 match parseGoMod text with
                 | Some name => inl name
                 | None => inr ("no module name in " +:+ String_ file)
                 end
             end.
Proof.
  unfold getModuleName. rewrite bind_run. unfold getFs. cbv iota beta.
  destruct (readFile file (fs w)) as [text|]; [|by eexists].
  destruct (parseGoMod text); by eexists.
Qed.

(** The name read from a go.mod file that is still there was the name
    before. *)
Lemma getModuleName_earlier (file : Path) (w1 w2 : World) (name : string) :
  (∀ d, lookupPath file (fs w2) = Some (File d) →
        lookupPath file (fs w1) = Some (File d)) →
  getModuleName file w2 = (Ok (inl name), w2) →
  getModuleName file w1 = (Ok (inl name), w1).
Proof.
  intros Hback H2.
  destruct (getModuleName_run file w2) as (r2 & E2 & Hr2).
  destruct (getModuleName_run file w1) as (r1 & E1 & Hr1).
  rewrite E1. rewrite E2 in H2. injection H2 as ->.
  unfold readFile in *.
  destruct (lookupPath file (fs w2)) as [[d|?]|] eqn:El; try done.
  rewrite (Hback d eq_refl) in Hr1. congruence.
Qed.

Lemma vendorDir_not_root (g : Goup) (name : string) : vendorDir g name ≠ [].
Proof.
  unfold vendorDir, Add. intros Heq. by apply app_nil in Heq as [_ ?].
Qed.

(** One step of the cleanup. *)
Lemma clearVendor_Ok (root : Path) (w w' : World) :
  clearVendor root w = (Ok tt, w') →
  goup w' = goup w
  ∧ ∃ name, getModuleName (Child root "go.mod") w = (Ok (inl name), w)
            ∧ removeAll (vendorDir (goup w) name) (fs w) = Some (fs w').
Proof.
  unfold clearVendor. intros Hrun.
  apply bind_Ok in Hrun as (g & w1 & Hg & Hrun).
  unfold getGoup in Hg. injection Hg as <- <-.
  apply bind_Ok in Hrun as (nm & w1 & Hnm & Hrun).
  destruct (getModuleName_run (Child root "go.mod") w) as (r & E & Hr).
  rewrite E in Hnm. injection Hnm as <- <-.
  destruct r as [name|e]; [|done].
  apply bind_Ok in Hrun as ([] & w1 & Hlog & Hrun).
  rewrite logger_Debug_run in Hlog. injection Hlog as <-.
  apply bind_Ok in Hrun as (e & w2 & Hrm & Hrun).
  match type of Hrm with os_RemoveAll ?p ?w0 = _ =>
    destruct (os_RemoveAll_run p w0) as (e' & n' & E' & Hcase) end.
  rewrite E' in Hrm. injection Hrm as <- <-.
  apply check_Ok in Hrun as [-> ->]. cbn.
  split; [done|]. exists name. split; [done|].
  destruct Hcase as [[Hr' _]|(_ & _ & ?)]; done.
Qed.

(** The cleanup pass: it only removes, and it removes the vendor directory
    of every module root. *)
Lemma cleanup_Ok (roots : list Path) (w w' : World) :
  forEach clearVendor roots w = (Ok tt, w') →
  goup w' = goup w
  ∧ (∀ q d, lookupPath q (fs w') = Some (File d) →
            lookupPath q (fs w) = Some (File d))
  ∧ (∀ q, lookupPath q (fs w) = None → lookupPath q (fs w') = None)
  ∧ ∀ root, root ∈ roots →
      ∃ name, getModuleName (Child root "go.mod") w = (Ok (inl name), w)
              ∧ lookupPath (vendorDir (goup w) name) (fs w') = None.
Proof.
  revert w. induction roots as [|r rs IH]; intros w Hrun.
  - cbn in Hrun. injection Hrun as <-.
    repeat split; try done. intros root Hin. by apply elem_of_nil in Hin.
  - cbn [forEach] in Hrun.
    apply bind_Ok in Hrun as ([] & w1 & Hone & Hrest).
    apply clearVendor_Ok in Hone as (Hg1 & name & Hname & Hrm).
    destruct (IH _ Hrest) as (Hg & Hback & Hnone & Hall).
    split; [congruence|]. split; [|split].
    + intros q d Hq. apply Hback in Hq.
      by apply (removeAll_File _ _ _ _ _ Hrm).
    + intros q Hq. apply Hnone. by apply (removeAll_None _ _ _ _ Hrm).
    + intros root Hin. apply elem_of_cons in Hin as [->|Hin].
      * exists name. split; [done|]. apply Hnone.
        apply (removeAll_under _ _ _ _ Hrm); [|done].
        apply vendorDir_not_root.
      * destruct (Hall root Hin) as (name' & Hname' & Hgone).
        exists name'. split; [|by rewrite <- Hg1].
        apply (getModuleName_earlier _ w w1); [|done].
        intros d. by apply (removeAll_File _ _ _ _ _ Hrm).
Qed.

(** A module that is resolved adds its root to the list. *)
Lemma resolveModule_roots
      (acc acc' : gmap string (VendoredModule Version) * list Path)
      (modPath : string) (w w' : World) :
  resolveModule acc modPath w = (Ok acc', w') →
  ∃ root, acc'.2 = acc.2 ++ [root].
Proof.
  unfold resolveModule. intros Hrun.
  apply bind_Ok in Hrun as (g & w1 & _ & Hrun).
  apply bind_Ok in Hrun as (present & w2 & _ & Hrun).
  apply bind_Ok in Hrun as (root & w3 & _ & Hrun).
  exists root.
  apply bind_Ok in Hrun as (? & ? & _ & Hrun).
  apply bind_Ok in Hrun as (nm & ? & _ & Hrun).
  destruct nm as [modName|e]; [|done].
  do 10 (apply bind_Ok in Hrun as (? & ? & _ & Hrun)).
  apply bind_Ok in Hrun as (ms & ? & _ & Hrun).
  destruct ms as [modules|e]; [|done].
  apply bind_Ok in Hrun as (deps & ? & _ & Hrun).
  by injection Hrun as <- <-.
Qed.

Lemma resolveModules_roots
      (modules : list string)
      (acc acc' : gmap string (VendoredModule Version) * list Path)
      (w w' : World) :
  foldM resolveModule acc modules w = (Ok acc', w') →
  length acc'.2 = length acc.2 + length modules.
Proof.
  revert acc w. induction modules as [|m ms IH]; intros acc w Hrun.
  - cbn in Hrun. injection Hrun as <- <-. cbn. lia.
  - cbn [foldM] in Hrun. apply bind_Ok in Hrun as (acc1 & w1 & H1 & Hrun).
    apply resolveModule_roots in H1 as [root Hroot].
    rewrite (IH _ _ Hrun), Hroot, length_app. cbn. lia.
Qed.


End Facts.


(** The scenario of the design document on the sample project: [pkg/x] is
    declared at 1.0.0 by module [a] and at 1.2.0 by module [b]; the
    workspace holds the 1.2.0 tree at [pkg/x], and neither copy keeps a
    vendor directory. *)
Lemma scenario_highest_version_promoted :
  let w' := (copyModulesToWorkspace Sample.world).2 in
  (copyModulesToWorkspace Sample.world).1 = Ok tt
  ∧ lookupPath (Sample.workspace ["pkg"; "x"]) (fs w')
    = Some (Sample.xTree "v1.2.0")
  ∧ lookupPath (Sample.workspace ["example.com"; "a"; "vendor"]) (fs w')
    = None
  ∧ lookupPath (Sample.workspace ["example.com"; "b"; "vendor"]) (fs w')
    = None.
Proof. vm_compute. by repeat split. Qed.

(** C1. The promote step does not keep to the target location of the
    entry: it calls RemoveAll on the parent of that location.  On the
    sample vendor tree, with the two dependencies [golang.org/x/sys] and
    [golang.org/x/text], the loop ends without error in either order, and
    the dependency that was promoted first is no longer in the workspace:
    promoting the second has removed it with the common parent
    directory.  So it is for the whole of copyModulesToWorkspace on the
    project whose module declares these two dependencies: it returns
    without error and one of the two is missing from the workspace. *)
Theorem promote_removes_promoted_sibling :
  let target := λ dep : VendoredModule Sample.semver,
                  workspaceDir Sample.builder (ModuleName dep) in
  let run := λ order, forEach promote order Sample.assembling in
  (run [Sample.sys; Sample.text]).1 = Ok tt
  ∧ trace (run [Sample.sys; Sample.text]).2
    = [EvRemoveAll (Parent (target Sample.sys));
       EvMkdirAll (Parent (target Sample.sys));
       EvRename (Local Sample.sys) (target Sample.sys);
       EvRemoveAll (Parent (target Sample.text));
       EvMkdirAll (Parent (target Sample.text));
       EvRename (Local Sample.text) (target Sample.text)]
  ∧ Parent (target Sample.sys) = Parent (target Sample.text)
  ∧ lookupPath (target Sample.sys) (fs (run [Sample.sys; Sample.text]).2)
    = None
  ∧ Exists (target Sample.text) (fs (run [Sample.sys; Sample.text]).2)
    = true
  ∧ (run [Sample.text; Sample.sys]).1 = Ok tt
  ∧ lookupPath (target Sample.text) (fs (run [Sample.text; Sample.sys]).2)
    = None
  ∧ Exists (target Sample.sys) (fs (run [Sample.text; Sample.sys]).2)
    = true
  ∧ (copyModulesToWorkspace Sample.siblings).1 = Ok tt
  ∧ Exists (target Sample.sys)
           (fs (copyModulesToWorkspace Sample.siblings).2) = false
  ∧ Exists (target Sample.text)
           (fs (copyModulesToWorkspace Sample.siblings).2) = true.
Proof. vm_compute. by repeat split. Qed.

End WorkspaceFacts.

(* ===================================================================== *)
(** * The properties on the sample project *)
(* ===================================================================== *)

Module SampleFacts.

Lemma newer_spec (a b : Sample.semver) :
  Sample.newer a b = true
  ↔ b.1.1 < a.1.1
    ∨ (a.1.1 = b.1.1
       ∧ (b.1.2 < a.1.2 ∨ (a.1.2 = b.1.2 ∧ b.2 < a.2))).
Proof.
  destruct a as [[a1 a2] a3], b as [[b1 b2] b3]. unfold Sample.newer.
  cbn -[Nat.ltb Nat.eqb].
  rewrite !orb_true_iff, !andb_true_iff, !orb_true_iff, !andb_true_iff.
  rewrite !Nat.ltb_lt, !Nat.eqb_eq. tauto.
Qed.

Lemma semver_order : @totalVersionOrder Sample.collaborators.
Proof.
  unfold totalVersionOrder. cbn [IsNewer Version Sample.collaborators].
  split; [|split].
  - intros v. apply not_true_iff_false. rewrite newer_spec. lia.
  - intros a b c. rewrite !newer_spec. lia.
  - intros [[a1 a2] a3] [[b1 b2] b3]. rewrite !newer_spec. cbn.
    destruct (decide (a1 = b1)) as [->|]; [|right; lia].
    destruct (decide (a2 = b2)) as [->|]; [|right; lia].
    destruct (decide (a3 = b3)) as [->|]; [by left|right; lia].
Qed.

Lemma hasBuild_section_present_witness :
  hasAndroidBuild Sample.builder = Ok true
  ∧ hasIosBuild Sample.builder = Ok true.
Proof.
  apply (PredicateFacts.hasBuild_section_present
           Sample.builder {| Build_Gomobile := Some Sample.section |}
           Sample.section); reflexivity.
Defined.

Lemma hasBuild_section_nil_witness :
  hasAndroidBuild (Sample.withSection None)
  = Panic "nil pointer dereference: config.Build.Gomobile"
  ∧ hasIosBuild (Sample.withSection None)
    = Panic "nil pointer dereference: config.Build.Gomobile".
Proof.
  destruct (PredicateFacts.hasBuild_section_nil (Sample.withSection None))
    as (_ & _ & Hnil & _).
  apply (Hnil {| Build_Gomobile := None |}); reflexivity.
Defined.

Lemma loadResources_refresh_policy_witness :
  let run := Snapshot.loadResources Sample.clock in
  Snapshot.calls
    (run Sample.reachable (λ _, Snapshot.Written) Sample.noCatalog
         Sample.arguments Sample.freshDisk).2 = []
  ∧ Snapshot.calls
      (run Sample.reachable (λ _, Snapshot.Written) Sample.noCatalog
           Sample.arguments Sample.staleDisk).2
    = [Snapshot.OsRemove;
       Snapshot.HttpGet "https://dl.example.org/resources.xml";
       Snapshot.WriteFile "new"]
  ∧ Snapshot.snapshot
      (run Sample.unreachable (λ _, Snapshot.Written) Sample.noCatalog
           Sample.arguments Sample.staleDisk).2 = None.
Proof.
  intros run. split; [|split].
  - destruct (SnapshotFacts.loadResources_refresh_policy
                Sample.clock Sample.reachable (λ _, Snapshot.Written)
                Sample.noCatalog Sample.arguments Sample.freshDisk)
      as [Hfresh _].
    destruct (Hfresh _ eq_refl) as (Hcalls & _ & _); [|exact Hcalls].
    vm_compute. discriminate.
  - destruct (SnapshotFacts.loadResources_refresh_policy
                Sample.clock Sample.reachable (λ _, Snapshot.Written)
                Sample.noCatalog Sample.arguments Sample.staleDisk)
      as [_ Hstale].
    destruct Hstale as (_ & _ & Hbody & _).
    + right. eexists. split; [reflexivity|]. vm_compute. reflexivity.
    + destruct (Hbody "new" eq_refl eq_refl) as [Hcalls _]. exact Hcalls.
  - destruct (SnapshotFacts.loadResources_refresh_policy
                Sample.clock Sample.unreachable (λ _, Snapshot.Written)
                Sample.noCatalog Sample.arguments Sample.staleDisk)
      as [_ Hstale].
    destruct Hstale as (_ & _ & _ & Hfail).
    + right. eexists. split; [reflexivity|]. vm_compute. reflexivity.
    + destruct (Hfail "dial tcp: no route to host") as (_ & Hgone & _);
        [by left|exact Hgone].
Defined.


End SampleFacts.

(* ===================================================================== *)
(** * What the computations of the builder leave alone *)
(* ===================================================================== *)

Module FrameFacts.
Import FSFacts MonadFacts.

Section Generic.
Context {R : World → World → Prop} `{!PreOrder R}.

Lemma respects_ret {A : Type} (a : A) : respects R (mret a).
Proof. intros w r w' [= <- <-]. reflexivity. Qed.

Lemma respects_fail {A : Type} (msg : string) : respects R (@fail A msg).
Proof. intros w r w' [= <- <-]. reflexivity. Qed.

Lemma respects_panic {A : Type} (msg : string) : respects R (@panic A msg).
Proof. intros w r w' [= <- <-]. reflexivity. Qed.

Lemma respects_liftR {A : Type} (x : result A) : respects R (liftR x).
Proof. intros w r w' [= <- <-]. reflexivity. Qed.

Lemma respects_getGoup : respects R getGoup.
Proof. intros w r w' [= <- <-]. reflexivity. Qed.

Lemma respects_getFs : respects R getFs.
Proof. intros w r w' [= <- <-]. reflexivity. Qed.

Lemma respects_bind {A B : Type} (m : M A) (f : A → M B) :
  respects R m → (∀ a, respects R (f a)) → respects R (m ≫= f).
Proof.
  intros Hm Hf w r w' Hrun. rewrite bind_run in Hrun.
  destruct (m w) as [[a|e|e] w1] eqn:E.
  - transitivity w1; [by eapply Hm|by eapply Hf].
  - injection Hrun as <- <-. by eapply Hm.
  - injection Hrun as <- <-. by eapply Hm.
Qed.

Lemma respects_check (err : option string) (wrap : string → string) :
  respects R (check err wrap).
Proof. destruct err; [apply respects_fail|apply respects_ret]. Qed.

Lemma respects_must (err : option string) : respects R (must err).
Proof. destruct err; [apply respects_panic|apply respects_ret]. Qed.

Lemma respects_forEach {A : Type} (f : A → M unit) (l : list A) :
  (∀ x, respects R (f x)) → respects R (forEach f l).
Proof.
  intros Hf. induction l as [|x l IH]; [apply respects_ret|].
  cbn [forEach]. apply respects_bind; [apply Hf|by intros _].
Qed.

Lemma respects_foldM {A B : Type} (f : B → A → M B) (l : list A) (b : B) :
  (∀ b x, respects R (f b x)) → respects R (foldM f b l).
Proof.
  intros Hf. revert b. induction l as [|x l IH]; intros b;
    [apply respects_ret|].
  cbn [foldM]. apply respects_bind; [apply Hf|intros b'; apply IH].
Qed.

Lemma respects_wrapping {A : Type} (wrap : string → string) (m : M A) :
  respects R m → respects R (wrapping wrap m).
Proof.
  intros Hm w r w' Hrun. unfold wrapping in Hrun.
  destruct (m w) as [[a|e|e] w1] eqn:E; injection Hrun as <- <-;
    by eapply Hm.
Qed.

Lemma respects_pathExists (p : Path) : respects R (pathExists p).
Proof.
  unfold pathExists. apply respects_bind; [apply respects_getFs|].
  intros n. apply respects_ret.
Qed.

Lemma respects_ReadDir (p : Path) : respects R (ioutil_ReadDir p).
Proof.
  intros w r w'. rewrite ioutil_ReadDir_run. intros [= <- <-]. reflexivity.
Qed.

End Generic.

(** The structure of a computation is followed down to its calls, which
    [leaf] has to settle. *)
Ltac frame_with leaf :=
  repeat first
    [ leaf
    | apply respects_ret | apply respects_fail | apply respects_panic
    | apply respects_liftR | apply respects_getGoup | apply respects_getFs
    | apply respects_check | apply respects_must
    | apply respects_pathExists | apply respects_ReadDir
    | apply respects_forEach; intros ?
    | apply respects_foldM; intros ? ?
    | apply respects_wrapping
    | apply respects_bind; [|intros ?]
    | progress lazy zeta
    | case_match ].

Global Instance sameGoup_preorder : PreOrder sameGoup.
Proof.
  split; [by intros w|]. intros w1 w2 w3 H1 H2. unfold sameGoup in *.
  congruence.
Qed.

Global Instance sameSetup_preorder : PreOrder sameSetup.
Proof.
  split; [by intros w|].
  intros w1 w2 w3 (?&?&?&?) (?&?&?&?). unfold sameSetup.
  repeat split; congruence.
Qed.

Lemma sameGoup_sameSetup (w w' : World) : sameGoup w w' → sameSetup w w'.
Proof. unfold sameGoup, sameSetup. by intros ->. Qed.

Lemma respects_weaken {A : Type} (R S : World → World → Prop) (m : M A) :
  (∀ w w', R w w' → S w w') → respects R m → respects S m.
Proof. intros HRS Hm w r w' Hrun. by eapply HRS, Hm. Qed.

Section SameGoup.
Context `{Collaborators}.

Lemma sameGoup_putFs (n : node) : respects sameGoup (putFs n).
Proof. by intros w r w' [= <- <-]. Qed.

Lemma sameGoup_emit (e : Event) : respects sameGoup (emit e).
Proof. by intros w r w' [= <- <-]. Qed.

Lemma sameGoup_logger (l : Level) (f : Fields) : respects sameGoup (logger l f).
Proof. by intros w r w' [= <- <-]. Qed.

Ltac leaf := first [ apply sameGoup_putFs | apply sameGoup_emit
                   | apply sameGoup_logger ].

Lemma sameGoup_RemoveAll (p : Path) : respects sameGoup (os_RemoveAll p).
Proof. unfold os_RemoveAll. frame_with leaf. Qed.

Lemma sameGoup_MkdirAll (p : Path) : respects sameGoup (os_MkdirAll p).
Proof. unfold os_MkdirAll. frame_with leaf. Qed.

Lemma sameGoup_Rename (old new : Path) : respects sameGoup (os_Rename old new).
Proof. unfold os_Rename. frame_with leaf. Qed.

Lemma sameGoup_downloadAndUnpack (url : string) (dir : Path) :
  respects sameGoup (downloadAndUnpack url dir).
Proof. unfold downloadAndUnpack. frame_with leaf. Qed.

Lemma sameGoup_CopyDir (src dst : Path) : respects sameGoup (CopyDir src dst).
Proof. unfold CopyDir. frame_with leaf. Qed.

Lemma sameGoup_getModuleName (file : Path) :
  respects sameGoup (getModuleName file).
Proof. unfold getModuleName. frame_with leaf. Qed.

Lemma sameGoup_ParseModulesTxT (file : Path) :
  respects sameGoup (ParseModulesTxT file).
Proof. unfold ParseModulesTxT. frame_with leaf. Qed.

Lemma sameGoup_collect deps (m : VendoredModule Version) :
  respects sameGoup (collect deps m).
Proof. unfold collect, logger_Debug. frame_with leaf. Qed.

(** [Run] leaves the struct alone, whatever the process does. *)
Lemma sameGoup_Run (name : string) (arguments : list string) :
  respects sameGoup (Run name arguments).
Proof. unfold Run, logger_Debug, logger_Error. frame_with leaf. Qed.

Lemma sameGoup_ensureToolchain (res : Resource) :
  respects sameGoup (ensureToolchain res).
Proof.
  unfold ensureToolchain, logger_Debug.
  frame_with ltac:(first [ leaf | apply sameGoup_RemoveAll
                         | apply sameGoup_MkdirAll | apply sameGoup_Rename
                         | apply sameGoup_downloadAndUnpack ]).
Qed.

Lemma sameGoup_promote (dep : VendoredModule Version) :
  respects sameGoup (promote dep).
Proof.
  unfold promote, logger_Debug.
  frame_with ltac:(first [ leaf | apply sameGoup_RemoveAll
                         | apply sameGoup_MkdirAll | apply sameGoup_Rename ]).
Qed.

Lemma sameGoup_clearVendor (root : Path) : respects sameGoup (clearVendor root).
Proof.
  unfold clearVendor, logger_Debug.
  frame_with ltac:(first [ leaf | apply sameGoup_RemoveAll
                         | apply sameGoup_getModuleName ]).
Qed.

End SameGoup.

End FrameFacts.

(* ===================================================================== *)
(** * Targets, the environment and the processes *)
(* ===================================================================== *)

Module EnvironFacts.
Import FSFacts MonadFacts FrameFacts.
Section Facts.
Context `{Collaborators}.

(** X1. hasTarget holds exactly when the target, or "all", is among the
    targets of the arguments. *)
Theorem hasTarget_iff (g : Goup) (target : string) :
  hasTarget g target = true
  ↔ target ∈ Args_Targets (args g) ∨ "all" ∈ Args_Targets (args g).
Proof.
  unfold hasTarget. induction (Args_Targets (args g)) as [|s ts IH]; cbn.
  - split; [done|]. intros [Hin|Hin]; by apply elem_of_nil in Hin.
  - destruct (bool_decide (s = target)) eqn:Es; cbn.
    + apply bool_decide_eq_true in Es as ->.
      split; [|done]. intros _. left. apply list_elem_of_here.
    + apply bool_decide_eq_false in Es.
      destruct (bool_decide (s = "all")) eqn:Ea; cbn.
      * apply bool_decide_eq_true in Ea as ->.
        split; [|done]. intros _. right. apply list_elem_of_here.
      * apply bool_decide_eq_false in Ea. rewrite IH.
        rewrite !elem_of_cons.
        split; [intros [?|?]; eauto|].
        intros [[?|?]|[?|?]]; eauto; congruence.
Qed.

Lemma setEnv_run (key val : string) (w : World) :
  setEnv key val w
  = (Ok tt,
     {| goup := {| args := args (goup w); config := config (goup w);
                   buildDir := buildDir (goup w);
                   resources := resources (goup w);
                   env := <[key := val]> (env (goup w));
                   cwd := cwd (goup w) |};
        fs := fs w;
        log := log w ++ [(Debug, [("$export", "env"); (key, val)])];
        trace := trace w |}).
Proof. done. Qed.

Lemma chdir_run (path : Path) (w : World) :
  chdir path w
  = (Ok tt,
     {| goup := {| args := args (goup w); config := config (goup w);
                   buildDir := buildDir (goup w);
                   resources := resources (goup w);
                   env := env (goup w); cwd := path |};
        fs := fs w;
        log := log w ++ [(Debug, [("cd", String_ path)])];
        trace := trace w |}).
Proof. done. Qed.

(** What [Run] adds to the trace: the one process it spawns. *)
Lemma Run_trace (name : string) (arguments : list string) (w : World) :
  ∃ r w', Run name arguments w = (Ok r, w')
          ∧ goup w' = goup w
          ∧ r.2 = (spawn name arguments (processEnv (env (goup w)))
                         (cwd (goup w)) (fs w)).1.2
          ∧ fs w' = (spawn name arguments (processEnv (env (goup w)))
                           (cwd (goup w)) (fs w)).2
          ∧ trace w' = trace w ++ [EvExec name arguments
                                          (processEnv (env (goup w)))
                                          (cwd (goup w))].
Proof.
  unfold Run, processEnv.
  unfold mbind, M_bind, getGoup, getFs, logger_Debug, logger_Error, logger,
    emit, putFs, mret, M_ret. cbn.
  destruct (spawn name arguments _ (cwd (goup w)) (fs w))
    as [[out err] n'] eqn:Er. cbn.
  destruct err as [e|]; cbn.
  - pose proof (RunFacts.forEach_logger Error (Split out newline)) as Hl.
    unfold logger in Hl. rewrite Hl. cbn. eexists _, _. by repeat split.
  - pose proof (RunFacts.forEach_logger Debug (Split out newline)) as Hl.
    unfold logger in Hl. rewrite Hl. cbn. eexists _, _. by repeat split.
Qed.

(** X2. A variable set by setEnv is in the environment of the process
    that [Run] spawns next, as key=value; it is the only entry of that
    key, a former value being replaced, and the entries of the other
    variables are as before. *)
Theorem setEnv_reaches_process (key val name : string)
        (arguments : list string) (w : World) :
  ∃ r w' e dir,
    (setEnv key val;; Run name arguments) w = (Ok r, w')
    ∧ trace w' = trace w ++ [EvExec name arguments e dir]
    ∧ e = processEnv (<[key := val]> (env (goup w)))
    ∧ dir = cwd (goup w)
    ∧ key +:+ "=" +:+ val ∈ e
    ∧ env (goup w') !! key = Some val
    ∧ (∀ k v, k ≠ key →
         (env (goup w) !! k = Some v ↔ env (goup w') !! k = Some v))
    ∧ (∀ k v, (k, v) ∈ map_to_list (env (goup w')) → k = key → v = val).
Proof.
  rewrite bind_run, setEnv_run.
  match goal with |- context [Run name arguments ?w1] =>
    destruct (Run_trace name arguments w1) as (r & w' & -> & Hg & _ & _ & Ht)
  end.
  cbn [goup env cwd trace] in *.
  exists r, w', (processEnv (<[key := val]> (env (goup w)))), (cwd (goup w)).
  rewrite Hg. cbn. repeat split; try done.
  - unfold processEnv. apply list_elem_of_fmap.
    exists (key, val). split; [done|].
    apply elem_of_map_to_list. by rewrite lookup_insert_eq.
  - by rewrite lookup_insert_eq.
  - by rewrite lookup_insert_ne.
  - by rewrite lookup_insert_ne.
  - intros k v Hin ->. apply elem_of_map_to_list in Hin.
    rewrite lookup_insert_eq in Hin. congruence.
Qed.

(** ** The environment read by NewGoup *)

Lemma Split_append (k rest : string) (sep : ascii) :
  Split k sep = [k] →
  Split (k +:+ String sep rest) sep = k :: Split rest sep.
Proof.
  induction k as [|c k IH]; intros Hk.
  - change ("" +:+ String sep rest) with (String sep rest).
    cbn. by rewrite decide_True.
  - cbn in Hk.
    change (String c k +:+ String sep rest)
      with (String c (k +:+ String sep rest)).
    cbn. destruct (decide (c = sep)) as [->|Hne].
    + pose proof (TextFacts.Split_nonempty k sep).
      destruct (Split k sep); [done|]. discriminate Hk.
    + destruct (Split k sep) as [|l ls] eqn:E.
      * by destruct (TextFacts.Split_nonempty k sep).
      * injection Hk as -> ->. by rewrite IH.
Qed.

(** One entry of the environment, as the loop of NewGoup takes it. *)
Lemma environ_entry (e : string) (w : World) :
  match Split e equals with
  | key :: val :: _ => setEnv key val
  | _ => panic "index out of range [1] with length 1"
  end w
  = match Split e equals with
    | key :: val :: _ => setEnv key val w
    | _ => (Panic "index out of range [1] with length 1", w)
    end.
Proof. by destruct (Split e equals) as [|? [|? ?]]. Qed.

Lemma environ_loop (environ : list string) (w : World) :
  (∀ e, e ∈ environ → ∃ key val rest, Split e equals = key :: val :: rest) →
  ∃ w', forEach (λ e, match Split e equals with
                      | key :: val :: _ => setEnv key val
                      | _ => panic "index out of range [1] with length 1"
                      end) environ w = (Ok tt, w')
        ∧ fs w' = fs w ∧ trace w' = trace w ∧ sameSetup w w'
        ∧ cwd (goup w') = cwd (goup w)
        ∧ env (goup w')
          = foldl (λ m e, match Split e equals with
                          | key :: val :: _ => <[key := val]> m
                          | _ => m
                          end) (env (goup w)) environ.
Proof.
  revert w. induction environ as [|e es IH]; intros w Hall.
  - eexists. cbn. by repeat split.
  - cbn [forEach foldl]. rewrite bind_run, environ_entry.
    destruct (Hall e) as (key & val & rest & ->); [apply list_elem_of_here|].
    rewrite setEnv_run.
    match goal with |- context [forEach _ es ?w1] =>
      destruct (IH w1) as (w' & -> & Hf & Ht & Hs & Hc & He) end.
    { intros e' Hin. apply Hall. by apply list_elem_of_further. }
    exists w'. unfold sameSetup in *. cbn in *.
    destruct Hs as (?&?&?&?). by repeat split.
Qed.

(** X3. When every entry of the environment has an "=", NewGoup's loop
    ends without a panic and makes no system call; a key is then bound to
    the piece between the first and the second "=" of the last entry that
    begins with the key, so a value that has an "=" in it is cut there;
    and nothing is bound that no entry gave. *)
Theorem NewGoup_environ_imports (environ : list string) (w : World) :
  (∀ e, e ∈ environ → ∃ key val rest, Split e equals = key :: val :: rest) →
  ∃ w', NewGoup_environ environ w = (Ok tt, w')
        ∧ fs w' = fs w ∧ trace w' = trace w ∧ sameSetup w w'
        ∧ (∀ before e after key val rest,
             environ = before ++ e :: after →
             Split e equals = key :: val :: rest →
             (∀ e', e' ∈ after → head (Split e' equals) ≠ Some key) →
             env (goup w') !! key = Some val)
        ∧ (∀ key val, env (goup w') !! key = Some val →
             ∃ e rest, e ∈ environ ∧ Split e equals = key :: val :: rest)
        ∧ (∀ key v1 v2,
             Split key equals = [key] → Split v1 equals = [v1] →
             Split (key +:+ String equals (v1 +:+ String equals v2)) equals
             = key :: v1 :: Split v2 equals).
Proof.
  intros Hall. unfold NewGoup_environ. rewrite bind_run.
  unfold withGoup at 1. cbv iota beta.
  match goal with |- context [forEach _ environ ?w1] =>
    destruct (environ_loop environ w1 Hall)
      as (w' & -> & Hf & Ht & Hs & Hc & He) end.
  cbn [goup env fs trace] in *.
  exists w'. split; [done|]. split; [done|]. split; [done|].
  split; [exact Hs|]. rewrite He. clear.
  set (ins := λ (m : gmap string string) (e : string),
                match Split e equals with
                | key :: val :: _ => <[key := val]> m
                | _ => m
                end).
  split; [|split].
  - intros before e after key val rest -> Hsplit Hafter.
    rewrite foldl_app. cbn [foldl].
    assert (Hkeep : ∀ m : gmap string string,
               m !! key = Some val → foldl ins m after !! key = Some val).
    { induction after as [|e' es IH]; intros m Hm; [done|].
      cbn [foldl]. apply IH.
      { intros e2 Hin. apply Hafter. by apply list_elem_of_further. }
      unfold ins.
      assert (Hh : head (Split e' equals) ≠ Some key)
        by apply Hafter, list_elem_of_here.
      destruct (Split e' equals) as [|k' [|v' ?]]; try done.
      rewrite lookup_insert_ne; [done|]. cbn in Hh. congruence. }
    apply Hkeep. unfold ins at 1. rewrite Hsplit.
    by rewrite lookup_insert_eq.
  - intros key val.
    assert (Hgen : ∀ m : gmap string string,
               foldl ins m environ !! key = Some val →
               m !! key = Some val
               ∨ ∃ e rest, e ∈ environ
                           ∧ Split e equals = key :: val :: rest).
    { induction environ as [|e es IH]; intros m Hm; [by left|].
      cbn [foldl] in Hm. apply IH in Hm as [Hm|(e' & rest & Hin & Hs)].
      - unfold ins in Hm.
        destruct (Split e equals) as [|k' [|v' rest]] eqn:Es; eauto.
        destruct (decide (k' = key)) as [->|Hne].
        + rewrite lookup_insert_eq in Hm. injection Hm as ->.
          right. exists e, rest. split; [apply list_elem_of_here|done].
        + rewrite lookup_insert_ne in Hm by done. by left.
      - right. exists e', rest. split; [by apply list_elem_of_further|done]. }
    intros Hm. apply Hgen in Hm as [Hm|?]; [|done].
    by rewrite lookup_empty in Hm.
  - intros key v1 v2 Hk Hv.
    by rewrite (Split_append key _ _ Hk), (Split_append v1 _ _ Hv).
Qed.

(** X4. An entry of the environment without any "=" makes NewGoup's loop
    panic on [pair[1]], once the entries before it have been taken. *)
Theorem NewGoup_environ_panics (before after : list string) (e : string)
        (w : World) :
  (∀ e', e' ∈ before →
         ∃ key val rest, Split e' equals = key :: val :: rest) →
  Split e equals = [e] →
  ∃ w', NewGoup_environ (before ++ e :: after) w
        = (Panic "index out of range [1] with length 1", w')
        ∧ fs w' = fs w ∧ trace w' = trace w.
Proof.
  intros Hall He. unfold NewGoup_environ. rewrite bind_run.
  unfold withGoup at 1. cbv iota beta.
  match goal with |- context [forEach ?f _ ?w1] =>
    set (step := f); set (w0 := w1) end.
  assert (Hgen : ∀ v : World,
             (∀ e', e' ∈ before →
                    ∃ key val rest, Split e' equals = key :: val :: rest) →
             ∃ v', forEach step (before ++ e :: after) v
                   = (Panic "index out of range [1] with length 1", v')
                   ∧ fs v' = fs v ∧ trace v' = trace v).
  { clear Hall. induction before as [|b bs IH]; intros v Hall.
    - cbn [app forEach]. rewrite bind_run. unfold step.
      rewrite environ_entry, He. eauto.
    - cbn [app forEach]. rewrite bind_run. unfold step at 1.
      rewrite environ_entry.
      destruct (Hall b) as (key & val & rest & ->);
        [apply list_elem_of_here|].
      rewrite setEnv_run.
      match goal with |- context [forEach step _ ?v1] =>
        destruct (IH v1) as (v' & -> & Hf & Ht) end.
      { intros e' Hin. apply Hall. by apply list_elem_of_further. }
      exists v'. by repeat split. }
  destruct (Hgen w0 Hall) as (w' & -> & Hf & Ht). by exists w'.
Qed.

End Facts.
End EnvironFacts.

(* ===================================================================== *)
(** * The stages of the build *)
(* ===================================================================== *)

Module StageFacts.
Import FSFacts MonadFacts FrameFacts EnvironFacts.
Section Facts.
Context `{Collaborators}.

Lemma sameSetup_withEnv (f : Goup → Goup) :
  (∀ g, args (f g) = args g ∧ config (f g) = config g
        ∧ buildDir (f g) = buildDir g ∧ resources (f g) = resources g) →
  respects sameSetup (withGoup f).
Proof. intros Hf w r w' [= <- <-]. unfold sameSetup. cbn. apply Hf. Qed.

Lemma sameSetup_setEnv (key val : string) : respects sameSetup (setEnv key val).
Proof. intros w r w'. rewrite setEnv_run. by intros [= <- <-]. Qed.

Lemma sameSetup_chdir (path : Path) : respects sameSetup (chdir path).
Proof. intros w r w'. rewrite chdir_run. by intros [= <- <-]. Qed.

Lemma sameSetup_of_sameGoup {A : Type} (m : M A) :
  respects sameGoup m → respects sameSetup m.
Proof. apply respects_weaken, sameGoup_sameSetup. Qed.

Ltac setup_leaf :=
  first [ apply sameSetup_setEnv | apply sameSetup_chdir
        | apply sameSetup_of_sameGoup;
          first [ apply sameGoup_logger | apply sameGoup_Run
                | apply sameGoup_RemoveAll | apply sameGoup_MkdirAll
                | apply sameGoup_Rename | apply sameGoup_CopyDir
                | apply sameGoup_getModuleName
                | apply sameGoup_ParseModulesTxT | apply sameGoup_collect
                | apply sameGoup_ensureToolchain | apply sameGoup_promote
                | apply sameGoup_clearVendor ] ].

Lemma sameSetup_prepareGomobileToolchain :
  respects sameSetup prepareGomobileToolchain.
Proof.
  unfold prepareGomobileToolchain, logger_Debug. frame_with setup_leaf.
Qed.

Lemma sameSetup_prepareGomobile : respects sameSetup prepareGomobile.
Proof. unfold prepareGomobile, logger_Debug. frame_with setup_leaf. Qed.

Lemma sameSetup_resolveModule acc (modPath : string) :
  respects sameSetup (resolveModule acc modPath).
Proof. unfold resolveModule, logger_Debug. frame_with setup_leaf. Qed.

Lemma sameSetup_copyModulesToWorkspace :
  respects sameSetup copyModulesToWorkspace.
Proof.
  unfold copyModulesToWorkspace, resolveModules.
  frame_with ltac:(first [ setup_leaf | apply sameSetup_resolveModule ]).
Qed.

(** ** prepareGomobileToolchain *)

Lemma section_present (g : Goup) (gm : BuildGomobile) :
  section g = Ok gm →
  gomobile g = Ok (Some gm)
  ∧ hasAndroidBuild g = Ok true ∧ hasIosBuild g = Ok true.
Proof.
  unfold section, hasAndroidBuild, hasIosBuild, gomobile.
  destruct (Config_Build (config g)) as [b|]; [|done]. cbn.
  destruct (Build_Gomobile b) as [gm'|]; [|done]. cbn.
  by intros [= ->].
Qed.

(** The versions that prepareGomobileToolchain asks for. *)
Lemma prepareGomobileToolchain_unfold (w : World) (gm : BuildGomobile) :
  section (goup w) = Ok gm →
  prepareGomobileToolchain w
  = let g := goup w in
    let wrap := λ e, "cannot prepare android build: " +:+ e in
    let goVersion := orDefault (Toolchain_Go (Gomobile_Toolchain gm)) "1.12.4" in
    let ndkVersion := orDefault (Toolchain_Ndk (Gomobile_Toolchain gm)) "r19c" in
    let sdkVersion := orDefault (Toolchain_Sdk (Gomobile_Toolchain gm)) "433796" in
    match Get (resources g) "go" goVersion with
    | inr e => (Err (wrap e), w)
    | inl goRes =>
    match Get (resources g) "ndk" ndkVersion with
    | inr e => (Err (wrap e), w)
    | inl ndkRes =>
    match Get (resources g) "sdk" sdkVersion with
    | inr e => (Err (wrap e), w)
    | inl sdkRes =>
      (forEach ensureToolchain [goRes; ndkRes; sdkRes];;
       let toolchains := Child (Args_HomeDir (args g)) "toolchains" in
       let goRoot := Child toolchains ("go-" +:+ goVersion) in
       setEnv "GOROOT" (String_ goRoot);;
       setEnv "GOPATH" (String_ (goPath g));;
       g1 ← getGoup;
       setEnv "PATH" (String_ (Child goRoot "bin") +:+ ":"
                      +:+ String_ (Child (goPath g) "bin") +:+ ":"
                      +:+ default "" (env g1 !! "PATH"));;
       e ← os_MkdirAll (goPath g); check e id;;
       Run "which" ["go"];;
       setEnv "ANDROID_NDK_HOME"
              (String_ (Child toolchains ("ndk-" +:+ ndkVersion)));;
       g2 ← getGoup;
       setEnv "NDK_PATH" (default "" (env g2 !! "ANDROID_NDK_HOME"));;
       setEnv "ANDROID_HOME"
              (String_ (Child toolchains ("sdk-" +:+ sdkVersion)))) w
    end end end.
Proof.
  intros Hgm. destruct (section_present _ _ Hgm) as (Hp & Ha & _).
  unfold prepareGomobileToolchain.
  rewrite bind_run. unfold getGoup at 1. cbv iota beta.
  rewrite bind_run. unfold liftR at 1. rewrite Hp. cbv iota beta.
  rewrite bind_run. unfold liftR at 1. cbn [deref]. cbv iota beta zeta.
  destruct (Get (resources (goup w)) "go" _) as [goRes|e]; [|done].
  destruct (Get (resources (goup w)) "ndk" _) as [ndkRes|e]; [|done].
  rewrite bind_run. unfold liftR at 1. rewrite Ha. cbv iota beta.
  destruct (Get (resources (goup w)) "sdk" _) as [sdkRes|e]; [|done].
  rewrite bind_run. unfold liftR at 1. cbv iota beta.
  done.
Qed.

(** X5. prepareGomobileToolchain looks up the go, ndk and sdk resources
    (at the configured versions, or 1.12.4, r19c and 433796 when a version
    is empty) before it does anything else: when one of the three is not
    in the catalog it returns the error "cannot prepare android build"
    and the world is exactly as it was; nothing has been downloaded or
    provisioned, not even a resource that is known. *)
Theorem prepareGomobileToolchain_unknown_resource
        (w : World) (gm : BuildGomobile) (e : string) :
  section (goup w) = Ok gm →
  Get (resources (goup w)) "go"
      (orDefault (Toolchain_Go (Gomobile_Toolchain gm)) "1.12.4") = inr e
  ∨ Get (resources (goup w)) "ndk"
        (orDefault (Toolchain_Ndk (Gomobile_Toolchain gm)) "r19c") = inr e
  ∨ Get (resources (goup w)) "sdk"
        (orDefault (Toolchain_Sdk (Gomobile_Toolchain gm)) "433796") = inr e →
  ∃ msg, prepareGomobileToolchain w
         = (Err ("cannot prepare android build: " +:+ msg), w).
Proof.
  intros Hgm Hmiss. rewrite (prepareGomobileToolchain_unfold w gm Hgm).
  cbv zeta.
  destruct (Get (resources (goup w)) "go" _) as [goRes|e1]; [|by eexists].
  destruct (Get (resources (goup w)) "ndk" _) as [ndkRes|e2]; [|by eexists].
  destruct (Get (resources (goup w)) "sdk" _) as [sdkRes|e3]; [|by eexists].
  by destruct Hmiss as [?|[?|?]].
Qed.

(** A prepareGomobileToolchain that returns without error has found the
    section and the three resources. *)
Lemma prepareGomobileToolchain_resources (w w' : World) :
  prepareGomobileToolchain w = (Ok tt, w') →
  ∃ gm goRes ndkRes sdkRes,
    section (goup w) = Ok gm
    ∧ Get (resources (goup w)) "go"
          (orDefault (Toolchain_Go (Gomobile_Toolchain gm)) "1.12.4")
      = inl goRes
    ∧ Get (resources (goup w)) "ndk"
          (orDefault (Toolchain_Ndk (Gomobile_Toolchain gm)) "r19c")
      = inl ndkRes
    ∧ Get (resources (goup w)) "sdk"
          (orDefault (Toolchain_Sdk (Gomobile_Toolchain gm)) "433796")
      = inl sdkRes.
Proof.
  intros Hrun.
  assert (Hgm : ∃ gm, section (goup w) = Ok gm).
  { unfold prepareGomobileToolchain in Hrun.
    apply WorkspaceFacts.bind_Ok in Hrun as (g & w1 & Hg & Hrun).
    unfold getGoup in Hg. injection Hg as <- <-.
    apply WorkspaceFacts.bind_Ok in Hrun as (p & w1 & Hp & Hrun).
    unfold liftR in Hp. injection Hp as Hp <-.
    apply WorkspaceFacts.bind_Ok in Hrun as (gm & w1 & Hgm & _).
    unfold liftR in Hgm. injection Hgm as Hgm <-.
    exists gm. unfold section. by rewrite Hp. }
  destruct Hgm as [gm Hgm].
  rewrite (prepareGomobileToolchain_unfold w gm Hgm) in Hrun. cbv zeta in Hrun.
  destruct (Get (resources (goup w)) "go" _) as [goRes|e1] eqn:Hgo; [|done].
  destruct (Get (resources (goup w)) "ndk" _) as [ndkRes|e2] eqn:Hndk;
    [|done].
  destruct (Get (resources (goup w)) "sdk" _) as [sdkRes|e3] eqn:Hsdk;
    [|done].
  by exists gm, goRes, ndkRes, sdkRes.
Qed.

(** X7. When prepareGomobileToolchain returns without error, the gomobile
    section is there, the three resources are in the catalog, and the go,
    the ndk and the sdk resource have been provisioned, in this order and
    from the world the call started in: the android toolchains are
    provisioned whatever the targets of the arguments are. *)
Theorem prepareGomobileToolchain_provisions_all (w w' : World) :
  prepareGomobileToolchain w = (Ok tt, w') →
  ∃ gm goRes ndkRes sdkRes w1,
    section (goup w) = Ok gm
    ∧ Get (resources (goup w)) "go"
          (orDefault (Toolchain_Go (Gomobile_Toolchain gm)) "1.12.4")
      = inl goRes
    ∧ Get (resources (goup w)) "ndk"
          (orDefault (Toolchain_Ndk (Gomobile_Toolchain gm)) "r19c")
      = inl ndkRes
    ∧ Get (resources (goup w)) "sdk"
          (orDefault (Toolchain_Sdk (Gomobile_Toolchain gm)) "433796")
      = inl sdkRes
    ∧ forEach ensureToolchain [goRes; ndkRes; sdkRes] w = (Ok tt, w1)
    ∧ goup w1 = goup w.
Proof.
  intros Hrun.
  destruct (prepareGomobileToolchain_resources w w' Hrun)
    as (gm & goRes & ndkRes & sdkRes & Hgm & Hgo & Hndk & Hsdk).
  rewrite (prepareGomobileToolchain_unfold w gm Hgm) in Hrun. cbv zeta in Hrun.
  rewrite Hgo, Hndk, Hsdk in Hrun.
  apply WorkspaceFacts.bind_Ok in Hrun as ([] & w1 & Hloop & _).
  exists gm, goRes, ndkRes, sdkRes, w1. repeat split; try done.
  eapply (respects_forEach (R := sameGoup)); [|exact Hloop].
  intros res. apply sameGoup_ensureToolchain.
Qed.

(** X6. When prepareGomobileToolchain returns without error, the
    environment is the one it started with, with GOROOT the go toolchain
    directory, GOPATH the go directory of the build directory, PATH the
    bin directories of both put before the former PATH, ANDROID_NDK_HOME
    and NDK_PATH the ndk toolchain directory and ANDROID_HOME the sdk
    toolchain directory; the working directory and the rest of the struct
    are unchanged. *)
Theorem prepareGomobileToolchain_environment (w w' : World) :
  prepareGomobileToolchain w = (Ok tt, w') →
  ∃ gm,
    section (goup w) = Ok gm
    ∧ let g := goup w in
      let toolchains := Child (Args_HomeDir (args g)) "toolchains" in
      let goRoot :=
        Child toolchains
              ("go-" +:+ orDefault (Toolchain_Go (Gomobile_Toolchain gm))
                                   "1.12.4") in
      let ndkHome :=
        String_ (Child toolchains
                   ("ndk-" +:+ orDefault (Toolchain_Ndk (Gomobile_Toolchain gm))
                                         "r19c")) in
      let sdkHome :=
        String_ (Child toolchains
                   ("sdk-" +:+ orDefault (Toolchain_Sdk (Gomobile_Toolchain gm))
                                         "433796")) in
      env (goup w')
      = <["ANDROID_HOME" := sdkHome]>
          (<["NDK_PATH" := ndkHome]>
             (<["ANDROID_NDK_HOME" := ndkHome]>
                (<["PATH" := String_ (Child goRoot "bin") +:+ ":"
                             +:+ String_ (Child (goPath g) "bin") +:+ ":"
                             +:+ default "" (env g !! "PATH")]>
                   (<["GOPATH" := String_ (goPath g)]>
                      (<["GOROOT" := String_ goRoot]> (env g))))))
      ∧ cwd (goup w') = cwd g
      ∧ sameSetup w w'.
Proof.
  intros Hrun.
  destruct (prepareGomobileToolchain_resources w w' Hrun)
    as (gm & goRes & ndkRes & sdkRes & Hgm & Hgo & Hndk & Hsdk).
  exists gm. split; [done|].
  pose proof (sameSetup_prepareGomobileToolchain _ _ _ Hrun) as Hsetup.
  rewrite (prepareGomobileToolchain_unfold w gm Hgm) in Hrun. cbv zeta in Hrun.
  rewrite Hgo, Hndk, Hsdk in Hrun.
  apply WorkspaceFacts.bind_Ok in Hrun as ([] & w1 & Hloop & Hrun).
  assert (Hg1 : goup w1 = goup w).
  { eapply (respects_forEach (R := sameGoup)); [|exact Hloop].
    intros res. apply sameGoup_ensureToolchain. }
  rewrite bind_run, setEnv_run in Hrun.
  rewrite bind_run, setEnv_run in Hrun.
  rewrite bind_run in Hrun. unfold getGoup at 1 in Hrun. cbv iota beta in Hrun.
  rewrite bind_run, setEnv_run in Hrun.
  cbn [goup env cwd args config buildDir resources fs log trace] in Hrun.
  apply WorkspaceFacts.bind_Ok in Hrun as (e & w2 & Hmk & Hrun).
  pose proof (sameGoup_MkdirAll _ _ _ _ Hmk) as Hg2.
  apply WorkspaceFacts.bind_Ok in Hrun as ([] & w3 & Hck & Hrun).
  apply WorkspaceFacts.check_Ok in Hck as [-> ->].
  apply WorkspaceFacts.bind_Ok in Hrun as (r & w3 & Hwhich & Hrun).
  pose proof (sameGoup_Run _ _ _ _ _ Hwhich) as Hg3.
  rewrite bind_run, setEnv_run in Hrun.
  rewrite bind_run in Hrun. unfold getGoup at 1 in Hrun. cbv iota beta in Hrun.
  rewrite bind_run, setEnv_run in Hrun.
  rewrite setEnv_run in Hrun. injection Hrun as <-.
  unfold sameGoup in *. cbn [goup env cwd] in *.
  rewrite Hg3, Hg2. cbn [goup env cwd]. rewrite Hg1.
  rewrite lookup_insert_eq. cbn [default from_option id].
  rewrite !lookup_insert_ne by done.
  by repeat split.
Qed.

End Facts.
End StageFacts.

(* ===================================================================== *)
(** * Installing gomobile, compiling and the whole build *)
(* ===================================================================== *)

Module CompileFacts.
Import FSFacts MonadFacts FrameFacts EnvironFacts StageFacts.
Section Facts.
Context `{Collaborators}.

(** Steps over a [Run] and the check of its error in the hypothesis [H]:
    either the run has failed and [H] is closed, or the world after it is
    named. *)
Ltac run_step H r w1 Hg Ht :=
  rewrite bind_run in H;
  match type of H with
  | context [Run ?n ?a ?w0] =>
      let E := fresh "E" in
      destruct (Run_trace n a w0) as (r & w1 & E & Hg & _ & _ & Ht);
      rewrite E in H; clear E
  end;
  cbv iota beta in H;
  cbn [goup env cwd args config buildDir resources fs log trace] in Hg, Ht.

(** X8. prepareGomobile does nothing at all when bin/gomobile is in the
    go directory.  Otherwise it runs, in the go directory and with
    GO111MODULE=off, [go get -u] of gomobile, [bin/gomobile version] and
    [bin/gomobile init], in this order, and stops at the first that
    fails, with an error that says which; nothing is spawned after a
    failure. *)
Theorem prepareGomobile_outcomes (w w' : World) (r : result unit) :
  prepareGomobile w = (r, w') →
  let g := goup w in
  let e := processEnv (<["GO111MODULE" := "off"]> (env g)) in
  let get := EvExec "go" ["get"; "-u"; "golang.org/x/mobile/cmd/gomobile"]
                    e (goPath g) in
  let version := EvExec "bin/gomobile" ["version"] e (goPath g) in
  let init := EvExec "bin/gomobile" ["init"] e (goPath g) in
  (Exists (Child (Child (goPath g) "bin") "gomobile") (fs w) = true →
     r = Ok tt ∧ w' = w)
  ∧ (Exists (Child (Child (goPath g) "bin") "gomobile") (fs w) = false →
       (∃ msg, r = Err ("failed to install gomobile: " +:+ msg)
               ∧ trace w' = trace w ++ [get])
       ∨ (∃ msg, r = Err ("failed to invoke gomobile: " +:+ msg)
                 ∧ trace w' = trace w ++ [get; version])
       ∨ (∃ msg, r = Err ("failed to init gomobile: " +:+ msg)
                 ∧ trace w' = trace w ++ [get; version; init])
       ∨ (r = Ok tt ∧ trace w' = trace w ++ [get; version; init]
          ∧ env (goup w') = <["GO111MODULE" := "off"]> (env g)
          ∧ cwd (goup w') = goPath g)).
Proof.
  intros Hrun g e get version init.
  unfold prepareGomobile in Hrun.
  rewrite bind_run in Hrun. unfold getGoup at 1 in Hrun.
  cbv iota beta in Hrun.
  rewrite bind_run in Hrun. unfold pathExists at 1 in Hrun.
  rewrite bind_run in Hrun. unfold getFs at 1 in Hrun.
  cbv iota beta in Hrun. unfold mret at 1, M_ret at 1 in Hrun.
  cbv iota beta in Hrun. fold g in Hrun.
  destruct (Exists (Child (Child (goPath g) "bin") "gomobile") (fs w)).
  { split; [|done]. intros _. by injection Hrun as <- <-. }
  split; [done|]. intros _.
  rewrite bind_run, chdir_run in Hrun.
  rewrite bind_run, setEnv_run in Hrun.
  rewrite bind_run in Hrun. unfold logger_Debug at 1, logger at 1 in Hrun.
  cbv iota beta in Hrun.
  cbn [goup env cwd args config buildDir resources fs log trace] in Hrun.
  fold g in Hrun.
  (* go get *)
  run_step Hrun r1 w1 Hg1 Ht1.
  destruct r1 as [lines1 [e1|]]; cbn [snd check] in Hrun.
  { rewrite bind_run in Hrun. injection Hrun as <- <-. left. eauto. }
  rewrite bind_run in Hrun. unfold mret at 1, M_ret at 1 in Hrun.
  cbv iota beta in Hrun.
  (* gomobile version *)
  run_step Hrun r2 w2 Hg2 Ht2.
  rewrite Hg1 in Ht2. cbn [goup env cwd] in Ht2.
  destruct r2 as [lines2 [e2|]]; cbn [snd check] in Hrun.
  { rewrite bind_run in Hrun. injection Hrun as <- <-. right. left.
    eexists. split; [done|]. rewrite Ht2, Ht1. by rewrite <- app_assoc. }
  rewrite bind_run in Hrun. unfold mret at 1, M_ret at 1 in Hrun.
  cbv iota beta in Hrun.
  (* gomobile init *)
  run_step Hrun r3 w3 Hg3 Ht3.
  rewrite Hg2, Hg1 in Ht3. cbn [goup env cwd] in Ht3.
  assert (Ht : trace w3 = trace w ++ [get; version; init]).
  { rewrite Ht3, Ht2, Ht1. by rewrite <- !app_assoc. }
  destruct r3 as [lines3 [e3|]]; cbn [snd check] in Hrun.
  { injection Hrun as <- <-. right. right. left. eauto. }
  injection Hrun as <- <-. right. right. right.
  rewrite Hg3, Hg2, Hg1. by repeat split.
Qed.

(** ** compileGomobile *)

(** The struct as compileGomobile has it when it comes to the builds. *)
Lemma compileGomobile_cases (w : World) (gm : BuildGomobile) :
  section (goup w) = Ok gm →
  let g := goup w in
  let g0 := {| args := args g; config := config g; buildDir := buildDir g;
               resources := resources g;
               env := <["GO111MODULE" := "off"]> (env g);
               cwd := goPath g |} in
  let e := processEnv (env g0) in
  match Gomobile_Android gm with
      | None =>
          ∃ w0, goup w0 = g0 ∧ fs w0 = fs w ∧ trace w0 = trace w
            ∧ compileGomobile w
              = (Panic
                   "nil pointer dereference: config.Build.Gomobile.Android",
                 w0)
      | Some a =>
          let android := EvExec "bin/gomobile" (androidArguments g gm a)
                                e (goPath g) in
          ∃ w1, goup w1 = g0 ∧ trace w1 = trace w ++ [android]
            ∧ ((∃ err, compileGomobile w = (Err err, w1))
               ∨ match Gomobile_Ios gm with
                 | None =>
                     compileGomobile w
                     = (Panic
                          "nil pointer dereference: config.Build.Gomobile.Ios",
                        w1)
                 | Some i =>
                     let ios := EvExec "bin/gomobile" (iosArguments g gm i)
                                       e (goPath g) in
                     ∃ w2, trace w2 = trace w ++ [android; ios]
                       ∧ goup w2
                         = (if bool_decide (Ios_Out i = [])
                            then setIosOut (iosOut g i) g0 else g0)
                       ∧ ((∃ err, compileGomobile w = (Err err, w2))
                          ∨ compileGomobile w = (Ok tt, w2))
                 end)
      end.
Proof.
  intros Hgm g g0 e.
  destruct (section_present _ _ Hgm) as (Hp & Ha & Hi).
  destruct (compileGomobile w) as [r w'] eqn:Hrun.
  unfold compileGomobile in Hrun.
  rewrite bind_run in Hrun. unfold logger_Debug at 1, logger at 1 in Hrun.
  cbv iota beta in Hrun.
  rewrite bind_run in Hrun. unfold getGoup at 1 in Hrun.
  cbv iota beta in Hrun.
  rewrite bind_run, chdir_run in Hrun.
  rewrite bind_run, setEnv_run in Hrun.
  rewrite bind_run in Hrun. unfold getGoup at 1 in Hrun.
  cbv iota beta in Hrun.
  cbn [goup env cwd args config buildDir resources fs log trace] in Hrun.
  fold g in Hrun. fold g0 in Hrun.
  assert (Hgm0 : section g0 = Ok gm) by exact Hgm.
  assert (Ha0 : hasAndroidBuild g0 = Ok true) by exact Ha.
  assert (Hi0 : hasIosBuild g0 = Ok true) by exact Hi.
  rewrite bind_run in Hrun. unfold liftR at 1 in Hrun. rewrite Ha0 in Hrun.
  cbv iota beta in Hrun.
  rewrite bind_run in Hrun. rewrite bind_run in Hrun.
  unfold liftR at 1 in Hrun. rewrite Hgm0 in Hrun. cbv iota beta in Hrun.
  rewrite bind_run in Hrun. unfold liftR at 1 in Hrun.
  destruct (Gomobile_Android gm) as [a|]; cbn [deref] in Hrun.
  2: { cbv iota beta in Hrun. injection Hrun as <- <-.
       eexists (Build_World _ _ _ _). repeat split; reflexivity. }
  cbv iota beta in Hrun.
  (* the android build *)
  rewrite bind_run in Hrun.
  match type of Hrun with context [Run ?n ?a ?v] =>
    destruct (Run_trace n a v) as (r1 & w1 & E & Hg1 & _ & _ & Ht1) end.
  cbn [goup env cwd trace] in Hg1, Ht1.
  rewrite E in Hrun. clear E. cbv iota beta in Hrun.
  exists w1. split; [done|]. split; [done|].
  destruct r1 as [lines1 [e1|]]; cbn [snd check] in Hrun.
  { injection Hrun as <- <-. left. eauto. }
  right. unfold mret at 1, M_ret at 1 in Hrun. cbv iota beta in Hrun.
  rewrite bind_run in Hrun. unfold getGoup at 1 in Hrun.
  cbv iota beta in Hrun. rewrite Hg1 in Hrun.
  rewrite bind_run in Hrun. unfold liftR at 1 in Hrun. rewrite Hi0 in Hrun.
  cbv iota beta in Hrun.
  rewrite bind_run in Hrun. unfold liftR at 1 in Hrun. rewrite Hgm0 in Hrun.
  cbv iota beta in Hrun.
  rewrite bind_run in Hrun. unfold liftR at 1 in Hrun.
  destruct (Gomobile_Ios gm) as [i|]; cbn [deref] in Hrun.
  2: { by injection Hrun as <- <-. }
  cbv iota beta in Hrun. rewrite bind_run in Hrun.
  (* the ios build *)
  destruct (bool_decide (Ios_Out i = [])) eqn:Eout.
  - unfold withGoup at 1 in Hrun. cbv iota beta in Hrun. rewrite Hg1 in Hrun.
    rewrite bind_run in Hrun.
  match type of Hrun with context [Run ?n ?a ?v] =>
      destruct (Run_trace n a v) as (r2 & w2 & E & Hg2 & _ & _ & Ht2) end.
    cbn [goup env cwd trace setIosOut] in Hg2, Ht2.
    rewrite E in Hrun. clear E. cbv iota beta in Hrun.
    exists w2. split; [by rewrite Ht2, Ht1, <- app_assoc|].
    split; [done|].
    destruct r2 as [lines2 [e2|]]; cbn [snd check] in Hrun;
      injection Hrun as <- <-; eauto.
  - unfold mret at 1, M_ret at 1 in Hrun. cbv iota beta in Hrun.
    rewrite bind_run in Hrun.
  match type of Hrun with context [Run ?n ?a ?v] =>
      destruct (Run_trace n a v) as (r2 & w2 & E & Hg2 & _ & _ & Ht2) end.
    rewrite Hg1 in Hg2, Ht2. cbn [goup env cwd trace] in Hg2, Ht2.
    rewrite E in Hrun. clear E. cbv iota beta in Hrun.
    exists w2. split; [by rewrite Ht2, Ht1, <- app_assoc|].
    split; [done|].
    destruct r2 as [lines2 [e2|]]; cbn [snd check] in Hrun;
      injection Hrun as <- <-; eauto.
Qed.

Lemma hasAndroidBuild_section (g : Goup) (v : bool) :
  hasAndroidBuild g = Ok v → ∃ gm, section g = Ok gm.
Proof.
  unfold hasAndroidBuild, section, gomobile.
  destruct (Config_Build (config g)) as [b|]; [|done]. cbn.
  destruct (Build_Gomobile b) as [gm|]; [|done]. cbn. eauto.
Qed.

Lemma section_config (g g' : Goup) :
  config g' = config g → section g' = section g.
Proof. unfold section, gomobile. by intros ->. Qed.

Lemma compileGomobile_section (w w' : World) :
  compileGomobile w = (Ok tt, w') → ∃ gm, section (goup w) = Ok gm.
Proof.
  unfold compileGomobile. intros Hrun.
  apply WorkspaceFacts.bind_Ok in Hrun as ([] & w1 & Hlog & Hrun).
  apply WorkspaceFacts.bind_Ok in Hrun as (g0 & w2 & Hg0 & Hrun).
  apply WorkspaceFacts.bind_Ok in Hrun as ([] & w3 & Hcd & Hrun).
  apply WorkspaceFacts.bind_Ok in Hrun as ([] & w4 & Hset & Hrun).
  apply WorkspaceFacts.bind_Ok in Hrun as (g & w5 & Hg & Hrun).
  apply WorkspaceFacts.bind_Ok in Hrun as (android & w6 & Ha & _).
  unfold liftR in Ha. injection Ha as Ha _.
  unfold getGoup in Hg, Hg0. injection Hg as <- <-. injection Hg0 as _ <-.
  apply hasAndroidBuild_section in Ha as [gm Hgm]. exists gm.
  apply sameSetup_setEnv in Hset as (_ & Hc4 & _).
  apply sameSetup_chdir in Hcd as (_ & Hc3 & _).
  apply sameGoup_logger in Hlog.
  rewrite <- Hgm. symmetry. apply section_config.
  unfold sameGoup in Hlog. congruence.
Qed.

(** X9. With the gomobile section there, compileGomobile takes both
    builds to be active: without an android section it panics on the nil
    pointer before any process is spawned; with an android but without
    an ios section it spawns the android build and then, unless that
    build has failed, panics on the nil pointer of the ios section.  In
    neither case does it return without error, whatever the targets of
    the arguments. *)
Theorem compileGomobile_missing_section (w : World) (gm : BuildGomobile) :
  section (goup w) = Ok gm →
  let g := goup w in
  let e := processEnv (<["GO111MODULE" := "off"]> (env g)) in
  (Gomobile_Android gm = None →
     ∃ w', compileGomobile w
           = (Panic "nil pointer dereference: config.Build.Gomobile.Android",
              w')
           ∧ fs w' = fs w ∧ trace w' = trace w)
  ∧ (∀ a, Gomobile_Android gm = Some a → Gomobile_Ios gm = None →
       ∃ w', trace w' = trace w
                        ++ [EvExec "bin/gomobile" (androidArguments g gm a)
                                   e (goPath g)]
             ∧ (compileGomobile w
                = (Panic "nil pointer dereference: config.Build.Gomobile.Ios",
                   w')
                ∨ ∃ err, compileGomobile w = (Err err, w'))).
Proof.
  intros Hgm g e. pose proof (compileGomobile_cases w gm Hgm) as Hc.
  cbv zeta in Hc. split.
  - intros Hna. rewrite Hna in Hc.
    destruct Hc as (w0 & _ & Hf & Ht & Hrun). eauto.
  - intros a Ha Hni. rewrite Ha, Hni in Hc.
    destruct Hc as (w1 & _ & Ht & [Herr|Hp]); exists w1; eauto.
Qed.

(** X10. When compileGomobile returns without error, the gomobile section
    has an android and an ios section, and exactly two processes have
    been spawned, both in the go directory and with GO111MODULE=off:
    [bin/gomobile bind -v -o <out>], with [-javapkg <pkg>] when the
    package is not empty, [-target=android] and the exported packages;
    then the same for ios with [-prefix] and [-target=ios], the output
    being [./<name>.framework] resolved against the base directory when
    none is configured.  That default is then written into the
    configuration. *)
Theorem compileGomobile_builds_both (w w' : World) :
  compileGomobile w = (Ok tt, w') →
  let g := goup w in
  let e := processEnv (<["GO111MODULE" := "off"]> (env g)) in
  ∃ gm a i,
    section g = Ok gm
    ∧ Gomobile_Android gm = Some a ∧ Gomobile_Ios gm = Some i
    ∧ trace w' = trace w
                 ++ [EvExec "bin/gomobile" (androidArguments g gm a)
                            e (goPath g);
                     EvExec "bin/gomobile" (iosArguments g gm i)
                            e (goPath g)]
    ∧ env (goup w') = <["GO111MODULE" := "off"]> (env g)
    ∧ cwd (goup w') = goPath g
    ∧ (section (goup w')
       ≫= λ gm', deref "config.Build.Gomobile.Ios" (Gomobile_Ios gm'))
      = Ok {| Ios_Prefix := Ios_Prefix i; Ios_Out := iosOut g i;
              Ios_Bundleid := Ios_Bundleid i; Ios_Ldflags := Ios_Ldflags i;
              Ios_Disabled := Ios_Disabled i |}.
Proof.
  intros Hrun. cbv zeta.
  destruct (compileGomobile_section _ _ Hrun) as [gm Hgm].
  pose proof (compileGomobile_cases w gm Hgm) as Hc. cbv zeta in Hc.
  exists gm.
  destruct (Gomobile_Android gm) as [a|] eqn:Ea.
  2: { destruct Hc as (w0 & _ & _ & _ & Hp). congruence. }
  destruct Hc as (w1 & _ & _ & [[err Herr]|Hc]); [congruence|].
  destruct (Gomobile_Ios gm) as [i|] eqn:Ei; [|congruence].
  destruct Hc as (w2 & Ht & Hg2 & [[err Herr]|Hok]); [congruence|].
  assert (w2 = w') as -> by congruence.
  exists a, i. split; [done|]. split; [done|]. split; [done|].
  split; [done|].
  assert (Hsec : ∃ b, Config_Build (config (goup w)) = Some b
                      ∧ Build_Gomobile b = Some gm).
  { unfold section, gomobile in Hgm.
    destruct (Config_Build (config (goup w))) as [b|]; [|done]. cbn in Hgm.
    destruct (Build_Gomobile b) as [gm'|] eqn:Eb; [|done]. cbn in Hgm.
    injection Hgm as ->. eauto. }
  destruct Hsec as (b & Hb & Hbg).
  rewrite Hg2. unfold iosOut.
  destruct (bool_decide (Ios_Out i = [])) eqn:Eout.
  - cbn [setIosOut env cwd]. split; [done|]. split; [done|].
    unfold section, gomobile. cbn [config setIosOut Config_Build].
    rewrite Hb. cbn. rewrite Hbg. cbn. rewrite Ei. done.
  - cbn [env cwd]. split; [done|]. split; [done|].
    unfold section, gomobile. cbn [config]. rewrite Hb. cbn.
    rewrite Hbg. cbn. rewrite Ei. cbn. by destruct i.
Qed.

(** ** Build *)

(** X11. Build returns without error only for a configuration whose
    gomobile section has both an android and an ios section: the stages
    before compileGomobile leave the configuration as it is, and
    compileGomobile needs both. *)
Theorem Build_needs_both_sections (w w' : World) :
  Goup_Build w = (Ok tt, w') →
  ∃ gm a i,
    section (goup w) = Ok gm
    ∧ Gomobile_Android gm = Some a ∧ Gomobile_Ios gm = Some i.
Proof.
  unfold Goup_Build. intros Hrun.
  apply WorkspaceFacts.bind_Ok in Hrun as ([] & w1 & H1 & Hrun).
  apply WorkspaceFacts.bind_Ok in Hrun as ([] & w2 & H2 & Hrun).
  apply WorkspaceFacts.bind_Ok in Hrun as ([] & w3 & H3 & Hrun).
  apply (respects_wrapping (R := sameSetup)) in H1 as (_ & Hc1 & _);
    [|apply sameSetup_prepareGomobileToolchain].
  apply sameSetup_prepareGomobile in H2 as (_ & Hc2 & _).
  apply sameSetup_copyModulesToWorkspace in H3 as (_ & Hc3 & _).
  destruct (compileGomobile_section _ _ Hrun) as [gm Hgm].
  pose proof (compileGomobile_cases w3 gm Hgm) as Hc. cbv zeta in Hc.
  exists gm.
  destruct (Gomobile_Android gm) as [a|] eqn:Ea.
  2: { destruct Hc as (w0 & _ & _ & _ & Hp). congruence. }
  destruct Hc as (w4 & _ & _ & [[err Herr]|Hc]); [congruence|].
  destruct (Gomobile_Ios gm) as [i|] eqn:Ei.
  2: { congruence. }
  exists a, i. split; [|done].
  rewrite <- Hgm. symmetry. apply section_config. congruence.
Qed.

(** X12. Build on a configuration without a gomobile section (or without
    a build section) does not return an error: it panics in
    prepareGomobileToolchain on the nil pointer, and nothing has been
    done. *)
Theorem Build_without_section_panics (w : World) :
  Config_Build (config (goup w)) = None
  ∨ (∃ b, Config_Build (config (goup w)) = Some b
          ∧ Build_Gomobile b = None) →
  ∃ msg, Goup_Build w = (Panic msg, w).
Proof.
  intros Hnil. unfold Goup_Build. rewrite bind_run. unfold wrapping.
  unfold prepareGomobileToolchain.
  rewrite bind_run. unfold getGoup at 1. cbv iota beta.
  rewrite bind_run. unfold liftR at 1, gomobile.
  destruct Hnil as [->|(b & -> & Hb)]; cbn; [by eexists|].
  rewrite Hb. rewrite bind_run. unfold liftR at 1. cbn. by eexists.
Qed.

(** X13. When one of the go, ndk and sdk resources is not in the catalog,
    Build fails with "failed to prepare gomobile build: cannot prepare
    android build: ..." and has done nothing: the world is as it was. *)
Theorem Build_unknown_resource (w : World) (gm : BuildGomobile) (e : string) :
  section (goup w) = Ok gm →
  Get (resources (goup w)) "go"
      (orDefault (Toolchain_Go (Gomobile_Toolchain gm)) "1.12.4") = inr e
  ∨ Get (resources (goup w)) "ndk"
        (orDefault (Toolchain_Ndk (Gomobile_Toolchain gm)) "r19c") = inr e
  ∨ Get (resources (goup w)) "sdk"
        (orDefault (Toolchain_Sdk (Gomobile_Toolchain gm)) "433796") = inr e →
  ∃ msg, Goup_Build w
         = (Err ("failed to prepare gomobile build: "
                 +:+ "cannot prepare android build: " +:+ msg), w).
Proof.
  intros Hgm Hmiss. unfold Goup_Build. rewrite bind_run. unfold wrapping.
  rewrite (prepareGomobileToolchain_unfold w gm Hgm). cbv zeta.
  destruct (Get (resources (goup w)) "go" _) as [goRes|e1]; [|by eexists].
  destruct (Get (resources (goup w)) "ndk" _) as [ndkRes|e2]; [|by eexists].
  destruct (Get (resources (goup w)) "sdk" _) as [sdkRes|e3]; [|by eexists].
  by destruct Hmiss as [?|[?|?]].
Qed.

(** X14. Whatever their outcome, prepareGomobileToolchain,
    prepareGomobile and copyModulesToWorkspace leave the arguments, the
    configuration, the build directory and the resources of the builder
    as they were: of the struct they change the environment and the
    working directory only. *)
Theorem stages_keep_setup :
  respects sameSetup prepareGomobileToolchain
  ∧ respects sameSetup prepareGomobile
  ∧ respects sameSetup copyModulesToWorkspace.
Proof.
  split; [apply sameSetup_prepareGomobileToolchain|].
  split; [apply sameSetup_prepareGomobile
         |apply sameSetup_copyModulesToWorkspace].
Qed.

End Facts.
End CompileFacts.

(* ===================================================================== *)
(** * The snapshot, the frame of a provisioning and the trace of the assembly *)
(* ===================================================================== *)

Module MoreFacts.
Import FSFacts MonadFacts FrameFacts EnvironFacts StageFacts.

(** ** The snapshot of the catalog *)

(** X15. A catalog that has been downloaded but does not parse stays on
    disk: the refresh returns "failed to load resources", and a second call
    within 24 hours of the download makes no fetch and fails in the same
    way, on the same content. *)
Theorem loadResources_keeps_bad_snapshot
        (now later : Z) (httpGet : string → Snapshot.Response)
        (diskWrite : string → Snapshot.WriteOutcome)
        (parse : string → Resources + string) (a : Args) (d : Snapshot.Disk)
        (data e : string) :
  Snapshot.needsRefresh now d = true →
  httpGet (Args_ResourcesUrl a) = Snapshot.Body data →
  diskWrite data = Snapshot.Written →
  parse data = inr e →
  (later - now ≤ 24 * Snapshot.Hour)%Z →
  let first := Snapshot.loadResources now httpGet diskWrite parse a d in
  let second := Snapshot.loadResources later httpGet diskWrite parse a first.2 in
  first.1 = inr ("failed to load resources: " +:+ e)
  ∧ Snapshot.snapshot first.2
    = Some {| Snapshot.ModTime := now; Snapshot.Content := data |}
  ∧ second.1 = inr ("failed to load resources: " +:+ e)
  ∧ Snapshot.calls second.2 = Snapshot.calls first.2
  ∧ Snapshot.snapshot second.2 = Snapshot.snapshot first.2.
Proof.
  intros Hstale Hget Hwrite Hparse Hage first second.
  assert (Hfirst : first.1 = inr ("failed to load resources: " +:+ e)
                   ∧ Snapshot.snapshot first.2
                     = Some {| Snapshot.ModTime := now;
                               Snapshot.Content := data |}).
  { subst first. unfold Snapshot.loadResources.
    rewrite Hstale, Hget, Hwrite. unfold Snapshot.Load. cbn.
    by rewrite Hparse. }
  destruct Hfirst as [Hr Hs]. split; [done|]. split; [done|].
  clearbody first. subst second. unfold Snapshot.loadResources.
  assert (Hfresh : Snapshot.needsRefresh later first.2 = false).
  { apply (SnapshotFacts.needsRefresh_fresh later first.2 _ Hs). exact Hage. }
  rewrite Hfresh.
  unfold Snapshot.Load. cbn. rewrite Hs. cbn. by rewrite Hparse.
Qed.

(** ** What a provisioning leaves alone *)

Global Instance keeps_preorder (q : Path) : PreOrder (keeps q).
Proof.
  split; [by intros w|]. intros w1 w2 w3 H1 H2. unfold keeps in *. congruence.
Qed.

Section Keeps.
Context `{Collaborators}.
Variable q : Path.

Lemma keeps_emit (e : Event) : respects (keeps q) (emit e).
Proof. by intros w r w' [= <- <-]. Qed.

Lemma keeps_logger (l : Level) (f : Fields) : respects (keeps q) (logger l f).
Proof. by intros w r w' [= <- <-]. Qed.

Lemma keeps_RemoveAll (p : Path) :
  apart p q → respects (keeps q) (os_RemoveAll p).
Proof.
  intros Hap w r w' Hrun.
  destruct (os_RemoveAll_run p w) as (e & n' & E & Hcase).
  rewrite E in Hrun. injection Hrun as <- <-. unfold keeps. cbn.
  destruct Hcase as [[Hr _]|(_ & -> & _)]; [|done].
  by apply (removeAll_apart _ _ _ _ Hr).
Qed.

Lemma keeps_MkdirAll (p : Path) :
  apart p q → respects (keeps q) (os_MkdirAll p).
Proof.
  intros Hap w r w' Hrun.
  destruct (os_MkdirAll_run p w) as (e & n' & E & Hcase).
  rewrite E in Hrun. injection Hrun as <- <-. unfold keeps. cbn.
  destruct Hcase as [[Hr _]|(_ & -> & _)]; [|done].
  by apply (mkdirAll_apart _ _ _ _ Hr).
Qed.

Lemma keeps_Rename (old new : Path) :
  apart old q → apart new q → respects (keeps q) (os_Rename old new).
Proof.
  intros Ho Hn w r w' Hrun.
  destruct (os_Rename_run old new w) as (e & n' & E & Hcase).
  rewrite E in Hrun. injection Hrun as <- <-. unfold keeps. cbn.
  destruct Hcase as [[Hr _]|(_ & -> & _)]; [|done].
  destruct (decide (old = new)) as [->|Hne].
  - unfold rename in Hr. destruct (lookupPath new (fs w)); [|done].
    cbn in Hr. rewrite decide_True in Hr by done. by injection Hr as <-.
  - destruct (rename_moves _ _ _ _ Hr Hne) as (_ & _ & _ & Hframe).
    by apply Hframe.
Qed.

Lemma keeps_downloadAndUnpack (url : string) (dir : Path) :
  apart dir q → respects (keeps q) (downloadAndUnpack url dir).
Proof.
  intros Hap w r w' Hrun.
  destruct (downloadAndUnpack_run url dir w) as (e & n' & E & Hcase).
  rewrite E in Hrun. injection Hrun as <- <-. unfold keeps. cbn.
  destruct Hcase as [(es & _ & Hp & _)|(-> & _)]; [|done].
  by apply (place_apart _ _ _ _ _ Hp).
Qed.

Lemma apart_Child_l (p : Path) (name : string) :
  apart p q → apart (Child p name) q.
Proof.
  intros [Hp Hq]. unfold Child. split.
  - intros Hpre. apply Hp. by eapply prefix_app_l.
  - intros [k Hk]. destruct k as [|x k _] using rev_ind.
    + rewrite app_nil_r in Hk. apply Hp. rewrite <- Hk.
      by apply prefix_app_r.
    + rewrite app_assoc in Hk. apply app_inj_tail in Hk as [Hk _].
      apply Hq. by exists k.
Qed.

(** X16. Provisioning a resource touches nothing but its own directory
    and its staging directory: whatever the outcome, what is at a place
    that lies neither in nor above either of them is as it was.  The
    toolchains of other resources are such places. *)
Theorem ensureToolchain_touches_own_directories
        (res : Resource) (w w' : World) (r : result unit) :
  ensureToolchain res w = (r, w') →
  apart (toolchainDir (goup w) res) q →
  apart (Suffix (toolchainDir (goup w) res) ".tmp") q →
  lookupPath q (fs w') = lookupPath q (fs w).
Proof.
  intros Hrun Htarget Htmp.
  unfold ensureToolchain in Hrun.
  rewrite bind_run in Hrun. unfold getGoup at 1 in Hrun.
  cbv iota beta zeta in Hrun.
  match type of Hrun with ?m w = _ =>
    assert (Hm : respects (keeps q) m) end.
  { unfold logger_Debug.
    frame_with ltac:(first
      [ apply keeps_emit | apply keeps_logger
      | apply keeps_RemoveAll; assumption
      | apply keeps_MkdirAll; assumption
      | apply keeps_downloadAndUnpack; assumption
      | apply keeps_Rename;
        first [ assumption | by apply apart_Child_l ] ]). }
  exact (Hm _ _ _ Hrun).
Qed.

End Keeps.

(** ** The processes and the renames of copyModulesToWorkspace *)

Global Instance spawnsUnder_preorder : PreOrder spawnsUnder.
Proof.
  split.
  - intros w. split; [done|]. exists []. split; [by rewrite app_nil_r|].
    intros ???? Hin. by apply elem_of_nil in Hin.
  - intros w1 w2 w3 (He1 & m1 & Ht1 & H1) (He2 & m2 & Ht2 & H2).
    split; [congruence|]. exists (m1 ++ m2).
    split; [by rewrite Ht2, Ht1, app_assoc|].
    intros n a e d Hin. apply elem_of_app in Hin as [Hin|Hin].
    + by eapply H1.
    + rewrite <- He1. by eapply H2.
Qed.

Lemma renamed_app (l1 l2 : list Event) :
  renamed (l1 ++ l2) = renamed l1 ++ renamed l2.
Proof. unfold renamed. apply filter_app. Qed.

Global Instance noRename_preorder : PreOrder noRename.
Proof.
  split.
  - intros w. exists []. by rewrite app_nil_r.
  - intros w1 w2 w3 (m1 & Ht1 & H1) (m2 & Ht2 & H2).
    exists (m1 ++ m2). split; [by rewrite Ht2, Ht1, app_assoc|].
    by rewrite renamed_app, H1, H2.
Qed.

Section Traces.
Context `{Collaborators}.

Lemma spawns_putFs (n : node) : respects spawnsUnder (putFs n).
Proof. intros w r w' [= <- <-]. change (spawnsUnder w w). reflexivity. Qed.

Lemma spawns_logger (l : Level) (f : Fields) :
  respects spawnsUnder (logger l f).
Proof. intros w r w' [= <- <-]. change (spawnsUnder w w). reflexivity. Qed.

Lemma spawns_emit (e : Event) :
  isExec e = false → respects spawnsUnder (emit e).
Proof.
  intros He w r w' [= <- <-]. split; [done|]. exists [e]. split; [done|].
  intros n a e' d Hin. apply list_elem_of_singleton in Hin. by subst e.
Qed.

Lemma spawns_chdir (path : Path) : respects spawnsUnder (chdir path).
Proof.
  intros w r w'. rewrite chdir_run. intros [= <- <-].
  change (spawnsUnder w w). reflexivity.
Qed.

Lemma spawns_Run (name : string) (arguments : list string) :
  respects spawnsUnder (Run name arguments).
Proof.
  intros w r w' Hrun.
  destruct (Run_trace name arguments w) as (r0 & w0 & E & Hg & _ & _ & Ht).
  rewrite E in Hrun. injection Hrun as <- <-.
  split; [by rewrite Hg|]. eexists. split; [exact Ht|].
  intros n a e d Hin. apply list_elem_of_singleton in Hin.
  by injection Hin as _ _ -> _.
Qed.

Ltac spawns_leaf :=
  first [ apply spawns_putFs | apply spawns_logger | apply spawns_chdir
        | apply spawns_Run | apply spawns_emit; reflexivity ].

Lemma spawns_resolveModule acc (modPath : string) :
  respects spawnsUnder (resolveModule acc modPath).
Proof.
  unfold resolveModule, logger_Debug, os_RemoveAll, CopyDir,
    getModuleName, ParseModulesTxT, collect.
  frame_with spawns_leaf.
Qed.

Lemma spawns_promote (dep : VendoredModule Version) :
  respects spawnsUnder (promote dep).
Proof.
  unfold promote, logger_Debug, os_RemoveAll, os_MkdirAll, os_Rename.
  frame_with spawns_leaf.
Qed.

Lemma spawns_clearVendor (root : Path) :
  respects spawnsUnder (clearVendor root).
Proof.
  unfold clearVendor, logger_Debug, os_RemoveAll, getModuleName.
  frame_with spawns_leaf.
Qed.

(** X17. Every process that copyModulesToWorkspace spawns ([go get] for a
    remote module, [go mod vendor] for each module) has the environment
    of the builder with GO111MODULE=on, and that is the environment
    copyModulesToWorkspace leaves, whatever its outcome. *)
Theorem copyModulesToWorkspace_module_mode
        (w w' : World) (r : result unit) :
  copyModulesToWorkspace w = (r, w') →
  env (goup w') = <["GO111MODULE" := "on"]> (env (goup w))
  ∧ ∃ more, trace w' = trace w ++ more
            ∧ ∀ name arguments e dir,
                EvExec name arguments e dir ∈ more →
                e = processEnv (<["GO111MODULE" := "on"]> (env (goup w)))
                ∧ "GO111MODULE=on" ∈ e.
Proof.
  intros Hrun. unfold copyModulesToWorkspace in Hrun.
  rewrite bind_run in Hrun. unfold resolveModules at 1 in Hrun.
  rewrite bind_run in Hrun. unfold getGoup at 1 in Hrun.
  cbv iota beta in Hrun.
  rewrite bind_run, chdir_run in Hrun.
  rewrite bind_run, setEnv_run in Hrun.
  rewrite <- bind_run in Hrun.
  match type of Hrun with ?m ?w2 = _ =>
    assert (Hm : respects spawnsUnder m) end.
  { frame_with ltac:(first [ spawns_leaf | apply spawns_resolveModule
                           | apply spawns_promote
                           | apply spawns_clearVendor ]). }
  apply Hm in Hrun as (He & more & Ht & Hall).
  cbn [goup env trace] in He, Ht, Hall.
  split; [done|]. exists more. split; [done|].
  intros n a e d Hin. rewrite (Hall _ _ _ _ Hin). split; [done|].
  unfold processEnv. apply list_elem_of_fmap.
  exists ("GO111MODULE", "on"). split; [done|].
  apply elem_of_map_to_list. by rewrite lookup_insert_eq.
Qed.

Lemma noRename_putFs (n : node) : respects noRename (putFs n).
Proof. intros w r w' [= <- <-]. change (noRename w w). reflexivity. Qed.

Lemma noRename_logger (l : Level) (f : Fields) :
  respects noRename (logger l f).
Proof. intros w r w' [= <- <-]. change (noRename w w). reflexivity. Qed.

Lemma noRename_withGoup (f : Goup → Goup) : respects noRename (withGoup f).
Proof.
  intros w r w' [= <- <-]. exists []. cbn. by rewrite app_nil_r.
Qed.

Lemma noRename_emit (e : Event) :
  isRename e = false → respects noRename (emit e).
Proof.
  intros He w r w' [= <- <-]. exists [e]. split; [done|].
  unfold renamed. rewrite filter_cons_False; [done|]. by rewrite He.
Qed.

Ltac noRename_leaf :=
  first [ apply noRename_putFs | apply noRename_logger
        | apply noRename_withGoup | apply noRename_emit; reflexivity ].

Lemma noRename_resolveModules : respects noRename resolveModules.
Proof.
  unfold resolveModules, resolveModule, chdir, setEnv, Run, logger_Debug,
    logger_Error, os_RemoveAll, CopyDir, getModuleName, ParseModulesTxT,
    collect.
  frame_with noRename_leaf.
Qed.

Lemma noRename_clearVendor (root : Path) :
  respects noRename (clearVendor root).
Proof.
  unfold clearVendor, logger_Debug, os_RemoveAll, getModuleName.
  frame_with noRename_leaf.
Qed.

(** A promotion that succeeds: its three calls. *)
Lemma promote_Ok (dep : VendoredModule Version) (w w' : World) :
  promote dep w = (Ok tt, w') →
  goup w' = goup w
  ∧ trace w' = trace w
               ++ [EvRemoveAll (Parent (workspaceDir (goup w)
                                                     (ModuleName dep)));
                   EvMkdirAll (Parent (workspaceDir (goup w)
                                                    (ModuleName dep)));
                   promotion (goup w) dep].
Proof.
  intros Hrun. pose proof (sameGoup_promote _ _ _ _ Hrun) as Hg.
  split; [exact Hg|]. unfold promote in Hrun.
  apply WorkspaceFacts.bind_Ok in Hrun as (g & w1 & Hg1 & Hrun).
  unfold getGoup in Hg1. injection Hg1 as <- <-.
  apply WorkspaceFacts.bind_Ok in Hrun as (e1 & w1 & H1 & Hrun).
  match type of H1 with os_RemoveAll ?p ?v = _ =>
    destruct (os_RemoveAll_run p v) as (? & ? & E & _) end.
  rewrite E in H1. injection H1 as <- <-. clear E.
  apply WorkspaceFacts.bind_Ok in Hrun as ([] & w1 & Hc & Hrun).
  apply WorkspaceFacts.check_Ok in Hc as [_ ->].
  apply WorkspaceFacts.bind_Ok in Hrun as (e2 & w2 & H2 & Hrun).
  match type of H2 with os_MkdirAll ?p ?v = _ =>
    destruct (os_MkdirAll_run p v) as (? & ? & E & _) end.
  rewrite E in H2. injection H2 as <- <-. clear E.
  apply WorkspaceFacts.bind_Ok in Hrun as ([] & w2 & Hc & Hrun).
  apply WorkspaceFacts.check_Ok in Hc as [_ ->].
  apply WorkspaceFacts.bind_Ok in Hrun as ([] & w3 & Hl & Hrun).
  rewrite WorkspaceFacts.logger_Debug_run in Hl. injection Hl as <-.
  apply WorkspaceFacts.bind_Ok in Hrun as (e3 & w4 & H3 & Hrun).
  match type of H3 with os_Rename ?a ?b ?v = _ =>
    destruct (os_Rename_run a b v) as (? & ? & E & _) end.
  rewrite E in H3. injection H3 as <- <-. clear E.
  apply WorkspaceFacts.check_Ok in Hrun as [_ ->].
  cbn. by rewrite <- !app_assoc.
Qed.

Lemma promotions_Ok (deps : list (VendoredModule Version)) (w w' : World) :
  forEach promote deps w = (Ok tt, w') →
  goup w' = goup w
  ∧ ∃ more, trace w' = trace w ++ more
            ∧ renamed more = promotion (goup w) <$> deps.
Proof.
  revert w. induction deps as [|dep deps IH]; intros w Hrun.
  - cbn in Hrun. injection Hrun as <-. split; [done|].
    exists []. by rewrite app_nil_r.
  - cbn [forEach] in Hrun.
    apply WorkspaceFacts.bind_Ok in Hrun as ([] & w1 & Hone & Hrest).
    apply promote_Ok in Hone as [Hg1 Ht1].
    apply IH in Hrest as (Hg & more & Ht & Hren).
    split; [congruence|]. eexists. split.
    { rewrite Ht, Ht1, <- app_assoc. reflexivity. }
    rewrite renamed_app, Hren, Hg1. reflexivity.
Qed.

Lemma sameSetup_resolveModules : respects sameSetup resolveModules.
Proof.
  unfold resolveModules.
  frame_with ltac:(first [ apply StageFacts.sameSetup_chdir
                         | apply StageFacts.sameSetup_setEnv
                         | apply StageFacts.sameSetup_resolveModule ]).
Qed.

Lemma promotion_buildDir (g g' : Goup) (dep : VendoredModule Version) :
  buildDir g' = buildDir g → promotion g' dep = promotion g dep.
Proof.
  unfold promotion, workspaceDir, goPath. by intros ->.
Qed.


End Traces.

End MoreFacts.

(* ===================================================================== *)
(** * The directories that NewGoup makes *)
(* ===================================================================== *)

Module DirFacts.
Import FSFacts MonadFacts FrameFacts EnvironFacts StageFacts.

Lemma mkdirAll_self (p : Path) (n n' : node) :
  mkdirAll p n = Some n' → ∃ es, lookupPath p n' = Some (Dir es).
Proof.
  revert n n'. induction p as [|s p IH]; intros n n' Hm.
  - destruct n as [d|es]; [done|]. injection Hm as <-. by exists es.
  - destruct n as [d|es]; [done|]. rewrite mkdirAll_unfold in Hm.
    destruct (mkdirAll p (default (Dir ∅) (es !! s))) as [c'|] eqn:Ec; [|done].
    injection Hm as <-. cbn. rewrite lookup_insert_eq. cbn.
    by apply (IH _ _ Ec).
Qed.

(** MkdirAll removes no directory. *)
Lemma mkdirAll_dir_stays (q p : Path) (n n' : node) (es : gmap string node) :
  mkdirAll q n = Some n' → lookupPath p n = Some (Dir es) →
  ∃ es', lookupPath p n' = Some (Dir es').
Proof.
  revert p n n' es. induction q as [|s q IH]; intros p n n' es Hm Hl.
  - destruct n as [d|es0]; [done|]. injection Hm as <-. eauto.
  - destruct n as [d|es0]; [done|]. rewrite mkdirAll_unfold in Hm.
    destruct (mkdirAll q (default (Dir ∅) (es0 !! s))) as [c'|] eqn:Ec; [|done].
    injection Hm as <-. destruct p as [|t p]; [cbn; eauto|].
    cbn in *. destruct (decide (s = t)) as [->|Hne].
    + rewrite lookup_insert_eq. cbn.
      destruct (es0 !! t) as [c|]; [|done]. cbn in *.
      by apply (IH _ _ _ _ Ec Hl).
    + rewrite lookup_insert_ne by done. eauto.
Qed.

(** MkdirAll makes nothing but the directory and what is above it. *)
Lemma mkdirAll_not_above (p q : Path) (n n' : node) :
  mkdirAll p n = Some n' → ¬ q `prefix_of` p →
  lookupPath q n = None → lookupPath q n' = None.
Proof.
  revert q n n'. induction p as [|s p IH]; intros q n n' Hm Hnp Hl.
  - destruct n as [d|es]; [done|]. by injection Hm as <-.
  - destruct n as [d|es]; [done|]. rewrite mkdirAll_unfold in Hm.
    destruct (mkdirAll p (default (Dir ∅) (es !! s))) as [c'|] eqn:Ec; [|done].
    injection Hm as <-. destruct q as [|t q]; [done|].
    cbn in *. destruct (decide (s = t)) as [->|Hne].
    + rewrite lookup_insert_eq. cbn.
      assert (Hnp' : ¬ q `prefix_of` p).
      { intros Hpre. apply Hnp. by apply prefix_cons. }
      apply (IH _ _ _ Ec Hnp').
      destruct (es !! t) as [c|]; [done|]. cbn.
      destruct q as [|u q]; [|done]. exfalso. apply Hnp', prefix_nil.
    + by rewrite lookup_insert_ne.
Qed.

Section Facts.
Context `{Collaborators}.


End Facts.
End DirFacts.

(* ===================================================================== *)
(** * The further properties on the sample project *)
(* ===================================================================== *)

Module ExtraWitnesses.
Import Sample2.

Lemma NewGoup_environ_imports_witness :
  ∃ w', NewGoup_environ environ ready = (Ok tt, w')
        ∧ env (goup w') !! "HOME" = Some "/root"
        ∧ env (goup w') !! "OPTS" = Some "-x".
Proof.
  destruct (EnvironFacts.NewGoup_environ_imports environ ready)
    as (w' & Hrun & _ & _ & _ & Hlast & _).
  - intros e Hin. unfold environ in Hin.
    repeat (apply elem_of_cons in Hin as [->|Hin];
            [vm_compute; eauto|]).
    by apply elem_of_nil in Hin.
  - exists w'. split; [exact Hrun|]. split.
    + apply (Hlast ["HOME=/home/dev"; "OPTS=-x=1"; "PATH=/usr/bin:/bin"]
                   "HOME=/root" [] "HOME" "/root" []); [reflexivity..|].
      intros e' Hin. by apply elem_of_nil in Hin.
    + apply (Hlast ["HOME=/home/dev"] "OPTS=-x=1"
                   ["PATH=/usr/bin:/bin"; "HOME=/root"] "OPTS" "-x" ["1"]);
        [reflexivity..|].
      intros e' Hin.
      repeat (apply elem_of_cons in Hin as [->|Hin];
              [vm_compute; discriminate|]).
      by apply elem_of_nil in Hin.
Defined.

Lemma NewGoup_environ_panics_witness :
  ∃ w', NewGoup_environ ["A=1"; "B"; "C=3"] ready
        = (Panic "index out of range [1] with length 1", w').
Proof.
  destruct (EnvironFacts.NewGoup_environ_panics ["A=1"] ["C=3"] "B" ready)
    as (w' & Hrun & _).
  - intros e Hin. apply list_elem_of_singleton in Hin as ->.
    vm_compute. eauto.
  - reflexivity.
  - exists w'. exact Hrun.
Defined.

Lemma prepareGomobileToolchain_unknown_resource_witness :
  ∃ msg, prepareGomobileToolchain unknownGo
         = (Err ("cannot prepare android build: " +:+ msg), unknownGo).
Proof.
  eapply (StageFacts.prepareGomobileToolchain_unknown_resource unknownGo).
  - vm_compute. reflexivity.
  - left. vm_compute. reflexivity.
Defined.

Lemma prepareGomobileToolchain_environment_witness :
  env (goup (prepareGomobileToolchain ready).2) !! "NDK_PATH"
  = Some "/home/.goup/toolchains/ndk-r19c"
  ∧ cwd (goup (prepareGomobileToolchain ready).2) = cwd (goup ready).
Proof.
  destruct (StageFacts.prepareGomobileToolchain_environment
              ready (prepareGomobileToolchain ready).2)
    as (gm & Hgm & Henv & Hcwd & _).
  - vm_compute. reflexivity.
  - split; [|exact Hcwd]. rewrite Henv.
    vm_compute in Hgm. injection Hgm as <-.
    rewrite lookup_insert_ne by done. by rewrite lookup_insert_eq.
Defined.

Lemma prepareGomobileToolchain_provisions_all_witness :
  ∃ w1, forEach ensureToolchain [Sample.goRes; Sample.ndkRes; Sample.sdkRes]
                ready = (Ok tt, w1).
Proof.
  destruct (StageFacts.prepareGomobileToolchain_provisions_all
              ready (prepareGomobileToolchain ready).2)
    as (gm & goRes & ndkRes & sdkRes & w1 & Hgm & Hgo & Hndk & Hsdk & Hrun & _).
  - vm_compute. reflexivity.
  - vm_compute in Hgm. injection Hgm as <-.
    vm_compute in Hgo. injection Hgo as <-.
    vm_compute in Hndk. injection Hndk as <-.
    vm_compute in Hsdk. injection Hsdk as <-.
    exists w1. exact Hrun.
Defined.

Lemma prepareGomobile_outcomes_witness :
  (prepareGomobile ready).1 = Ok tt
  ∧ cwd (goup (prepareGomobile ready).2) = goPath (goup ready).
Proof.
  destruct (CompileFacts.prepareGomobile_outcomes
              ready (prepareGomobile ready).2 (prepareGomobile ready).1)
    as [_ Hrun].
  - apply surjective_pairing.
  - destruct Hrun as [(msg & Hr & _)|[(msg & Hr & _)|[(msg & Hr & _)|Hok]]].
    + vm_compute. reflexivity.
    + vm_compute in Hr. discriminate.
    + vm_compute in Hr. discriminate.
    + vm_compute in Hr. discriminate.
    + destruct Hok as (Hr & _ & _ & Hcwd). split; [exact Hr|exact Hcwd].
Defined.

Lemma compileGomobile_missing_section_witness :
  (∃ w', compileGomobile bare
         = (Panic "nil pointer dereference: config.Build.Gomobile.Android", w')
         ∧ trace w' = trace bare)
  ∧ (∃ w', length (trace w') = 1
           ∧ (compileGomobile readyAndroidOnly
              = (Panic "nil pointer dereference: config.Build.Gomobile.Ios", w')
              ∨ ∃ err, compileGomobile readyAndroidOnly = (Err err, w'))).
Proof.
  split.
  - destruct (CompileFacts.compileGomobile_missing_section
                bare Sample.section eq_refl) as [Hnone _].
    destruct (Hnone eq_refl) as (w' & Hrun & _ & Htrace).
    exists w'. split; [exact Hrun|exact Htrace].
  - destruct (CompileFacts.compileGomobile_missing_section
                readyAndroidOnly androidOnly eq_refl) as [_ Hsome].
    destruct (Hsome androidSection eq_refl eq_refl) as (w' & Htrace & Hrun).
    exists w'. split; [by rewrite Htrace|exact Hrun].
Defined.

Lemma compileGomobile_builds_both_witness :
  length (trace (compileGomobile ready).2) = 2
  ∧ cwd (goup (compileGomobile ready).2) = goPath (goup ready).
Proof.
  destruct (CompileFacts.compileGomobile_builds_both
              ready (compileGomobile ready).2)
    as (gm & a & i & _ & _ & _ & Htrace & _ & Hcwd & _).
  - vm_compute. reflexivity.
  - split; [by rewrite Htrace|exact Hcwd].
Defined.

Lemma Build_needs_both_sections_witness :
  ∃ gm a i, section (goup ready) = Ok gm
            ∧ Gomobile_Android gm = Some a ∧ Gomobile_Ios gm = Some i.
Proof.
  apply (CompileFacts.Build_needs_both_sections ready (Goup_Build ready).2).
  vm_compute. reflexivity.
Defined.

Lemma Build_without_section_panics_witness :
  ∃ msg, Goup_Build sectionless = (Panic msg, sectionless).
Proof.
  apply (CompileFacts.Build_without_section_panics sectionless).
  right. eexists. split; reflexivity.
Defined.

Lemma Build_unknown_resource_witness :
  ∃ msg, Goup_Build unknownGo
         = (Err ("failed to prepare gomobile build: "
                 +:+ "cannot prepare android build: " +:+ msg), unknownGo).
Proof.
  eapply (CompileFacts.Build_unknown_resource unknownGo).
  - vm_compute. reflexivity.
  - left. vm_compute. reflexivity.
Defined.

Lemma loadResources_keeps_bad_snapshot_witness :
  let first :=
    Snapshot.loadResources Sample.clock Sample.reachable
      (λ _, Snapshot.Written) noParse Sample.arguments Sample.staleDisk in
  let second :=
    Snapshot.loadResources (Sample.clock + Snapshot.Hour)%Z Sample.reachable
      (λ _, Snapshot.Written) noParse Sample.arguments first.2 in
  first.1 = inr "failed to load resources: unexpected end of input"
  ∧ second.1 = inr "failed to load resources: unexpected end of input"
  ∧ Snapshot.calls second.2 = Snapshot.calls first.2.
Proof.
  intros first second.
  destruct (MoreFacts.loadResources_keeps_bad_snapshot
              Sample.clock (Sample.clock + Snapshot.Hour)%Z Sample.reachable
              (λ _, Snapshot.Written) noParse Sample.arguments
              Sample.staleDisk "new" "unexpected end of input")
    as (H1 & _ & H2 & Hcalls & _).
  - vm_compute. reflexivity.
  - reflexivity.
  - reflexivity.
  - reflexivity.
  - vm_compute. discriminate.
  - split; [exact H1|]. split; [exact H2|exact Hcalls].
Defined.

Lemma ensureToolchain_touches_own_directories_witness :
  lookupPath ["home"; ".goup"; "toolchains"; "ndk-r19c"]
             (fs (ensureToolchain Sample.goRes ready).2)
  = lookupPath ["home"; ".goup"; "toolchains"; "ndk-r19c"] (fs ready)
  ∧ lookupPath ["home"; ".goup"; "toolchains"; "ndk-r19c"] (fs ready)
    = Some (Dir ∅).
Proof.
  split; [|vm_compute; reflexivity].
  apply (MoreFacts.ensureToolchain_touches_own_directories
           ["home"; ".goup"; "toolchains"; "ndk-r19c"] Sample.goRes ready
           (ensureToolchain Sample.goRes ready).2
           (ensureToolchain Sample.goRes ready).1).
  - apply surjective_pairing.
  - split; intros [k Hk]; vm_compute in Hk; discriminate.
  - split; intros [k Hk]; vm_compute in Hk; discriminate.
Defined.

Lemma copyModulesToWorkspace_module_mode_witness :
  env (goup (copyModulesToWorkspace ready).2)
  = <["GO111MODULE" := "on"]> (env (goup ready)).
Proof.
  apply (MoreFacts.copyModulesToWorkspace_module_mode
           ready (copyModulesToWorkspace ready).2
           (copyModulesToWorkspace ready).1).
  apply surjective_pairing.
Defined.



End ExtraWitnesses.
